(** * translator_for_youtube: the extension's request orchestration, verified

    A shallow embedding of [chrome_extension/translator_ui.js] (the UI surface:
    transcript client, model registry client, single-shot and streaming
    translation) and of [background.js] (the tab lifecycle manager).

    JavaScript strings are represented by their UTF-8 encoding in Rocq's
    [string]; the user-visible Korean messages are the literals of the source.
    Asynchronous code is modelled by explicit continuation state: what a
    handler has captured while it waits is stored in the page state, and each
    browser event (a timer firing, a response arriving, a chunk being read)
    is one step of a transition function. *)

From stdpp Require Import gmap strings list pretty.
From Stdlib Require Import ZArith Lia Ascii String.
From Stdlib.Strings Require Import Byte.

Set Warnings "-register-all".

Open Scope string_scope.

(** ** JavaScript strings *)

Module JsString.

(** [concat] of a list of fragments, in list order. *)
Definition concat (l : list string) : string := foldr String.append "" l.

(** The code of a byte. *)
Definition code (a : ascii) : N := N_of_ascii a.

(** ECMAScript WhiteSpace and LineTerminator code points, by the length of
    their UTF-8 encoding.  One byte: TAB, LF, VT, FF, CR, SPACE. *)
Definition ws1 (a : ascii) : bool :=
  let c := code a in
  ((9 <=? c) && (c <=? 13) || (c =? 32))%N.

(** Two bytes: U+00A0 (C2 A0). *)
Definition ws2 (a b : ascii) : bool :=
  ((code a =? 194) && (code b =? 160))%N.

(** Three bytes: U+1680 (E1 9A 80), U+2000..U+200A (E2 80 80..8A),
    U+2028, U+2029, U+202F (E2 80 A8, A9, AF), U+205F (E2 81 9F),
    U+3000 (E3 80 80), U+FEFF (EF BB BF). *)
Definition ws3 (a b c : ascii) : bool :=
  let x := code a in let y := code b in let z := code c in
  ((x =? 225) && (y =? 154) && (z =? 128)
   || (x =? 226) && (y =? 128)
        && ((128 <=? z) && (z <=? 138) || (z =? 168) || (z =? 169) || (z =? 175))
   || (x =? 226) && (y =? 129) && (z =? 159)
   || (x =? 227) && (y =? 128) && (z =? 128)
   || (x =? 239) && (y =? 187) && (z =? 191))%N.

(** [String.prototype.trimStart]. *)
Fixpoint trimStart (s : string) : string :=
  match s with
  | "" => ""
  | String a r =>
      if ws1 a then trimStart r
      else match r with
           | String b r2 =>
               if ws2 a b then trimStart r2
               else match r2 with
                    | String c r3 => if ws3 a b c then trimStart r3 else s
                    | "" => s
                    end
           | "" => s
           end
  end.

(** The whole string is white space. *)
Definition blank (s : string) : bool :=
  match trimStart s with "" => true | _ => false end.

(** [String.prototype.trimEnd]: cut at the first position from which only
    white space follows. *)
Fixpoint trimEnd (s : string) : string :=
  match s with
  | "" => ""
  | String a r => if blank s then "" else String a (trimEnd r)
  end.

(** [String.prototype.trim]. *)
Definition trim (s : string) : string := trimEnd (trimStart s).

(** [s.includes(needle)]. *)
Fixpoint includes (s needle : string) : bool :=
  String.prefix needle s
  || match s with
     | "" => false
     | String _ r => includes r needle
     end.

(** [s.replace(/c/g, by)] for a one-character pattern [c]. *)
Fixpoint replaceAll (c : ascii) (by_ : string) (s : string) : string :=
  match s with
  | "" => ""
  | String a r =>
      if Ascii.eqb a c then by_ +:+ replaceAll c by_ r
      else String a (replaceAll c by_ r)
  end.

(** [s.length]: the number of UTF-16 code units.  A UTF-8 continuation byte
    (10xxxxxx) adds none; the lead byte of a four-byte sequence
    (a code point above U+FFFF, a surrogate pair) adds two. *)
Fixpoint length (s : string) : nat :=
  match s with
  | "" => 0
  | String a r =>
      let c := code a in
      (if (128 <=? c)%N && (c <? 192)%N then 0
       else if (240 <=? c)%N then 2 else 1) + length r
  end.

(** A value used as a condition: the empty string is falsy. *)
Definition truthy (s : string) : bool :=
  match s with "" => false | _ => true end.

(** A string given by its bytes. *)
Definition of_codes (l : list N) : string :=
  string_of_list_ascii (map ascii_of_N l).

(** The UTF-8 encodings of the white-space code points [trim] removes. *)
Definition whitespace : list string :=
  map of_codes
    [ [9]; [10]; [11]; [12]; [13]; [32];
      [194; 160];
      [225; 154; 128];
      [226; 128; 128]; [226; 128; 129]; [226; 128; 130]; [226; 128; 131];
      [226; 128; 132]; [226; 128; 133]; [226; 128; 134]; [226; 128; 135];
      [226; 128; 136]; [226; 128; 137]; [226; 128; 138];
      [226; 128; 168]; [226; 128; 169]; [226; 128; 175];
      [226; 129; 159]; [227; 128; 128]; [239; 187; 191] ]%N.

(** A text that is empty or made of white space only. *)
Definition only_whitespace (s : string) : Prop :=
  exists l : list string, Forall (fun w => w ∈ whitespace) l /\ s = concat l.

End JsString.

(** ** JavaScript values that reach the page *)

Module Js.

(** What [JSON.parse] and [response.json()] produce.  Numbers are the
    integers below 10^21 in magnitude, which JavaScript prints in plain
    decimal; an object lists its fields in source order, each key once. *)
Inductive json :=
| JNull
| JBool (b : bool)
| JNum (n : Z)
| JStr (s : string)
| JArr (items : list json)
| JObj (fields : list (string * json)).

(** A thrown value: every rejection the page sees is an [Error] object or a
    [DOMException], of which the handlers read [name] and [message]. *)
Record error := { name : string; message : string }.

Definition Error (msg : string) : error := {| name := "Error"; message := msg |}.
Definition TypeError (msg : string) : error := {| name := "TypeError"; message := msg |}.
Definition SyntaxError (msg : string) : error := {| name := "SyntaxError"; message := msg |}.
Definition AbortError (msg : string) : error := {| name := "AbortError"; message := msg |}.

(** The outcome of evaluating an expression that may throw. *)
Inductive completion (A : Type) :=
| Normal (a : A)
| Throw (e : error).
Arguments Normal {A} a.
Arguments Throw {A} e.

(** [String(v)], as a template literal or [new Error(v)] applies it. *)
Fixpoint toString (v : json) : string :=
  match v with
  | JNull => "null"
  | JBool true => "true"
  | JBool false => "false"
  | JNum n => pretty n
  | JStr s => s
  | JArr items =>
      (fix join (l : list json) : string :=
         match l with
         | [] => ""
         | [x] => match x with JNull => "" | _ => toString x end
         | x :: (_ :: _) as r =>
             match x with JNull => "" | _ => toString x end +:+ "," +:+ join r
         end) items
  | JObj _ => "[object Object]"
  end.

(** A property read gives a value or [undefined] ([None]). *)
Definition toStringU (v : option json) : string :=
  match v with None => "undefined" | Some j => toString j end.

(** Truthiness, as [||] and [if] test it. *)
Definition truthy (v : option json) : bool :=
  match v with
  | None | Some JNull => false
  | Some (JBool b) => b
  | Some (JNum n) => negb (n =? 0)%Z
  | Some (JStr s) => JsString.truthy s
  | Some (JArr _) | Some (JObj _) => true
  end.

(** First binding of a key. *)
Fixpoint assoc (k : string) (fields : list (string * json)) : option json :=
  match fields with
  | [] => None
  | (k', v) :: r => if String.eqb k k' then Some v else assoc k r
  end.

(** [v.k] for a key [k] that no prototype defines ([detail],
    [translated_text], [transcript]): reading it off [null] throws, off an
    object gives the field, off anything else gives [undefined].  The
    [TypeError]'s message is the engine's, given by [null_message]. *)
Definition getField (null_message : string) (k : string) (v : json)
  : completion (option json) :=
  match v with
  | JNull => Throw (TypeError null_message)
  | JObj fields => Normal (assoc k fields)
  | _ => Normal None
  end.

(** [v || fallback] converted to a string. *)
Definition orElse (v : option json) (fallback : string) : string :=
  if truthy v then toStringU v else fallback.

(** [el.textContent = v]: [null] and [undefined] give the empty string. *)
Definition asTextContent (v : option json) : string :=
  match v with
  | None | Some JNull => ""
  | Some j => toString j
  end.

End Js.

(** ** What the browser provides

    The functions of the platform whose results the page only passes on:
    the JSON parser with the text of its [SyntaxError], the wording of the
    engine's [TypeError]s and [AbortError], the streaming UTF-8 decoder, and
    the rendering of an element's markup to its [innerText]. *)

Class Platform := {
  (** [JSON.parse(text)]: the value, or the message of the [SyntaxError]. *)
  JSON_parse : string -> Js.json + string;
  (** Message of the [TypeError] thrown by the failing expression named. *)
  type_error_message : string -> string;
  (** Message of the [AbortError] a cancelled request rejects with. *)
  abort_message : string;
  (** [decoder.decode(value, { stream: true })] of a [TextDecoder] holding
      the given bytes of an incomplete sequence (none when new): the bytes
      it holds afterwards, and the text decoded. *)
  decode_stream : list byte -> list byte -> list byte * string;
  (** [innerText] of an element whose [innerHTML] is the given markup. *)
  innerText_of : string -> string;
}.

(** ** The page of the translator UI: its state *)

Module UI.

(** Left-to-right application, so that a handler reads in source order. *)
Notation "st |> f" := (f st) (at level 45, left associativity, only parsing).

(** The closure a timer runs when it fires. *)
Inductive callback :=
| CbWatchdog (controller : nat)   (** the 180 s timeout of a single-shot attempt *)
| CbProgress (progressPhase : nat) (** the progress ticker and its phase variable *)
| CbShowDone (inputText : string)  (** deferred completion display *)
| CbStatusFade                     (** fade-out of a success status *)
| CbStatusHide.                    (** removal of the faded status *)

Record timer := {
  t_delay : Z;          (** milliseconds *)
  t_repeat : bool;      (** [setInterval] rather than [setTimeout] *)
  t_callback : callback;
}.

Record status_indicator := {
  si_className : string;
  si_text : string;
  si_spinner : string;           (** [spinner.style.display] *)
  si_display : string;
  si_opacity : string;
  si_hideTimeout : option nat;   (** [statusIndicator.hideTimeout] *)
}.

Record progress_modal := {
  pg_display : string;
  pg_text : string;
  pg_width : Z;                  (** [progressBarFill.style.width], in percent *)
}.

Record form_controls := {
  provider : string;
  model : string;                (** [modelSelect.value] *)
  model_options : list string;   (** values of the options of the model select *)
  language : string;
  timestamp_checked : bool;
  streaming_checked : bool;
  notification_checked : bool;
}.

(** [null] is [None]: [URLSearchParams.get] of an absent parameter. *)
Record video_params := {
  videoId : option string;
  videoTitle : option string;
  fullUrl : option string;
}.

(** A call of [fetch] on [http://localhost:5000]. *)
Inductive request :=
| GetModels (provider : string)
| GetTranscript (video_id : string) (preserve_timestamps : bool)
| PostTranslate (stream : bool) (text model target_language : string)
    (show_notification : bool).

(** What [handleRegularTranslation] has captured while its promise chain is
    pending.  [r_response] is [None] until [fetch] resolves, then the status
    of the response whose body is being read. *)
Record regular_attempt := {
  r_controller : nat;
  r_inputText : string;
  r_provider : string;
  r_model : string;
  r_timeoutId : nat;
  r_intervalId : nat;
  r_response : option Z;
}.

(** Where [handleStreamTranslation] is suspended: at [fetch], at
    [response.text()] of a non-OK response, or at [reader.read()] with the
    decoder's buffered bytes. *)
Inductive stream_phase :=
| SFetch
| SErrorBody
| SReading (buffered : list byte).

Record stream_attempt := {
  s_controller : nat;
  s_phase : stream_phase;
}.

Inductive attempt :=
| Regular (r : regular_attempt)
| Streaming (s : stream_attempt).

(** A request whose response a client function awaits. *)
Inductive continuation :=
| KModels (selectedModelName : option string)
| KTranscript.

Record page := {
  (** [inputDiv.innerHTML] *)
  input_html : string;
  (** the [contenteditable] attribute of the input area *)
  input_editable : bool;
  (** [inputDiv.style.color] *)
  input_color : string;
  (** [outputDiv.textContent] *)
  output_text : string;
  (** text of the character counter *)
  char_counter : string;
  (** [translateButton.disabled] *)
  button_disabled : bool;
  (** the status indicator *)
  status : status_indicator;
  (** the progress modal *)
  progress : progress_modal;
  (** selects and checkboxes *)
  form : form_controls;
  (** pending timeouts and intervals, by id *)
  timers : gmap nat timer;
  (** the id the next timer gets *)
  next_timer : nat;
  (** [beforeunload] subscriptions, by the controller they abort *)
  unload_handlers : gset nat;
  (** the translation attempt in flight *)
  pending : option attempt;
  (** model-list and transcript requests awaited, by request index *)
  waiting : gmap nat continuation;
  (** every [fetch] issued, oldest first *)
  requests : list request;
  (** controllers that were aborted *)
  aborted : gset nat;
  (** [window.localStorage] *)
  localStorage : gmap string string;
  (** what was written to the console *)
  console : list string;
  (** the query parameters captured at load *)
  video : video_params;
}.

(** Field updates. *)

Definition set_input_html (v : string) (st : page) : page :=
  {| input_html := v; input_editable := input_editable st;
     input_color := input_color st; output_text := output_text st;
     char_counter := char_counter st; button_disabled := button_disabled st;
     status := status st; progress := progress st; form := form st;
     timers := timers st; next_timer := next_timer st;
     unload_handlers := unload_handlers st; pending := pending st;
     waiting := waiting st; requests := requests st; aborted := aborted st;
     localStorage := localStorage st; console := console st; video := video st |}.

Definition set_input_editable (v : bool) (st : page) : page :=
  {| input_html := input_html st; input_editable := v; input_color := input_color st;
     output_text := output_text st; char_counter := char_counter st;
     button_disabled := button_disabled st; status := status st;
     progress := progress st; form := form st; timers := timers st;
     next_timer := next_timer st; unload_handlers := unload_handlers st;
     pending := pending st; waiting := waiting st; requests := requests st;
     aborted := aborted st; localStorage := localStorage st; console := console st;
     video := video st |}.

Definition set_input_color (v : string) (st : page) : page :=
  {| input_html := input_html st; input_editable := input_editable st;
     input_color := v; output_text := output_text st; char_counter := char_counter st;
     button_disabled := button_disabled st; status := status st;
     progress := progress st; form := form st; timers := timers st;
     next_timer := next_timer st; unload_handlers := unload_handlers st;
     pending := pending st; waiting := waiting st; requests := requests st;
     aborted := aborted st; localStorage := localStorage st; console := console st;
     video := video st |}.

Definition set_output_text (v : string) (st : page) : page :=
  {| input_html := input_html st; input_editable := input_editable st;
     input_color := input_color st; output_text := v; char_counter := char_counter st;
     button_disabled := button_disabled st; status := status st;
     progress := progress st; form := form st; timers := timers st;
     next_timer := next_timer st; unload_handlers := unload_handlers st;
     pending := pending st; waiting := waiting st; requests := requests st;
     aborted := aborted st; localStorage := localStorage st; console := console st;
     video := video st |}.

Definition set_char_counter (v : string) (st : page) : page :=
  {| input_html := input_html st; input_editable := input_editable st;
     input_color := input_color st; output_text := output_text st; char_counter := v;
     button_disabled := button_disabled st; status := status st;
     progress := progress st; form := form st; timers := timers st;
     next_timer := next_timer st; unload_handlers := unload_handlers st;
     pending := pending st; waiting := waiting st; requests := requests st;
     aborted := aborted st; localStorage := localStorage st; console := console st;
     video := video st |}.

Definition set_button_disabled (v : bool) (st : page) : page :=
  {| input_html := input_html st; input_editable := input_editable st;
     input_color := input_color st; output_text := output_text st;
     char_counter := char_counter st; button_disabled := v; status := status st;
     progress := progress st; form := form st; timers := timers st;
     next_timer := next_timer st; unload_handlers := unload_handlers st;
     pending := pending st; waiting := waiting st; requests := requests st;
     aborted := aborted st; localStorage := localStorage st; console := console st;
     video := video st |}.

Definition set_status (v : status_indicator) (st : page) : page :=
  {| input_html := input_html st; input_editable := input_editable st;
     input_color := input_color st; output_text := output_text st;
     char_counter := char_counter st; button_disabled := button_disabled st;
     status := v; progress := progress st; form := form st; timers := timers st;
     next_timer := next_timer st; unload_handlers := unload_handlers st;
     pending := pending st; waiting := waiting st; requests := requests st;
     aborted := aborted st; localStorage := localStorage st; console := console st;
     video := video st |}.

Definition set_progress (v : progress_modal) (st : page) : page :=
  {| input_html := input_html st; input_editable := input_editable st;
     input_color := input_color st; output_text := output_text st;
     char_counter := char_counter st; button_disabled := button_disabled st;
     status := status st; progress := v; form := form st; timers := timers st;
     next_timer := next_timer st; unload_handlers := unload_handlers st;
     pending := pending st; waiting := waiting st; requests := requests st;
     aborted := aborted st; localStorage := localStorage st; console := console st;
     video := video st |}.

Definition set_form (v : form_controls) (st : page) : page :=
  {| input_html := input_html st; input_editable := input_editable st;
     input_color := input_color st; output_text := output_text st;
     char_counter := char_counter st; button_disabled := button_disabled st;
     status := status st; progress := progress st; form := v; timers := timers st;
     next_timer := next_timer st; unload_handlers := unload_handlers st;
     pending := pending st; waiting := waiting st; requests := requests st;
     aborted := aborted st; localStorage := localStorage st; console := console st;
     video := video st |}.

Definition set_timers (v : gmap nat timer) (st : page) : page :=
  {| input_html := input_html st; input_editable := input_editable st;
     input_color := input_color st; output_text := output_text st;
     char_counter := char_counter st; button_disabled := button_disabled st;
     status := status st; progress := progress st; form := form st; timers := v;
     next_timer := next_timer st; unload_handlers := unload_handlers st;
     pending := pending st; waiting := waiting st; requests := requests st;
     aborted := aborted st; localStorage := localStorage st; console := console st;
     video := video st |}.

Definition set_next_timer (v : nat) (st : page) : page :=
  {| input_html := input_html st; input_editable := input_editable st;
     input_color := input_color st; output_text := output_text st;
     char_counter := char_counter st; button_disabled := button_disabled st;
     status := status st; progress := progress st; form := form st;
     timers := timers st; next_timer := v; unload_handlers := unload_handlers st;
     pending := pending st; waiting := waiting st; requests := requests st;
     aborted := aborted st; localStorage := localStorage st; console := console st;
     video := video st |}.

Definition set_unload_handlers (v : gset nat) (st : page) : page :=
  {| input_html := input_html st; input_editable := input_editable st;
     input_color := input_color st; output_text := output_text st;
     char_counter := char_counter st; button_disabled := button_disabled st;
     status := status st; progress := progress st; form := form st;
     timers := timers st; next_timer := next_timer st; unload_handlers := v;
     pending := pending st; waiting := waiting st; requests := requests st;
     aborted := aborted st; localStorage := localStorage st; console := console st;
     video := video st |}.

Definition set_pending (v : option attempt) (st : page) : page :=
  {| input_html := input_html st; input_editable := input_editable st;
     input_color := input_color st; output_text := output_text st;
     char_counter := char_counter st; button_disabled := button_disabled st;
     status := status st; progress := progress st; form := form st;
     timers := timers st; next_timer := next_timer st;
     unload_handlers := unload_handlers st; pending := v; waiting := waiting st;
     requests := requests st; aborted := aborted st; localStorage := localStorage st;
     console := console st; video := video st |}.

Definition set_waiting (v : gmap nat continuation) (st : page) : page :=
  {| input_html := input_html st; input_editable := input_editable st;
     input_color := input_color st; output_text := output_text st;
     char_counter := char_counter st; button_disabled := button_disabled st;
     status := status st; progress := progress st; form := form st;
     timers := timers st; next_timer := next_timer st;
     unload_handlers := unload_handlers st; pending := pending st; waiting := v;
     requests := requests st; aborted := aborted st; localStorage := localStorage st;
     console := console st; video := video st |}.

Definition set_requests (v : list request) (st : page) : page :=
  {| input_html := input_html st; input_editable := input_editable st;
     input_color := input_color st; output_text := output_text st;
     char_counter := char_counter st; button_disabled := button_disabled st;
     status := status st; progress := progress st; form := form st;
     timers := timers st; next_timer := next_timer st;
     unload_handlers := unload_handlers st; pending := pending st;
     waiting := waiting st; requests := v; aborted := aborted st;
     localStorage := localStorage st; console := console st; video := video st |}.

Definition set_aborted (v : gset nat) (st : page) : page :=
  {| input_html := input_html st; input_editable := input_editable st;
     input_color := input_color st; output_text := output_text st;
     char_counter := char_counter st; button_disabled := button_disabled st;
     status := status st; progress := progress st; form := form st;
     timers := timers st; next_timer := next_timer st;
     unload_handlers := unload_handlers st; pending := pending st;
     waiting := waiting st; requests := requests st; aborted := v;
     localStorage := localStorage st; console := console st; video := video st |}.

Definition set_localStorage (v : gmap string string) (st : page) : page :=
  {| input_html := input_html st; input_editable := input_editable st;
     input_color := input_color st; output_text := output_text st;
     char_counter := char_counter st; button_disabled := button_disabled st;
     status := status st; progress := progress st; form := form st;
     timers := timers st; next_timer := next_timer st;
     unload_handlers := unload_handlers st; pending := pending st;
     waiting := waiting st; requests := requests st; aborted := aborted st;
     localStorage := v; console := console st; video := video st |}.

Definition set_console (v : list string) (st : page) : page :=
  {| input_html := input_html st; input_editable := input_editable st;
     input_color := input_color st; output_text := output_text st;
     char_counter := char_counter st; button_disabled := button_disabled st;
     status := status st; progress := progress st; form := form st;
     timers := timers st; next_timer := next_timer st;
     unload_handlers := unload_handlers st; pending := pending st;
     waiting := waiting st; requests := requests st; aborted := aborted st;
     localStorage := localStorage st; console := v; video := video st |}.

Definition set_video (v : video_params) (st : page) : page :=
  {| input_html := input_html st; input_editable := input_editable st;
     input_color := input_color st; output_text := output_text st;
     char_counter := char_counter st; button_disabled := button_disabled st;
     status := status st; progress := progress st; form := form st;
     timers := timers st; next_timer := next_timer st;
     unload_handlers := unload_handlers st; pending := pending st;
     waiting := waiting st; requests := requests st; aborted := aborted st;
     localStorage := localStorage st; console := console st; video := v |}.

(** ** Browser primitives *)

(** [setTimeout] and [setInterval] draw their ids from one counter. *)
Definition setTimer (repeat : bool) (cb : callback) (delay : Z) (st : page)
  : nat * page :=
  let id := next_timer st in
  (id, st |> set_timers (<[id := {| t_delay := delay; t_repeat := repeat;
                                    t_callback := cb |}]> (timers st))
          |> set_next_timer (S id)).

Definition setTimeout := setTimer false.
Definition setInterval := setTimer true.

(** [clearTimeout] and [clearInterval]. *)
Definition clearTimer (id : nat) (st : page) : page :=
  set_timers (delete id (timers st)) st.

(** [setTimeout] whose id the caller drops. *)
Definition setTimeout_ (cb : callback) (delay : Z) (st : page) : page :=
  snd (setTimeout cb delay st).

(** [fetch]: the request is logged; its index names it. *)
Definition fetch (r : request) (st : page) : page :=
  set_requests (requests st ++ [r])%list st.

(** [await fetch(...)] of a client function: the request is logged and the
    caller's continuation waits for it. *)
Definition fetch_await (k : continuation) (r : request) (st : page) : page :=
  st |> set_waiting (<[List.length (requests st) := k]> (waiting st)) |> fetch r.

(** [new AbortController()]: named by the index of the request that will
    carry its signal, the next one issued. *)
Definition newController (st : page) : nat := List.length (requests st).

(** [controller.abort()]. *)
Definition abort (controller : nat) (st : page) : page :=
  set_aborted ({[controller]} ∪ aborted st) st.

Definition setItem (k v : string) (st : page) : page :=
  set_localStorage (<[k := v]> (localStorage st)) st.

Definition getItem (k : string) (st : page) : option string :=
  localStorage st !! k.

Definition console_log (line : string) (st : page) : page :=
  set_console (console st ++ [line])%list st.

Definition bool_string (b : bool) : string := if b then "true" else "false".

(** [response.ok]. *)
Definition response_ok (status : Z) : bool :=
  ((200 <=? status) && (status <=? 299))%Z.

(** The double quote, for markup literals. *)
Definition dq : string := String "034"%char "".

(** ** Status, progress and counter *)

Definition set_hideTimeout (v : option nat) (st : page) : page :=
  let si := status st in
  set_status {| si_className := si_className si; si_text := si_text si;
                si_spinner := si_spinner si; si_display := si_display si;
                si_opacity := si_opacity si; si_hideTimeout := v |} st.

(** [updateStatus(message, type, showSpinner)]. *)
Definition updateStatus (message type : string) (showSpinner : bool) (st : page)
  : page :=
  let st :=
    match si_hideTimeout (status st) with
    | Some (S _ as id) => st |> clearTimer id |> set_hideTimeout None
    | _ => st
    end in
  let shown (spinner display : string) :=
    {| si_className := "status-indicator " +:+ type; si_text := message;
       si_spinner := spinner; si_display := display; si_opacity := "1";
       si_hideTimeout := si_hideTimeout (status st) |} in
  if showSpinner then set_status (shown "block" "flex") st
  else
    let st :=
      set_status (shown "none" (if String.eqb type "info" then "none" else "block")) st in
    if String.eqb type "success" then
      let '(id, st) := setTimeout CbStatusFade 3000 st in
      set_hideTimeout (Some id) st
    else st.

(** The pending timers once [updateStatus] has cancelled the fade-out it
    finds in [hideTimeout]. *)
Definition hide_cancelled (st : page) : gmap nat timer :=
  match si_hideTimeout (status st) with
  | Some (S _ as id) => delete id (timers st)
  | _ => timers st
  end.

(** The fade-out timer of a success status. *)
Definition fade_timer : timer :=
  {| t_delay := 3000; t_repeat := false; t_callback := CbStatusFade |}.

(** Whether [updateStatus] arms a fade-out. *)
Definition arms_fade (type : string) (showSpinner : bool) : bool :=
  negb showSpinner && String.eqb type "success".

Definition showProgress (message : string) (st : page) : page :=
  set_progress {| pg_display := "flex"; pg_text := message;
                  pg_width := pg_width (progress st) |} st.

Definition hideProgress (st : page) : page :=
  set_progress {| pg_display := "none"; pg_text := pg_text (progress st);
                  pg_width := pg_width (progress st) |} st.

Definition updateProgressBar (percentage : Z) (st : page) : page :=
  set_progress {| pg_display := pg_display (progress st);
                  pg_text := pg_text (progress st); pg_width := percentage |} st.

Definition set_model_select (options : list string) (value : string) (st : page)
  : page :=
  let f := form st in
  set_form {| provider := provider f; model := value; model_options := options;
              language := language f; timestamp_checked := timestamp_checked f;
              streaming_checked := streaming_checked f;
              notification_checked := notification_checked f |} st.

Definition set_provider (v : string) (st : page) : page :=
  let f := form st in
  set_form {| provider := v; model := model f; model_options := model_options f;
              language := language f; timestamp_checked := timestamp_checked f;
              streaming_checked := streaming_checked f;
              notification_checked := notification_checked f |} st.

Definition set_language (v : string) (st : page) : page :=
  let f := form st in
  set_form {| provider := provider f; model := model f;
              model_options := model_options f; language := v;
              timestamp_checked := timestamp_checked f;
              streaming_checked := streaming_checked f;
              notification_checked := notification_checked f |} st.

Definition set_checkboxes (timestamp streaming notification : bool) (st : page)
  : page :=
  let f := form st in
  set_form {| provider := provider f; model := model f;
              model_options := model_options f; language := language f;
              timestamp_checked := timestamp; streaming_checked := streaming;
              notification_checked := notification |} st.

(** ** Messages shown to the user *)

Definition msg_empty_input : string := "번역할 내용을 입력해주세요".
Definition msg_no_model : string := "사용 가능한 모델을 먼저 선택해주세요".
Definition msg_watchdog : string := "요청이 3분을 초과하여 취소되었습니다".
Definition msg_timeout : string :=
  "요청 시간이 초과되었습니다. 인터넷 연결을 확인해주세요.".
Definition msg_unreachable : string :=
  "서버에 연결할 수 없습니다. 서버가 실행 중인지 확인해주세요.".
Definition msg_server : string :=
  "서버에서 번역을 처리하던 중 오류가 발생했습니다. 잠시 후 다시 시도해주세요.".
Definition msg_unknown : string :=
  "알 수 없는 오류가 발생했습니다. 다시 시도해주세요.".
Definition msg_cancelled : string := "번역이 사용자에 의해 취소되었습니다.".
Definition tag_input_error : string := "입력 오류".
Definition tag_server_error : string := "서버 내부 오류".

Definition progressSteps : list string :=
  [ "서버 연결중..."; "요청 전송중..."; "AI 번역 처리중..."; "결과 수신중...";
    "완료 처리중..." ].

(** ** Single-shot translation: [handleRegularTranslation] *)

Section WithPlatform.
Context `{Platform}.

Definition innerText (st : page) : string := innerText_of (input_html st).

(** [updateCharCounter()]. *)
Definition updateCharCounter (st : page) : page :=
  set_char_counter ("글자: " +:+ pretty (JsString.length (innerText st))) st.

(** The model guard of line 273: nothing selected, or a placeholder label. *)
Definition model_unusable (selectedModel : string) : bool :=
  negb (JsString.truthy selectedModel)
  || JsString.includes selectedModel "로딩"
  || JsString.includes selectedModel "없음".

(** What [handleRegularTranslation] does once the input is validated
    (lines 278-312): controls off, progress shown, the timeout and the
    ticker armed, the request sent. *)
Definition regular_start (st : page) : page :=
  let inputText := innerText st in
  let selectedProvider := provider (form st) in
  let selectedModel := model (form st) in
  let targetLanguage := language (form st) in
  let showNotification := notification_checked (form st) in
  let st := st |> set_button_disabled true
               |> set_input_editable false
               |> updateStatus "번역 준비중..." "loading" true in
  let progressPhase := 0 in
  let st := st |> showProgress (nth progressPhase progressSteps "")
               |> updateProgressBar 10 in
  let controller := newController st in
  let '(timeoutId, st) := setTimeout (CbWatchdog controller) 180000 st in
  let '(progressInterval, st) := setInterval (CbProgress progressPhase) 1000 st in
  st |> fetch (PostTranslate false inputText selectedModel targetLanguage
                 showNotification)
     |> set_pending (Some (Regular
          {| r_controller := controller; r_inputText := inputText;
             r_provider := selectedProvider; r_model := selectedModel;
             r_timeoutId := timeoutId; r_intervalId := progressInterval;
             r_response := None |})).

(** The synchronous part of [handleRegularTranslation], up to [fetch]:
    the two guards (lines 268-276), then the start of the attempt. *)
Definition handleRegularTranslation (st : page) : page :=
  let inputText := innerText st in
  let selectedModel := model (form st) in
  if negb (JsString.truthy (JsString.trim inputText)) then
    updateStatus msg_empty_input "error" false st
  else if model_unusable selectedModel then
    updateStatus msg_no_model "error" false st
  else regular_start st.

(** The body of the timeout callback (lines 288-294). *)
Definition watchdog (controller : nat) (st : page) : page :=
  st |> abort controller
     |> updateStatus msg_watchdog "error" false
     |> hideProgress
     |> set_button_disabled false
     |> set_input_editable true.

(** Line 297: the phase after a tick, capped at the last step. *)
Definition next_phase (progressPhase : nat) : nat :=
  Nat.min (progressPhase + 1) (List.length progressSteps - 1).

(** The body of the ticker callback (lines 296-300), returning the new value
    of its [progressPhase] variable. *)
Definition progress_tick (progressPhase : nat) (st : page) : nat * page :=
  let progressPhase := next_phase progressPhase in
  (progressPhase,
   st |> showProgress (nth progressPhase progressSteps "")
      |> updateProgressBar (10 + Z.of_nat progressPhase * 20)).

(** The error thrown for a non-OK response (lines 320-323). *)
Definition http_error (status : Z) (errorMessage : string) : Js.error :=
  if (status =? 400)%Z then Js.Error (tag_input_error +:+ ": " +:+ errorMessage)
  else if (status =? 500)%Z then Js.Error (tag_server_error +:+ ": " +:+ errorMessage)
  else Js.Error ("HTTP " +:+ pretty status +:+ ": " +:+ errorMessage).

(** The message the [catch] handler chooses (lines 344-349). *)
Definition userFriendlyMessage (error : Js.error) : string :=
  let errorMessage := Js.message error in
  if String.eqb (Js.name error) "AbortError" then msg_timeout
  else if String.eqb (Js.name error) "TypeError"
          && JsString.includes (Js.message error) "fetch" then msg_unreachable
  else if JsString.includes errorMessage tag_input_error then errorMessage
  else if JsString.includes errorMessage tag_server_error then msg_server
  else msg_unknown.

(** [.catch(error => ...)] (lines 340-352). *)
Definition regular_catch (r : regular_attempt) (error : Js.error) (st : page) : page :=
  let st := st |> console_log ("번역 오류: " +:+ Js.message error)
               |> hideProgress
               |> clearTimer (r_intervalId r) in
  st |> set_output_text (userFriendlyMessage error)
     |> updateStatus (userFriendlyMessage error) "error" false.

(** [.finally(() => ...)] (lines 353-361); the chain is then settled. *)
Definition regular_finally (r : regular_attempt) (st : page) : page :=
  let st := st |> clearTimer (r_intervalId r)
               |> clearTimer (r_timeoutId r)
               |> set_button_disabled false
               |> set_input_editable true in
  let st := if negb (button_disabled st)
            then updateStatus "준비 완료" "success" false st else st in
  set_pending None st.

(** A rejection anywhere in the chain runs [catch], then [finally]. *)
Definition regular_rejected (r : regular_attempt) (error : Js.error) (st : page)
  : page :=
  st |> regular_catch r error |> regular_finally r.

(** First [.then] (lines 313-327), up to the call of [response.json()]. *)
Definition regular_on_response (r : regular_attempt) (status : Z) (st : page)
  : page :=
  st |> clearTimer (r_timeoutId r)
     |> updateProgressBar 70
     |> showProgress "서버 응답 처리중..."
     |> set_pending (Some (Regular
          {| r_controller := r_controller r; r_inputText := r_inputText r;
             r_provider := r_provider r; r_model := r_model r;
             r_timeoutId := r_timeoutId r; r_intervalId := r_intervalId r;
             r_response := Some status |})).

(** The deferred completion display armed on success. *)
Definition done_timer (inputText : string) : timer :=
  {| t_delay := 500; t_repeat := false; t_callback := CbShowDone inputText |}.

(** The second [.then] from line 331 on, with the value read off
    [data.translated_text], and the [finally] that follows it. *)
Definition regular_render (r : regular_attempt) (translated_text : option Js.json)
  (st : page) : page :=
  st |> set_output_text (Js.asTextContent translated_text)
     |> setItem "lastUsedProvider" (r_provider r)
     |> setItem "lastUsedModel" (r_model r)
     |> updateProgressBar 100
     |> setTimeout_ (CbShowDone (r_inputText r)) 500
     |> regular_finally r.

(** Second [.then] (lines 328-339), on the parsed body of an OK response. *)
Definition regular_on_data (r : regular_attempt) (data : Js.json) (st : page)
  : page :=
  let st := st |> updateProgressBar 90 |> showProgress "결과 표시중..." in
  match Js.getField (type_error_message "data.translated_text")
          "translated_text" data with
  | Js.Throw e => regular_rejected r e st
  | Js.Normal translated_text => regular_render r translated_text st
  end.

(** [response.json()] has read the body [text] of a response of [status]. *)
Definition regular_on_body (r : regular_attempt) (status : Z) (text : string)
  (st : page) : page :=
  match JSON_parse text with
  | inr msg => regular_rejected r (Js.SyntaxError msg) st
  | inl v =>
      if response_ok status then regular_on_data r v st
      else
        match Js.getField (type_error_message "err.detail") "detail" v with
        | Js.Throw e => regular_rejected r e st
        | Js.Normal detail =>
            let errorMessage := Js.orElse detail "알 수 없는 서버 오류" in
            regular_rejected r (http_error status errorMessage) st
        end
  end.

(** What single-shot mode requires of the page before it sends anything:
    the button can be clicked, streaming is off, the input text is not
    blank and a usable model is selected. *)
Definition ready_regular (st : page) : bool :=
  negb (button_disabled st)
  && negb (streaming_checked (form st))
  && JsString.truthy (JsString.trim (innerText st))
  && negb (model_unusable (model (form st))).

(** The attempt a click on a ready page starts. *)
Definition regular_started (st : page) : regular_attempt :=
  {| r_controller := newController st; r_inputText := innerText st;
     r_provider := provider (form st); r_model := model (form st);
     r_timeoutId := next_timer st; r_intervalId := S (next_timer st);
     r_response := None |}.

Definition watchdog_timer (controller : nat) : timer :=
  {| t_delay := 180000; t_repeat := false; t_callback := CbWatchdog controller |}.

Definition ticker (progressPhase : nat) : timer :=
  {| t_delay := 1000; t_repeat := true; t_callback := CbProgress progressPhase |}.

(** The deferred completion display (lines 335-338). *)
Definition show_done (inputText : string) (st : page) : page :=
  st |> hideProgress
     |> updateStatus (pretty (JsString.length inputText) +:+ "자 번역 완료")
          "success" false.

(** ** Streaming translation: [handleStreamTranslation] *)

(** What [handleStreamTranslation] does once the input is validated
    (lines 379-401): controls off, output cleared, the [beforeunload]
    subscription added, the request sent. *)
Definition stream_start (st : page) : page :=
  let inputText := innerText st in
  let selectedModel := model (form st) in
  let targetLanguage := language (form st) in
  let showNotification := notification_checked (form st) in
  let st := st |> set_button_disabled true
               |> set_input_editable false
               |> set_output_text ""
               |> updateStatus "스트리밍 번역 중..." "loading" true in
  let controller := newController st in
  st |> set_unload_handlers ({[controller]} ∪ unload_handlers st)
     |> fetch (PostTranslate true inputText selectedModel targetLanguage
                 showNotification)
     |> set_pending (Some (Streaming
          {| s_controller := controller; s_phase := SFetch |})).

(** The function up to its first [await] (lines 365-401): the guard on the
    input text, then the start of the attempt. *)
Definition handleStreamTranslation (st : page) : page :=
  let inputText := innerText st in
  if negb (JsString.truthy (JsString.trim inputText)) then
    updateStatus msg_empty_input "error" false st
  else stream_start st.

(** The [catch] block (lines 425-433). *)
Definition stream_catch (error : Js.error) (st : page) : page :=
  let st := console_log ("스트리밍 번역 오류: " +:+ Js.message error) st in
  if String.eqb (Js.name error) "AbortError" then
    st |> set_output_text msg_cancelled
       |> updateStatus "번역 취소됨" "warning" false
  else
    st |> set_output_text ("오류: " +:+ Js.message error)
       |> updateStatus ("오류: " +:+ Js.message error) "error" false.

(** The [finally] block (lines 434-439); the function then returns. *)
Definition stream_finally (s : stream_attempt) (st : page) : page :=
  st |> set_unload_handlers (unload_handlers st ∖ {[s_controller s]})
     |> set_button_disabled false
     |> set_input_editable true
     |> set_pending None.

Definition stream_rejected (s : stream_attempt) (error : Js.error) (st : page)
  : page :=
  st |> stream_catch error |> stream_finally s.

(** [fetch] has resolved (lines 403-409): a non-OK response goes on to read
    its body as text, an OK one to read chunks with a new decoder. *)
Definition stream_on_response (s : stream_attempt) (status : Z) (st : page)
  : page :=
  set_pending (Some (Streaming
    {| s_controller := s_controller s;
       s_phase := if response_ok status then SReading [] else SErrorBody |})) st.

(** The error thrown for a non-OK response whose body is [errorText]
    (line 405), or the one thrown while building it. *)
Definition stream_http_error (errorText : string) : Js.error :=
  match JSON_parse errorText with
  | inr msg => Js.SyntaxError msg
  | inl v =>
      match Js.getField (type_error_message "JSON.parse(errorText).detail")
              "detail" v with
      | Js.Throw e => e
      | Js.Normal detail =>
          Js.Error (Js.orElse detail "스트리밍 연결에 실패했습니다.")
      end
  end.

Definition stream_on_error_body (s : stream_attempt) (errorText : string)
  (st : page) : page :=
  stream_rejected s (stream_http_error errorText) st.

(** One turn of the read loop with [done] false (lines 412-417). *)
Definition stream_on_chunk (s : stream_attempt) (buffered value : list byte)
  (st : page) : page :=
  let '(buffered, chunk) := decode_stream buffered value in
  st |> set_output_text (output_text st +:+ chunk)
     |> set_pending (Some (Streaming
          {| s_controller := s_controller s; s_phase := SReading buffered |})).

(** The turn with [done] true, and the rest of the [try] block. *)
Definition stream_on_done (s : stream_attempt) (st : page) : page :=
  st |> updateStatus "스트리밍 완료" "success" false
     |> stream_finally s.

(** ** Transcript client: [fetchAndDisplayTranscript] *)

Definition div_open (style : string) : string :=
  "<div style=" +:+ dq +:+ style +:+ dq +:+ ">".

Definition loadingHTML : string :=
  div_open "color: #888;" +:+ "자막을 불러오는 중입니다...</div>".

Definition titleHTML (trimmedTitle : string) : string :=
  div_open "font-size: 20px; font-weight: 500;" +:+ trimmedTitle
  +:+ " - YouTube</div>".

Definition urlHTML (fullUrl : string) : string :=
  div_open "font-size: 14px; color: #555; margin-bottom: 1em;" +:+ fullUrl
  +:+ "</div>".

Definition errorHTML (message : string) : string :=
  div_open "color: red;" +:+ "자막을 불러오는 데 실패했습니다: " +:+ message
  +:+ "</div>".

(** Line 162: the three replacements, in this order. *)
Definition escapeTranscript (transcript : string) : string :=
  JsString.replaceAll ">" "&gt;"
    (JsString.replaceAll "<" "&lt;"
       (JsString.replaceAll "&" "&amp;" transcript)).

(** HTML escaping as the specification words it: each of the characters
    [&], [<] and [>] is replaced by its entity, every other byte stays. *)
Definition html_escaped_char (a : ascii) : string :=
  if Ascii.eqb a "&" then "&amp;"
  else if Ascii.eqb a "<" then "&lt;"
  else if Ascii.eqb a ">" then "&gt;"
  else String a "".

Fixpoint html_escaped (s : string) : string :=
  match s with
  | "" => ""
  | String a r => html_escaped_char a +:+ html_escaped r
  end.

(** The text a browser displays for markup without tags, as far as the
    three entities go: each is shown as the character it names. *)
Fixpoint entity_decode (s : string) : string :=
  match s with
  | "" => ""
  | String a r =>
      if Ascii.eqb a "&" then
        match r with
        | String "a" (String "m" (String "p" (String ";" r'))) =>
            String "&" (entity_decode r')
        | String "l" (String "t" (String ";" r')) => String "<" (entity_decode r')
        | String "g" (String "t" (String ";" r')) => String ">" (entity_decode r')
        | _ => String a (entity_decode r)
        end
      else String a (entity_decode r)
  end.

(** [videoTitle.trim()]: a method call on [null] throws. *)
Definition trimmed_title (videoTitle : option string) : Js.completion string :=
  match videoTitle with
  | Some t => Js.Normal (JsString.trim t)
  | None => Js.Throw (Js.TypeError (type_error_message "videoTitle.trim"))
  end.

(** [`${fullUrl}`]. *)
Definition shown_url (fullUrl : option string) : string :=
  match fullUrl with Some u => u | None => "null" end.

(** The function up to its first [await] (lines 141-151). *)
Definition fetchAndDisplayTranscript (videoId : string) (st : page) : page :=
  let preserveTimestamps := timestamp_checked (form st) in
  st |> set_input_html loadingHTML
     |> updateStatus "자막 로딩 중..." "loading" true
     |> fetch_await KTranscript (GetTranscript videoId preserveTimestamps).

(** The [catch] block (lines 168-175).  A throw inside it is not caught:
    the page stays as it is. *)
Definition transcript_catch (error : Js.error) (st : page) : page :=
  let st := console_log ("자막 로딩 오류: " +:+ Js.message error) st in
  match trimmed_title (videoTitle (video st)) with
  | Js.Throw _ => st
  | Js.Normal title =>
      st |> set_input_html (titleHTML title +:+ urlHTML (shown_url (fullUrl (video st)))
                            +:+ errorHTML (Js.message error))
         |> updateStatus ("자막 로딩 실패: " +:+ Js.message error) "error" false
  end.

(** How an awaited request ends: the network fails, or a response arrives
    and its body is read. *)
Inductive outcome :=
| Failed (e : Js.error)
| Responded (status : Z) (body : string).

(** The rest of [fetchAndDisplayTranscript] (lines 152-175). *)
Definition transcript_settled (o : outcome) (st : page) : page :=
  match o with
  | Failed e => transcript_catch e st
  | Responded status body =>
      match JSON_parse body with
      | inr msg => transcript_catch (Js.SyntaxError msg) st
      | inl v =>
          if negb (response_ok status) then
            match Js.getField (type_error_message "errorData.detail") "detail" v with
            | Js.Throw e => transcript_catch e st
            | Js.Normal detail =>
                transcript_catch
                  (Js.Error (Js.orElse detail "자막을 불러올 수 없습니다.")) st
            end
          else
            match trimmed_title (videoTitle (video st)) with
            | Js.Throw e => transcript_catch e st
            | Js.Normal title =>
                match Js.getField (type_error_message "data.transcript")
                        "transcript" v with
                | Js.Throw e => transcript_catch e st
                | Js.Normal (Some (Js.JStr transcript)) =>
                    st |> set_input_html
                            (titleHTML title
                             +:+ urlHTML (shown_url (fullUrl (video st)))
                             +:+ escapeTranscript transcript)
                       |> updateStatus "자막 로드 완료" "success" false
                       |> updateCharCounter
                | Js.Normal _ =>
                    transcript_catch
                      (Js.TypeError (type_error_message "data.transcript.replace")) st
                end
            end
      end
  end.

(** ** Model registry client: [loadModelsForProvider] *)

(** The function up to its first [await] (lines 78-84). *)
Definition loadModelsForProvider (provider : string)
  (selectedModelName : option string) (st : page) : page :=
  st |> set_model_select ["모델 로딩 중..."] "모델 로딩 중..."
     |> updateStatus "모델 목록을 불러오는 중..." "loading" true
     |> fetch_await (KModels selectedModelName) (GetModels provider).

(** The [catch] block (lines 111-115). *)
Definition models_catch (error : Js.error) (st : page) : page :=
  st |> console_log ("모델 로딩 오류: " +:+ Js.message error)
     |> set_model_select ["모델 로딩 실패"] "모델 로딩 실패"
     |> updateStatus (if JsString.truthy (Js.message error) then Js.message error
                      else "모델 목록 로딩 실패") "error" false.

(** [models.length === 0]. *)
Definition length_is_zero (models : Js.json) : bool :=
  match models with
  | Js.JArr [] | Js.JStr "" => true
  | Js.JObj fields =>
      match Js.assoc "length" fields with
      | Some (Js.JNum 0) => true
      | _ => false
      end
  | _ => false
  end.

(** The option values [forEach] appends (lines 97-103): [None] when an
    element is no string, whose [replace] call throws. *)
Fixpoint option_values (models : list Js.json) : option (list string) :=
  match models with
  | [] => Some []
  | Js.JStr modelName :: r => cons modelName <$> option_values r
  | _ :: _ => None
  end.

(** [modelSelect.value = name]: the option of that value is selected, or
    none is and the select reads as empty. *)
Definition select_value (options : list string) (value : string) : string :=
  if bool_decide (value ∈ options) then value else "".

(** The rest of [loadModelsForProvider] (lines 85-115). *)
Definition models_settled (selectedModelName : option string) (o : outcome)
  (st : page) : page :=
  match o with
  | Failed e => models_catch e st
  | Responded status body =>
      if negb (response_ok status) then
        models_catch
          (Js.Error (pretty status +:+ ": 모델 목록을 불러올 수 없습니다.")) st
      else
        match JSON_parse body with
        | inr msg => models_catch (Js.SyntaxError msg) st
        | inl Js.JNull =>
            models_catch (Js.TypeError (type_error_message "models.length")) st
        | inl models =>
            if length_is_zero models then
              st |> set_model_select ["사용 가능한 모델 없음"] "사용 가능한 모델 없음"
                 |> updateStatus "사용 가능한 모델이 없습니다" "error" false
            else
              match models with
              | Js.JArr items =>
                  match option_values items with
                  | None =>
                      models_catch
                        (Js.TypeError (type_error_message "modelName.replace")) st
                  | Some options =>
                      let value :=
                        match selectedModelName with
                        | Some name =>
                            if JsString.truthy name then select_value options name
                            else hd "" options
                        | None => hd "" options
                        end in
                      st |> set_model_select options value
                         |> updateStatus (pretty (List.length items)
                                          +:+ "개 모델 로드 완료") "success" false
                  end
              | _ =>
                  models_catch
                    (Js.TypeError (type_error_message "models.forEach")) st
              end
        end
  end.

(** ** Page load: the [DOMContentLoaded] listener *)

Definition placeholder_text : string := "번역할 내용을 입력하거나 붙여넣으세요...".

Definition placeholderHTML : string :=
  div_open "color: #888;" +:+ placeholder_text +:+ "</div>".

(** [new URLSearchParams(window.location.search)], the parser of
    [application/x-www-form-urlencoded]: a leading [?] is dropped, the rest
    is cut at every [&], each piece that is not empty is cut at its first
    [=] into a name and a value, and in both every [+] becomes a space
    before percent-encoded bytes are decoded. *)
Definition hex_value (a : ascii) : option N :=
  let c := N_of_ascii a in
  if ((48 <=? c) && (c <=? 57))%N then Some (c - 48)%N
  else if ((65 <=? c) && (c <=? 70))%N then Some (c - 55)%N
  else if ((97 <=? c) && (c <=? 102))%N then Some (c - 87)%N
  else None.

Fixpoint plus_to_space (s : string) : string :=
  match s with
  | "" => ""
  | String a r =>
      String (if Ascii.eqb a "+" then " "%char else a) (plus_to_space r)
  end.

Fixpoint percent_decode (s : string) : string :=
  match s with
  | "" => ""
  | String a r =>
      let kept := String a (percent_decode r) in
      if Ascii.eqb a "%" then
        match r with
        | String h (String l r') =>
            match hex_value h, hex_value l with
            | Some x, Some y =>
                String (ascii_of_N (16 * x + y)) (percent_decode r')
            | _, _ => kept
            end
        | _ => kept
        end
      else kept
  end.

Definition form_urldecode (s : string) : string :=
  percent_decode (plus_to_space s).

(** The pieces of [s] between the occurrences of [c]. *)
Fixpoint split_on (c : ascii) (s : string) : list string :=
  match s with
  | "" => [""]
  | String a r =>
      if Ascii.eqb a c then "" :: split_on c r
      else match split_on c r with
           | piece :: pieces => String a piece :: pieces
           | [] => [String a ""]
           end
  end.

(** [s] cut at its first [c]; without one, the second part is empty. *)
Fixpoint split_first (c : ascii) (s : string) : string * string :=
  match s with
  | "" => ("", "")
  | String a r =>
      if Ascii.eqb a c then ("", r)
      else let '(name, value) := split_first c r in (String a name, value)
  end.

Definition parse_query (search : string) : list (string * string) :=
  let query := match search with
               | String a r => if Ascii.eqb a "?" then r else search
               | "" => ""
               end in
  map (fun piece =>
         let '(name, value) := split_first "=" piece in
         (form_urldecode name, form_urldecode value))
    (filter (fun piece => piece <> "") (split_on "&" query)).

(** [urlParams.get(k)] on the parsed query string. *)
Fixpoint urlParams_get (k : string) (query : list (string * string))
  : option string :=
  match query with
  | [] => None
  | (k', v) :: r => if String.eqb k k' then Some v else urlParams_get k r
  end.

(** [if (videoId)]: the id, when it is neither [null] nor empty. *)
Definition usable_videoId (v : video_params) : option string :=
  match videoId v with
  | Some id => if JsString.truthy id then Some id else None
  | None => None
  end.

(** [localStorage.getItem(k) === 'true']. *)
Definition stored_flag (k : string) (st : page) : bool :=
  bool_decide (getItem k st = Some "true").

(** [localStorage.getItem(k) || fallback]. *)
Definition stored_or (k fallback : string) (st : page) : string :=
  match getItem k st with
  | Some v => if JsString.truthy v then v else fallback
  | None => fallback
  end.

(** The listener (lines 178-245), run on the document as loaded, [st],
    whose address has the query parameters [query]. *)
Definition DOMContentLoaded (query : list (string * string)) (st : page) : page :=
  let st := set_video {| videoId := urlParams_get "videoId" query;
                         videoTitle := urlParams_get "videoTitle" query;
                         fullUrl := urlParams_get "fullUrl" query |} st in
  let st := st |> updateCharCounter |> set_language "ko" in
  let showTimestamp := stored_flag "show_timestamp" st in
  let st := set_checkboxes showTimestamp (streaming_checked (form st))
              (notification_checked (form st)) st in
  let useStreaming := stored_flag "use_streaming" st in
  let st := set_checkboxes (timestamp_checked (form st)) useStreaming
              (notification_checked (form st)) st in
  let st := match usable_videoId (video st) with
            | Some id => fetchAndDisplayTranscript id st
            | None => set_input_html placeholderHTML st
            end in
  let lastUsedProvider := stored_or "lastUsedProvider" "gemini" st in
  let lastUsedModel := getItem "lastUsedModel" st in
  st |> set_provider lastUsedProvider
     |> loadModelsForProvider lastUsedProvider lastUsedModel.

(** The [change] listener of the timestamp checkbox (lines 200-205), after
    the browser has set the box to [checked]. *)
Definition on_timestamp_change (checked : bool) (st : page) : page :=
  let st := st |> set_checkboxes checked (streaming_checked (form st))
                    (notification_checked (form st))
               |> setItem "show_timestamp" (bool_string checked) in
  match usable_videoId (video st) with
  | Some id => fetchAndDisplayTranscript id st
  | None => st
  end.

(** The [change] listener of the streaming checkbox (lines 211-213). *)
Definition on_streaming_change (checked : bool) (st : page) : page :=
  st |> set_checkboxes (timestamp_checked (form st)) checked
          (notification_checked (form st))
     |> setItem "use_streaming" (bool_string checked).

(** The [change] listener of the provider select (lines 240-242). *)
Definition on_provider_change (value : string) (st : page) : page :=
  st |> set_provider value |> loadModelsForProvider value None.

(** [onfocus] and [onblur] of the input area (lines 222-232). *)
Definition on_focus (st : page) : page :=
  if String.eqb (JsString.trim (innerText st)) placeholder_text then
    st |> set_input_html "" |> set_input_color "black"
  else st.

Definition on_blur (st : page) : page :=
  if String.eqb (JsString.trim (innerText st)) "" then
    set_input_html placeholderHTML st
  else st.

(** The [click] listener of the translate button (lines 247-254). *)
Definition on_click (st : page) : page :=
  if streaming_checked (form st) then handleStreamTranslation st
  else handleRegularTranslation st.

(** ** The page as a transition system *)

(** What can happen to the page: the user acts, a timer fires, or the
    network answers one of the page's requests. *)
Inductive event :=
| ClickTranslate
| TimerFires (id : nat)
| Response (status : Z)          (** [fetch] of the attempt resolves *)
| Body (text : string)           (** [response.json()] or [.text()] has the body *)
| Chunk (value : list byte)      (** [reader.read()] gives a value *)
| EndOfStream                    (** [reader.read()] gives [done] *)
| NetworkError (e : Js.error)    (** what the attempt awaits rejects *)
| BeforeUnload
| Settled (req : nat) (o : outcome) (** a model-list or transcript request ends *)
| Input (html : string)          (** the user edits the input area *)
| Focus
| Blur
| ToggleTimestamp
| ToggleStreaming
| ToggleNotification
| ChangeProvider (value : string)
| ChangeModel (value : string)
| ChangeLanguage (value : string).

(** An aborted controller rejects what its attempt awaits with an
    [AbortError]; the attempt's handlers run once the current task ends. *)
Definition deliver_abort (st : page) : page :=
  match pending st with
  | Some (Regular r) =>
      if bool_decide (r_controller r ∈ aborted st)
      then regular_rejected r (Js.AbortError abort_message) st else st
  | Some (Streaming s) =>
      if bool_decide (s_controller s ∈ aborted st)
      then stream_rejected s (Js.AbortError abort_message) st else st
  | None => st
  end.

(** The status fade-out (lines 38-44 of [updateStatus]). *)
Definition status_fade (st : page) : page :=
  let si := status st in
  st |> set_status {| si_className := si_className si; si_text := si_text si;
                      si_spinner := si_spinner si; si_display := si_display si;
                      si_opacity := "0"; si_hideTimeout := si_hideTimeout si |}
     |> setTimeout_ CbStatusHide 300.

Definition status_hide (st : page) : page :=
  let si := status st in
  set_status {| si_className := si_className si; si_text := si_text si;
                si_spinner := si_spinner si; si_display := "none";
                si_opacity := si_opacity si; si_hideTimeout := si_hideTimeout si |} st.

(** Timer [id] runs its callback. *)
Definition run_callback (id : nat) (cb : callback) (st : page) : page :=
  match cb with
  | CbWatchdog controller => st |> watchdog controller |> deliver_abort
  | CbProgress progressPhase =>
      let '(progressPhase, st) := progress_tick progressPhase st in
      set_timers (alter (fun t => {| t_delay := t_delay t; t_repeat := t_repeat t;
                                     t_callback := CbProgress progressPhase |})
                    id (timers st)) st
  | CbShowDone inputText => show_done inputText st
  | CbStatusFade => status_fade st
  | CbStatusHide => status_hide st
  end.

(** The [beforeunload] listeners run: each aborts its controller. *)
Definition on_beforeunload (st : page) : page :=
  st |> set_aborted (unload_handlers st ∪ aborted st) |> deliver_abort.

(** One event; [None] when it cannot happen in this state (a click on the
    disabled button, a timer that is not pending, an answer nobody awaits). *)
Definition step (e : event) (st : page) : option page :=
  match e with
  | ClickTranslate =>
      if button_disabled st then None else Some (on_click st)
  | TimerFires id =>
      t ← timers st !! id;
      Some (run_callback id (t_callback t)
              (if t_repeat t then st else clearTimer id st))
  | Response status =>
      match pending st with
      | Some (Regular r) =>
          match r_response r with
          | None => Some (regular_on_response r status st)
          | Some _ => None
          end
      | Some (Streaming s) =>
          match s_phase s with
          | SFetch => Some (stream_on_response s status st)
          | _ => None
          end
      | None => None
      end
  | Body text =>
      match pending st with
      | Some (Regular r) =>
          status ← r_response r; Some (regular_on_body r status text st)
      | Some (Streaming s) =>
          match s_phase s with
          | SErrorBody => Some (stream_on_error_body s text st)
          | _ => None
          end
      | None => None
      end
  | Chunk value =>
      match pending st with
      | Some (Streaming s) =>
          match s_phase s with
          | SReading buffered => Some (stream_on_chunk s buffered value st)
          | _ => None
          end
      | _ => None
      end
  | EndOfStream =>
      match pending st with
      | Some (Streaming s) =>
          match s_phase s with
          | SReading _ => Some (stream_on_done s st)
          | _ => None
          end
      | _ => None
      end
  | NetworkError e =>
      match pending st with
      | Some (Regular r) => Some (regular_rejected r e st)
      | Some (Streaming s) => Some (stream_rejected s e st)
      | None => None
      end
  | BeforeUnload => Some (on_beforeunload st)
  | Settled req o =>
      k ← waiting st !! req;
      let st := set_waiting (delete req (waiting st)) st in
      Some (match k with
            | KModels selectedModelName => models_settled selectedModelName o st
            | KTranscript => transcript_settled o st
            end)
  | Input html =>
      if input_editable st
      then Some (st |> set_input_html html |> updateCharCounter) else None
  | Focus =>
      match usable_videoId (video st) with
      | None => Some (on_focus st)
      | Some _ => None
      end
  | Blur =>
      match usable_videoId (video st) with
      | None => Some (on_blur st)
      | Some _ => None
      end
  | ToggleTimestamp =>
      Some (on_timestamp_change (negb (timestamp_checked (form st))) st)
  | ToggleStreaming =>
      Some (on_streaming_change (negb (streaming_checked (form st))) st)
  | ToggleNotification =>
      Some (set_checkboxes (timestamp_checked (form st))
              (streaming_checked (form st))
              (negb (notification_checked (form st))) st)
  | ChangeProvider value => Some (on_provider_change value st)
  | ChangeModel value =>
      if bool_decide (value ∈ model_options (form st))
      then Some (set_model_select (model_options (form st)) value st) else None
  | ChangeLanguage value => Some (set_language value st)
  end.

(** The text fragments of a streamed response: what the decoder returns
    for each value read, in order. *)
Fixpoint fragments (buffered : list byte) (values : list (list byte))
  : list string :=
  match values with
  | [] => []
  | value :: rest =>
      let '(buffered, chunk) := decode_stream buffered value in
      chunk :: fragments buffered rest
  end.

(** A sequence of events, in order. *)
Fixpoint run (events : list event) (st : page) : option page :=
  match events with
  | [] => Some st
  | e :: rest => st' ← step e st; run rest st'
  end.

(** ** Well-formed pages *)

(** A timer whose callback only changes what is displayed. *)
Definition display_timer (t : timer) : bool :=
  match t_callback t with
  | CbShowDone _ | CbStatusFade | CbStatusHide => true
  | CbWatchdog _ | CbProgress _ => false
  end.

(** The controller that names an attempt through its phases. *)
Definition controller_of (a : attempt) : nat :=
  match a with
  | Regular r => r_controller r
  | Streaming s => s_controller s
  end.

(** The timers an attempt has armed for itself. *)
Definition owns (a : option attempt) (id : nat) : Prop :=
  match a with
  | Some (Regular r) => id = r_timeoutId r \/ id = r_intervalId r
  | _ => False
  end.

(** The [beforeunload] subscription an attempt holds. *)
Definition subscriptions (a : option attempt) : gset nat :=
  match a with
  | Some (Streaming s) => {[s_controller s]}
  | _ => ∅
  end.

(** What holds of the page's timers and subscriptions at any time: timer
    ids are below the counter; a pending timer is a display timer or
    belongs to the attempt in flight, whose controller a pending timeout
    callback aborts; that attempt, when it streams, is the one subscriber
    to [beforeunload]. *)
Record resources_ok (st : page) : Prop := {
  ok_ids : forall id t, timers st !! id = Some t -> id < next_timer st;
  ok_timers : forall id t, timers st !! id = Some t ->
                display_timer t = true \/ owns (pending st) id;
  ok_owned : forall id, owns (pending st) id -> id < next_timer st;
  ok_watchdog : forall id t c,
      timers st !! id = Some t -> t_callback t = CbWatchdog c ->
      exists r, pending st = Some (Regular r) /\ c = r_controller r;
  ok_unload : unload_handlers st ⊆ subscriptions (pending st);
  ok_subscribed : subscriptions (pending st) ⊆ unload_handlers st;
}.

(** What holds of the page between events: besides, the controls are
    enabled exactly when no attempt is in flight. *)
Record page_ok (st : page) : Prop := {
  ok_resources : resources_ok st;
  ok_idle : pending st = None ->
            button_disabled st = false /\ input_editable st = true;
  ok_busy : forall a, pending st = Some a -> button_disabled st = true;
}.

(** A change that leaves the attempt and its subscription alone, removes
    timers or arms display timers under fresh ids. *)
Record calm (st st' : page) : Prop := {
  calm_pending : pending st' = pending st;
  calm_unload : unload_handlers st' = unload_handlers st;
  calm_next : next_timer st <= next_timer st';
  calm_timers : forall id t, timers st' !! id = Some t ->
      timers st !! id = Some t
      \/ (next_timer st <= id < next_timer st' /\ display_timer t = true);
}.

(** A calm change that leaves the controls alone too. *)
Record quiet (st st' : page) : Prop := {
  quiet_calm : calm st st';
  quiet_button : button_disabled st' = button_disabled st;
  quiet_editable : input_editable st' = input_editable st;
}.

(** What an attempt must have let go of when it is over. *)
Definition released (a : attempt) (st : page) : Prop :=
  match a with
  | Regular r =>
      timers st !! r_timeoutId r = None /\ timers st !! r_intervalId r = None
  | Streaming s => s_controller s ∉ unload_handlers st
  end.

(** The same attempt one [await] further: same controller, same timers. *)
Definition continues (a a' : attempt) : Prop :=
  match a, a' with
  | Regular r, Regular r' =>
      r_controller r' = r_controller r
      /\ r_timeoutId r' = r_timeoutId r /\ r_intervalId r' = r_intervalId r
  | Streaming s, Streaming s' => s_controller s' = s_controller s
  | _, _ => False
  end.

(** Across a change of the page, the attempt in flight either goes on or
    is over with its resources released. *)
Definition settles (st st' : page) : Prop :=
  forall a, pending st = Some a ->
    (exists a', pending st' = Some a' /\ continues a a')
    \/ (pending st' = None /\ released a st').

(** The events that end the attempt in flight: what it awaits is rejected
    (a network error), a body has been read (the success and the HTTP error
    of single-shot mode, the HTTP error of streaming mode), the stream is
    at its end, the timeout fires, or the page unloads while streaming. *)
Definition ends_attempt (e : event) (st : page) : bool :=
  match e with
  | NetworkError _ | Body _ | EndOfStream => true
  | TimerFires id =>
      match t_callback <$> timers st !! id with
      | Some (CbWatchdog _) => true
      | _ => false
      end
  | BeforeUnload =>
      match pending st with
      | Some (Streaming _) => true
      | _ => false
      end
  | _ => false
  end.

End WithPlatform.

End UI.

(** ** The background process: the tab lifecycle manager *)

Module Background.

Record tab := {
  url : string;
}.

(** What the background script sees of the browser: the open tabs by id,
    the tab that has the focus, the session storage area and the console. *)
Record browser := {
  tabs : gmap Z tab;
  focused : option Z;
  session : gmap string Z;       (** [chrome.storage.session] *)
  console : list string;
}.

(** The Video Reference a page button sends. *)
Record video_reference := {
  videoId : string;
  videoTitle : string;
  fullUrl : string;
}.

(** A runtime message: [{ action, data }], [data] possibly missing. *)
Record message := {
  action : string;
  data : option video_reference;
}.

(** *** A state and exception monad for the script's asynchronous code *)

Definition M (A : Type) : Type := browser -> (A + string) * browser.

Definition ret {A} (a : A) : M A := fun b => (inl a, b).

Definition bind {A B} (m : M A) (k : A -> M B) : M B :=
  fun b => match m b with
           | (inl a, b') => k a b'
           | (inr e, b') => (inr e, b')
           end.

(** A rejected promise. *)
Definition reject {A} (e : string) : M A := fun b => (inr e, b).

(** [try { body } catch (error) { handler }]. *)
Definition try_catch {A} (body : M A) (handler : string -> M A) : M A :=
  fun b => match body b with
           | (inl a, b') => (inl a, b')
           | (inr e, b') => handler e b'
           end.

Notation "x <- m ;; k" := (bind m (fun x => k))
  (at level 100, m at next level, right associativity).
Notation "m ;;; k" := (bind m (fun _ => k))
  (at level 100, right associativity).

(** *** The extension API *)

Definition TAB_KEY : string := "translatorTabId".

(** [chrome.storage.session.get('translatorTabId')]. *)
Definition storage_get : M (option Z) :=
  fun b => (inl (session b !! TAB_KEY), b).

(** [chrome.storage.session.set({ translatorTabId: id })]. *)
Definition storage_set (id : Z) : M unit :=
  fun b => (inl tt, {| tabs := tabs b; focused := focused b;
                       session := <[TAB_KEY := id]> (session b);
                       console := console b |}).

(** [chrome.storage.session.remove('translatorTabId')]. *)
Definition storage_remove : M unit :=
  fun b => (inl tt, {| tabs := tabs b; focused := focused b;
                       session := delete TAB_KEY (session b);
                       console := console b |}).

(** [chrome.tabs.get(id)]: rejects when there is no such tab; otherwise the
    tab, of which the script reads the id. *)
Definition tabs_get (id : Z) : M Z :=
  fun b => match tabs b !! id with
           | Some _ => (inl id, b)
           | None => (inr ("No tab with id: " +:+ pretty id), b)
           end.

(** [chrome.tabs.update(id, { url, active: true })]. *)
Definition tabs_update (id : Z) (newUrl : string) : M unit :=
  fun b => match tabs b !! id with
           | Some _ => (inl tt, {| tabs := <[id := {| url := newUrl |}]> (tabs b);
                                   focused := Some id; session := session b;
                                   console := console b |})
           | None => (inr ("No tab with id: " +:+ pretty id), b)
           end.

(** [chrome.tabs.create({ url, active: true }, callback)]: the browser opens
    a tab under the id [newId] of its choosing and passes it on. *)
Definition tabs_create (newId : Z) (newUrl : string) : M Z :=
  fun b => (inl newId, {| tabs := <[newId := {| url := newUrl |}]> (tabs b);
                          focused := Some newId; session := session b;
                          console := console b |}).

Definition console_log (line : string) : M unit :=
  fun b => (inl tt, {| tabs := tabs b; focused := focused b; session := session b;
                       console := (console b ++ [line])%list |}).

(** A tab id used as a condition: [0] is falsy. *)
Definition truthy (id : Z) : bool := negb (id =? 0)%Z.

(** *** The script *)

(** [createTranslatorTab(url)] (lines 7-14). *)
Definition createTranslatorTab (newId : Z) (url : string) : M unit :=
  id <- tabs_create newId url ;;
  if truthy id then storage_set id else ret tt.

(** [reuseOrCreateTab(newUrl)] (lines 20-39). *)
Definition reuseOrCreateTab (newId : Z) (newUrl : string) : M unit :=
  translatorTabId <- storage_get ;;
  match translatorTabId with
  | Some id =>
      if truthy id then
        try_catch
          (tab_id <- tabs_get id ;; tabs_update tab_id newUrl)
          (fun error =>
             console_log ("Translator tab with ID " +:+ pretty id
                          +:+ " not found. Creating a new one.") ;;;
             createTranslatorTab newId newUrl)
      else createTranslatorTab newId newUrl
  | None => createTranslatorTab newId newUrl
  end.

(** Hexadecimal digit, upper case. *)
Definition hex_digit (n : N) : ascii :=
  ascii_of_N (if (n <? 10)%N then 48 + n else 55 + n).

(** The [application/x-www-form-urlencoded] serializer [URLSearchParams]
    applies to a value: letters, digits and [*-._] stay, a space becomes
    [+], any other byte is percent-encoded. *)
Fixpoint form_urlencode (s : string) : string :=
  match s with
  | "" => ""
  | String a r =>
      let c := N_of_ascii a in
      if ((48 <=? c) && (c <=? 57) || (65 <=? c) && (c <=? 90)
          || (97 <=? c) && (c <=? 122)
          || (c =? 42) || (c =? 45) || (c =? 46) || (c =? 95))%N
      then String a (form_urlencode r)
      else if (c =? 32)%N then String "+" (form_urlencode r)
      else String "%" (String (hex_digit (c / 16)) (String (hex_digit (c mod 16))
             (form_urlencode r)))
  end.

Section WithExtension.

(** [chrome.runtime.getURL('translator_ui.html')]. *)
Variable ui_page : string.

(** The address of the UI for a Video Reference (lines 45-48). *)
Definition ui_url (v : video_reference) : string :=
  ui_page +:+ "?videoId=" +:+ form_urlencode (videoId v)
  +:+ "&videoTitle=" +:+ form_urlencode (videoTitle v)
  +:+ "&fullUrl=" +:+ form_urlencode (fullUrl v).

(** The [onMessage] listener (lines 41-56). *)
Definition onMessage (newId : Z) (request : message) : M unit :=
  if String.eqb (action request) "showVideoId" then
    match data request with
    | Some v =>
        if JsString.truthy (videoId v) then reuseOrCreateTab newId (ui_url v)
        else ret tt
    | None => ret tt
    end
  else ret tt.

End WithExtension.

(** The [webNavigation.onHistoryStateUpdated] listener (lines 60-69):
    the tab and files it hands to [chrome.scripting.executeScript], if it
    injects at all. *)
Definition onHistoryStateUpdated (details_url : option string) (tabId : Z)
  : option (Z * list string) :=
  match details_url with
  | Some u =>
      if JsString.truthy u && JsString.includes u "youtube.com/watch"
      then Some (tabId, ["content.js"]) else None
  | None => None
  end.

(** The browser closes tab [tabId]. *)
Definition close_tab (tabId : Z) (b : browser) : browser :=
  {| tabs := delete tabId (tabs b);
     focused := if bool_decide (focused b = Some tabId) then None else focused b;
     session := session b; console := console b |}.

(** The [onRemoved] listener (lines 72-79). *)
Definition onRemoved (tabId : Z) : M unit :=
  translatorTabId <- storage_get ;;
  if bool_decide (translatorTabId = Some tabId) then
    storage_remove ;;;
    console_log ("Translator tab with ID " +:+ pretty tabId
                 +:+ " closed. Removing from session storage.")
  else ret tt.

(** The stored reference, when there is one, names an open tab by a
    non-zero id. *)
Definition tracked_ok (b : browser) : Prop :=
  forall id, session b !! TAB_KEY = Some id ->
    id <> 0%Z /\ is_Some (tabs b !! id).

End Background.

(** ** A concrete browser and document, for running the model *)

Module Sample.

Definition detail_body (detail : string) : string :=
  "{" +:+ UI.dq +:+ "detail" +:+ UI.dq +:+ ": " +:+ UI.dq +:+ detail +:+ UI.dq
  +:+ "}".

Definition translated_body : string :=
  "{" +:+ UI.dq +:+ "translated_text" +:+ UI.dq +:+ ": " +:+ UI.dq +:+ "안녕하세요"
  +:+ UI.dq +:+ "}".

Definition transcript_body : string :=
  "{" +:+ UI.dq +:+ "transcript" +:+ UI.dq +:+ ": " +:+ UI.dq +:+ "a <b> & c"
  +:+ UI.dq +:+ "}".

(** A parser that knows the bodies above and rejects every other text. *)
Definition parse (text : string) : Js.json + string :=
  if String.eqb text (detail_body "empty text") then
    inl (Js.JObj [("detail", Js.JStr "empty text")])
  else if String.eqb text (detail_body "quota") then
    inl (Js.JObj [("detail", Js.JStr "quota")])
  else if String.eqb text translated_body then
    inl (Js.JObj [("translated_text", Js.JStr "안녕하세요")])
  else if String.eqb text transcript_body then
    inl (Js.JObj [("transcript", Js.JStr "a <b> & c")])
  else if String.eqb text "{}" then inl (Js.JObj [])
  else inr ("Unexpected token in JSON: " +:+ text).

(** Every value read is taken to hold whole characters; markup without tags
    renders as itself. *)
#[export] Instance browser : Platform := {|
  JSON_parse := parse;
  type_error_message expr := "Cannot read properties of null (" +:+ expr +:+ ")";
  abort_message := "signal is aborted without reason";
  decode_stream buffered value :=
    ([], string_of_list_byte (buffered ++ value)%list);
  innerText_of html := html;
|}.

(** The document before its script has run, holding the text [text]. *)
Definition document (text : string) (storage : gmap string string) : UI.page :=
  {| UI.input_html := text; UI.input_editable := true; UI.input_color := "";
     UI.output_text := ""; UI.char_counter := ""; UI.button_disabled := false;
     UI.status := {| UI.si_className := "status-indicator"; UI.si_text := "";
                     UI.si_spinner := "none"; UI.si_display := "none";
                     UI.si_opacity := "1"; UI.si_hideTimeout := None |};
     UI.progress := {| UI.pg_display := "none"; UI.pg_text := ""; UI.pg_width := 0 |};
     UI.form := {| UI.provider := "gemini"; UI.model := "gemini-pro";
                   UI.model_options := ["gemini-pro"]; UI.language := "ko";
                   UI.timestamp_checked := false; UI.streaming_checked := false;
                   UI.notification_checked := false |};
     UI.timers := ∅; UI.next_timer := 1; UI.unload_handlers := ∅;
     UI.pending := None; UI.waiting := ∅; UI.requests := []; UI.aborted := ∅;
     UI.localStorage := storage; UI.console := [];
     UI.video := {| UI.videoId := None; UI.videoTitle := None; UI.fullUrl := None |} |}.

(** The same document with streaming mode switched on. *)
Definition streaming_document (text : string) : UI.page :=
  UI.set_checkboxes false true false (document text ∅).

(** Where a sequence of events leaves a page. *)
Definition after (events : list UI.event) (st : UI.page) : UI.page :=
  default st (UI.run events st).

(** The single-shot attempt on the text "hello", once it has its response. *)
Definition hello_attempt (status : Z) : UI.regular_attempt :=
  {| UI.r_controller := 0; UI.r_inputText := "hello";
     UI.r_provider := "gemini"; UI.r_model := "gemini-pro";
     UI.r_timeoutId := 1; UI.r_intervalId := 2; UI.r_response := Some status |}.

(** A model list, and a browser whose parser knows it too. *)
Definition models_body : string :=
  "[" +:+ UI.dq +:+ "gemini-pro" +:+ UI.dq +:+ ", " +:+ UI.dq +:+ "gemini-flash"
  +:+ UI.dq +:+ "]".

Definition registry_browser : Platform := {|
  JSON_parse text :=
    if String.eqb text models_body
    then inl (Js.JArr [Js.JStr "gemini-pro"; Js.JStr "gemini-flash"])
    else parse text;
  type_error_message expr := "Cannot read properties of null (" +:+ expr +:+ ")";
  abort_message := "signal is aborted without reason";
  decode_stream buffered value :=
    ([], string_of_list_byte (buffered ++ value)%list);
  innerText_of html := html;
|}.

(** The streaming document while its model list is still loading. *)
Definition loading_document (text : string) : UI.page :=
  UI.set_model_select ["모델 로딩 중..."] "모델 로딩 중..." (streaming_document text).

(** A page opened on video "abc" whose address carries no title. *)
Definition untitled_document : UI.page :=
  UI.set_video {| UI.videoId := Some "abc"; UI.videoTitle := None;
                  UI.fullUrl := None |} (document "" ∅).

(** The document once a success status has started to fade: the timer
    that will hide the indicator is pending under id 2. *)
Definition fading_document : UI.page :=
  after [UI.TimerFires 1] (UI.updateStatus "saved" "success" false (document "" ∅)).

(** The response of the spec's streaming example, one value per fragment. *)
Definition greeting_values : list (list byte) :=
  map list_byte_of_string ["안"; "녕"; "하세요"].

(** A browser whose parser also knows an error body whose detail quotes the
    input-error tag. *)
Definition quoting_detail : string := "입력 오류 아님".

Definition quoting_browser : Platform := {|
  JSON_parse text :=
    if String.eqb text (detail_body quoting_detail)
    then inl (Js.JObj [("detail", Js.JStr quoting_detail)])
    else parse text;
  type_error_message expr := "Cannot read properties of null (" +:+ expr +:+ ")";
  abort_message := "signal is aborted without reason";
  decode_stream buffered value :=
    ([], string_of_list_byte (buffered ++ value)%list);
  innerText_of html := html;
|}.

End Sample.


(** * Properties *)

(** ** Strings *)

Module JsStringFacts.
Import JsString.

Lemma append_nil (s : string) : "" +:+ s = s.
Proof. reflexivity. Qed.

Lemma append_cons (x : ascii) (a b : string) :
  String x a +:+ b = String x (a +:+ b).
Proof. reflexivity. Qed.

Lemma app_assoc (a b c : string) : (a +:+ b) +:+ c = a +:+ (b +:+ c).
Proof.
  induction a as [|x a IH]; [reflexivity|].
  now rewrite !append_cons, IH.
Qed.

Lemma app_nil_r (a : string) : a +:+ "" = a.
Proof.
  induction a as [|x a IH]; [reflexivity|].
  now rewrite append_cons, IH.
Qed.

Lemma concat_app (l1 l2 : list string) :
  concat (l1 ++ l2)%list = concat l1 +:+ concat l2.
Proof.
  induction l1 as [|x l1 IH]; [reflexivity|].
  change (x +:+ concat (l1 ++ l2)%list = (x +:+ concat l1) +:+ concat l2).
  now rewrite IH, app_assoc.
Qed.

(** A string starts with each of its prefixes. *)
Lemma prefix_app (p s : string) : String.prefix p (p +:+ s) = true.
Proof.
  induction p as [|x p IH]; [now destruct s|].
  rewrite append_cons. simpl.
  destruct (ascii_dec x x); [exact IH | congruence].
Qed.

Lemma includes_prefix (p s : string) : includes (p +:+ s) p = true.
Proof.
  destruct p as [|x p]; [now destruct s|].
  change (String.prefix (String x p) (String x p +:+ s)
          || includes (p +:+ s) (String x p) = true).
  now rewrite prefix_app.
Qed.

(** Leading white space does not survive [trimStart]. *)
Lemma trimStart_whitespace (w s : string) :
  w ∈ whitespace -> trimStart (w +:+ s) = trimStart s.
Proof.
  intros Hw. vm_compute in Hw.
  repeat (apply elem_of_cons in Hw as [->|Hw]; [reflexivity|]).
  now apply elem_of_nil in Hw.
Qed.

Lemma trimStart_only_whitespace (s : string) :
  only_whitespace s -> trimStart s = "".
Proof.
  intros (l & Hl & ->). induction Hl as [|w l Hw _ IH]; [reflexivity|].
  change (trimStart (w +:+ concat l) = ""). now rewrite trimStart_whitespace.
Qed.

(** [trim] of a text that is empty or all white space is the empty string. *)
Lemma trim_only_whitespace (s : string) : only_whitespace s -> trim s = "".
Proof. intros Hs. unfold trim. now rewrite trimStart_only_whitespace. Qed.

(** *** Substrings *)

Lemma includes_cons (x : ascii) (s needle : string) :
  includes s needle = true -> includes (String x s) needle = true.
Proof.
  intros Hs. change (String.prefix needle (String x s) || includes s needle = true).
  rewrite Hs. apply orb_true_r.
Qed.

(** A string includes whatever was put in its middle. *)
Lemma includes_middle (a needle b : string) :
  includes (a +:+ needle +:+ b) needle = true.
Proof.
  induction a as [|x a IH]; [rewrite append_nil; apply includes_prefix|].
  rewrite append_cons. now apply includes_cons.
Qed.

(** Looking for one character. *)
Lemma includes_char (x c : ascii) (s : string) :
  includes (String x s) (String c "")
  = Ascii.eqb x c || includes s (String c "").
Proof.
  change (includes (String x s) (String c ""))
    with (String.prefix (String c "") (String x s) || includes s (String c "")).
  f_equal. simpl. destruct (ascii_dec c x) as [->|Hne].
  - rewrite Ascii.eqb_refl. now destruct s.
  - symmetry. apply Ascii.eqb_neq. congruence.
Qed.

(** *** Replacement and escaping *)

Lemma replaceAll_app (c : ascii) (by_ a b : string) :
  replaceAll c by_ (a +:+ b) = replaceAll c by_ a +:+ replaceAll c by_ b.
Proof.
  induction a as [|x a IH]; [reflexivity|].
  rewrite append_cons. cbn [replaceAll]. rewrite IH.
  destruct (Ascii.eqb x c); [now rewrite app_assoc | reflexivity].
Qed.

End JsStringFacts.

(** ** The page *)

Module UIFacts.
Import UI.

Section WithPlatform.
Context `{Platform}.

Create Rewrite HintDb page.

#[local] Arguments updateStatus : simpl never.

(** Case analysis on what [updateStatus] finds in [hideTimeout]. *)
Ltac status_cases st :=
  unfold updateStatus;
  destruct (si_hideTimeout (status st)) as [[|?]|]; simpl.

(** [updateStatus] changes the indicator and its fade-out timer only. *)
Ltac status_frame st :=
  unfold updateStatus;
  destruct (si_hideTimeout (status st)) as [[|?]|]; simpl;
  repeat match goal with
         | |- context [if ?b then _ else _] => destruct b; simpl
         end; reflexivity.

Lemma updateStatus_input_html (message type : string) (showSpinner : bool) (st : page) :
  input_html (updateStatus message type showSpinner st) = input_html st.
Proof. status_frame st. Qed.

Lemma updateStatus_input_editable (message type : string) (showSpinner : bool) (st : page) :
  input_editable (updateStatus message type showSpinner st) = input_editable st.
Proof. status_frame st. Qed.

Lemma updateStatus_input_color (message type : string) (showSpinner : bool) (st : page) :
  input_color (updateStatus message type showSpinner st) = input_color st.
Proof. status_frame st. Qed.

Lemma updateStatus_output_text (message type : string) (showSpinner : bool) (st : page) :
  output_text (updateStatus message type showSpinner st) = output_text st.
Proof. status_frame st. Qed.

Lemma updateStatus_char_counter (message type : string) (showSpinner : bool) (st : page) :
  char_counter (updateStatus message type showSpinner st) = char_counter st.
Proof. status_frame st. Qed.

Lemma updateStatus_button_disabled (message type : string) (showSpinner : bool) (st : page) :
  button_disabled (updateStatus message type showSpinner st) = button_disabled st.
Proof. status_frame st. Qed.

Lemma updateStatus_progress (message type : string) (showSpinner : bool) (st : page) :
  progress (updateStatus message type showSpinner st) = progress st.
Proof. status_frame st. Qed.

Lemma updateStatus_form (message type : string) (showSpinner : bool) (st : page) :
  form (updateStatus message type showSpinner st) = form st.
Proof. status_frame st. Qed.

Lemma updateStatus_unload_handlers (message type : string) (showSpinner : bool) (st : page) :
  unload_handlers (updateStatus message type showSpinner st) = unload_handlers st.
Proof. status_frame st. Qed.

Lemma updateStatus_pending (message type : string) (showSpinner : bool) (st : page) :
  pending (updateStatus message type showSpinner st) = pending st.
Proof. status_frame st. Qed.

Lemma updateStatus_waiting (message type : string) (showSpinner : bool) (st : page) :
  waiting (updateStatus message type showSpinner st) = waiting st.
Proof. status_frame st. Qed.

Lemma updateStatus_requests (message type : string) (showSpinner : bool) (st : page) :
  requests (updateStatus message type showSpinner st) = requests st.
Proof. status_frame st. Qed.

Lemma updateStatus_aborted (message type : string) (showSpinner : bool) (st : page) :
  aborted (updateStatus message type showSpinner st) = aborted st.
Proof. status_frame st. Qed.

Lemma updateStatus_localStorage (message type : string) (showSpinner : bool) (st : page) :
  localStorage (updateStatus message type showSpinner st) = localStorage st.
Proof. status_frame st. Qed.

Lemma updateStatus_console (message type : string) (showSpinner : bool) (st : page) :
  console (updateStatus message type showSpinner st) = console st.
Proof. status_frame st. Qed.

Lemma updateStatus_video (message type : string) (showSpinner : bool) (st : page) :
  video (updateStatus message type showSpinner st) = video st.
Proof. status_frame st. Qed.

Hint Rewrite updateStatus_input_html updateStatus_input_editable updateStatus_input_color updateStatus_output_text updateStatus_char_counter updateStatus_button_disabled updateStatus_progress updateStatus_form updateStatus_unload_handlers updateStatus_pending updateStatus_waiting updateStatus_requests updateStatus_aborted updateStatus_localStorage updateStatus_console updateStatus_video : page.

Lemma updateStatus_timers (message type : string) (showSpinner : bool) (st : page) :
  timers (updateStatus message type showSpinner st)
  = if arms_fade type showSpinner
    then <[next_timer st := fade_timer]> (hide_cancelled st)
    else hide_cancelled st.
Proof.
  unfold updateStatus, hide_cancelled, arms_fade.
  destruct (si_hideTimeout (status st)) as [[|?]|], showSpinner; simpl;
    try reflexivity; destruct (String.eqb type "success"); reflexivity.
Qed.

Lemma updateStatus_next_timer (message type : string) (showSpinner : bool)
  (st : page) :
  next_timer (updateStatus message type showSpinner st)
  = if arms_fade type showSpinner then S (next_timer st) else next_timer st.
Proof.
  unfold updateStatus, arms_fade.
  destruct (si_hideTimeout (status st)) as [[|?]|], showSpinner; simpl;
    try reflexivity; destruct (String.eqb type "success"); reflexivity.
Qed.

Lemma updateStatus_text (message type : string) (showSpinner : bool) (st : page) :
  si_text (status (updateStatus message type showSpinner st)) = message.
Proof. status_frame st. Qed.

Lemma updateStatus_className (message type : string) (showSpinner : bool)
  (st : page) :
  si_className (status (updateStatus message type showSpinner st))
  = "status-indicator " +:+ type.
Proof. status_frame st. Qed.

Hint Rewrite updateStatus_timers updateStatus_next_timer updateStatus_text
  updateStatus_className : page.

(** Symbolic execution: with the page opened into its fields and the
    three shapes [hideTimeout] can have, every handler computes. *)
Ltac open_page st :=
  let si := fresh "si" in
  let ht := fresh "hideTimeout" in
  destruct st as [? ? ? ? ? ? si ? ? ? ? ? ? ? ? ? ? ? ?];
  destruct si as [? ? ? ? ? ht];
  destruct ht as [[|?]|].

Ltac exec st := open_page st; vm_compute; repeat split; reflexivity.

(** [updateStatus] with an error message, whatever the indicator held:
    it shows the message and touches neither controls, requests, attempt
    nor output. *)
Lemma updateStatus_error (message : string) (st : page) :
  let st' := updateStatus message "error" false st in
  si_text (status st') = message
  /\ si_className (status st') = "status-indicator error"
  /\ si_display (status st') = "block"
  /\ requests st' = requests st
  /\ pending st' = pending st
  /\ button_disabled st' = button_disabled st
  /\ input_editable st' = input_editable st
  /\ output_text st' = output_text st.
Proof. status_cases st; repeat split; reflexivity. Qed.

(** C5.  An input text that is empty or all white space is rejected in
    both modes: the click issues no request, starts no attempt, shows the
    validation message as an error and leaves button and input area
    enabled. *)
Theorem blank_input_is_rejected (st : page) :
  JsString.only_whitespace (innerText st) ->
  button_disabled st = false ->
  input_editable st = true ->
  handleRegularTranslation st = updateStatus msg_empty_input "error" false st
  /\ handleStreamTranslation st = updateStatus msg_empty_input "error" false st
  /\ exists st', step ClickTranslate st = Some st'
       /\ requests st' = requests st
       /\ pending st' = pending st
       /\ si_text (status st') = msg_empty_input
       /\ si_className (status st') = "status-indicator error"
       /\ si_display (status st') = "block"
       /\ button_disabled st' = false
       /\ input_editable st' = true.
Proof.
  intros Hblank Hbutton Heditable.
  apply JsStringFacts.trim_only_whitespace in Hblank.
  assert (Hreg : handleRegularTranslation st
                 = updateStatus msg_empty_input "error" false st)
    by (unfold handleRegularTranslation; now rewrite Hblank).
  assert (Hstr : handleStreamTranslation st
                 = updateStatus msg_empty_input "error" false st)
    by (unfold handleStreamTranslation; now rewrite Hblank).
  split; [exact Hreg|]. split; [exact Hstr|].
  exists (updateStatus msg_empty_input "error" false st).
  destruct (updateStatus_error msg_empty_input st)
    as (Htext & Hclass & Hdisplay & Hreq & Hpending & Hb & He & _).
  split.
  - unfold step, on_click. rewrite Hbutton.
    destruct (streaming_checked (form st)); now rewrite ?Hreg, ?Hstr.
  - rewrite Hb, He. repeat split; assumption.
Qed.


(** *** Streaming: the output is the concatenation of the fragments *)

Lemma fragments_take (k : nat) (buffered : list byte) (values : list (list byte)) :
  fragments buffered (take k values) = take k (fragments buffered values).
Proof.
  revert k buffered. induction values as [|value rest IH]; intros [|k] buffered;
    try reflexivity.
  simpl. destruct (decode_stream buffered value) as [buffered' chunk].
  simpl. now rewrite IH.
Qed.

(** What a valid click leaves behind in streaming mode: the attempt waits
    for [fetch], the output area is empty. *)
Lemma stream_start_spec (st : page) :
  let st1 := stream_start st in
  pending st1 = Some (Streaming {| s_controller := newController st;
                                   s_phase := SFetch |})
  /\ output_text st1 = ""
  /\ requests st1 = (requests st
       ++ [PostTranslate true (innerText st) (model (form st))
             (language (form st)) (notification_checked (form st))])%list
  /\ unload_handlers st1 = {[newController st]} ∪ unload_handlers st
  /\ button_disabled st1 = true
  /\ input_editable st1 = false
  /\ timers st1 = hide_cancelled st
  /\ next_timer st1 = next_timer st
  /\ localStorage st1 = localStorage st.
Proof. exec st. Qed.

Lemma stream_dispatch (st : page) :
  button_disabled st = false ->
  streaming_checked (form st) = true ->
  JsString.truthy (JsString.trim (innerText st)) = true ->
  step ClickTranslate st = Some (stream_start st).
Proof.
  intros Hbutton Hmode Htext.
  unfold step, on_click, handleStreamTranslation.
  now rewrite Hbutton, Hmode, Htext.
Qed.

(** Reading the values of a response one after the other appends their
    fragments, in order, to what the output area holds. *)
Lemma run_chunks (values : list (list byte)) :
  forall (st : page) (controller : nat) (buffered : list byte),
    pending st = Some (Streaming {| s_controller := controller;
                                    s_phase := SReading buffered |}) ->
    exists st' buffered',
      run (map Chunk values) st = Some st'
      /\ output_text st'
         = output_text st +:+ JsString.concat (fragments buffered values)
      /\ pending st' = Some (Streaming {| s_controller := controller;
                                          s_phase := SReading buffered' |}).
Proof.
  induction values as [|value rest IH]; intros st controller buffered Hpending.
  - exists st, buffered. simpl. now rewrite JsStringFacts.app_nil_r.
  - simpl. rewrite Hpending. simpl. unfold stream_on_chunk.
    destruct (decode_stream buffered value) as [buffered1 chunk] eqn:Hdecode.
    simpl.
    edestruct (IH (set_pending (Some (Streaming
                     {| s_controller := controller;
                        s_phase := SReading buffered1 |}))
                     (set_output_text (output_text st +:+ chunk) st))
                  controller buffered1 eq_refl)
      as (st' & buffered' & Hrun & Hout & Hpending').
    exists st', buffered'. split; [exact Hrun|]. split; [|exact Hpending'].
    rewrite Hout. simpl. apply JsStringFacts.app_assoc.
Qed.

(** *** Which handler an event runs *)

Lemma run_cons (e : event) (events : list event) (st : page) :
  run (e :: events) st = step e st ≫= run events.
Proof. reflexivity. Qed.

Lemma bind_Some {A B} (x : A) (f : A -> option B) : Some x ≫= f = f x.
Proof. reflexivity. Qed.

Lemma step_response_regular (st : page) (r : regular_attempt) (status : Z) :
  pending st = Some (Regular r) -> r_response r = None ->
  step (Response status) st = Some (regular_on_response r status st).
Proof. intros Hp Hr. unfold step. now rewrite Hp, Hr. Qed.

Lemma step_body_regular (st : page) (r : regular_attempt) (status : Z)
  (text : string) :
  pending st = Some (Regular r) -> r_response r = Some status ->
  step (Body text) st = Some (regular_on_body r status text st).
Proof. intros Hp Hr. unfold step. now rewrite Hp, Hr. Qed.

Lemma step_error_regular (st : page) (r : regular_attempt) (e : Js.error) :
  pending st = Some (Regular r) ->
  step (NetworkError e) st = Some (regular_rejected r e st).
Proof. intros Hp. unfold step. now rewrite Hp. Qed.

Lemma step_timer (st : page) (id : nat) (t : timer) :
  timers st !! id = Some t ->
  step (TimerFires id) st
  = Some (run_callback id (t_callback t)
            (if t_repeat t then st else clearTimer id st)).
Proof. intros Ht. unfold step. now rewrite Ht. Qed.

Lemma step_response_stream (st : page) (s : stream_attempt) (status : Z) :
  pending st = Some (Streaming s) -> s_phase s = SFetch ->
  step (Response status) st = Some (stream_on_response s status st).
Proof. intros Hp Hs. unfold step. now rewrite Hp, Hs. Qed.

Lemma step_body_stream (st : page) (s : stream_attempt) (text : string) :
  pending st = Some (Streaming s) -> s_phase s = SErrorBody ->
  step (Body text) st = Some (stream_on_error_body s text st).
Proof. intros Hp Hs. unfold step. now rewrite Hp, Hs. Qed.

Lemma step_chunk (st : page) (s : stream_attempt) (buffered value : list byte) :
  pending st = Some (Streaming s) -> s_phase s = SReading buffered ->
  step (Chunk value) st = Some (stream_on_chunk s buffered value st).
Proof. intros Hp Hs. unfold step. now rewrite Hp, Hs. Qed.

Lemma step_end_of_stream (st : page) (s : stream_attempt) (buffered : list byte) :
  pending st = Some (Streaming s) -> s_phase s = SReading buffered ->
  step EndOfStream st = Some (stream_on_done s st).
Proof. intros Hp Hs. unfold step. now rewrite Hp, Hs. Qed.

Lemma step_error_stream (st : page) (s : stream_attempt) (e : Js.error) :
  pending st = Some (Streaming s) ->
  step (NetworkError e) st = Some (stream_rejected s e st).
Proof. intros Hp. unfold step. now rewrite Hp. Qed.

(** The response only moves the attempt on to its next [await]. *)
Lemma stream_on_response_spec (s : stream_attempt) (status : Z) (st : page) :
  let st' := stream_on_response s status st in
  pending st'
  = Some (Streaming {| s_controller := s_controller s;
                       s_phase := if response_ok status then SReading []
                                  else SErrorBody |})
  /\ output_text st' = output_text st.
Proof. split; reflexivity. Qed.

(** The end of the stream reports success and runs the [finally] block;
    the output stays as the chunks left it. *)
Lemma stream_on_done_spec (s : stream_attempt) (st : page) :
  let st' := stream_on_done s st in
  output_text st' = output_text st
  /\ pending st' = None
  /\ button_disabled st' = false
  /\ input_editable st' = true
  /\ unload_handlers st' = unload_handlers st ∖ {[s_controller s]}
  /\ si_text (status st') = "스트리밍 완료"
  /\ timers st' = <[next_timer st := fade_timer]> (hide_cancelled st)
  /\ next_timer st' = S (next_timer st).
Proof. exec st. Qed.

(** Events one after the other: the last one steps from where the others
    lead. *)
Lemma run_snoc (events : list event) (st : page) (e : event) :
  run (events ++ [e])%list st = run events st ≫= step e.
Proof.
  revert st. induction events as [|e0 events IH]; intros st; cbn.
  - now destruct (step e st).
  - destruct (step e0 st); cbn; [apply IH | reflexivity].
Qed.

Lemma run_app (events1 events2 : list event) (st : page) :
  run (events1 ++ events2)%list st = run events1 st ≫= run events2.
Proof.
  revert st. induction events1 as [|e0 events1 IH]; intros st; cbn.
  - reflexivity.
  - destruct (step e0 st); cbn; [apply IH | reflexivity].
Qed.

(** The read loop, from the state in which the first [reader.read()] is
    awaited. *)
Lemma reading_outputs (st : page) (controller : nat) (values : list (list byte)) :
  pending st = Some (Streaming {| s_controller := controller;
                                  s_phase := SReading [] |}) ->
  output_text st = "" ->
  let texts := fragments [] values in
  (forall k, exists st_k,
      run (map Chunk (take k values)) st = Some st_k
      /\ output_text st_k = JsString.concat (take k texts)
      /\ forall value text,
           values !! k = Some value -> texts !! k = Some text ->
           exists st', step (Chunk value) st_k = Some st'
                       /\ output_text st' = output_text st_k +:+ text)
  /\ exists st_end,
       run (map Chunk values ++ [EndOfStream])%list st = Some st_end
       /\ output_text st_end = JsString.concat texts.
Proof.
  intros Hpending Hout texts.
  assert (Hafter : forall k, exists st_k buffered,
            run (map Chunk (take k values)) st = Some st_k
            /\ output_text st_k = JsString.concat (take k texts)
            /\ pending st_k
               = Some (Streaming {| s_controller := controller;
                                    s_phase := SReading buffered |})).
  { intros k.
    destruct (run_chunks (take k values) st _ _ Hpending)
      as (st_k & buffered & Hrun & Hout_k & Hpending_k).
    exists st_k, buffered. split; [exact Hrun|]. split; [|exact Hpending_k].
    rewrite Hout_k, Hout. unfold texts. now rewrite fragments_take. }
  split.
  - intros k. destruct (Hafter k) as (st_k & buffered & Hrun & Hout_k & _).
    exists st_k. split; [exact Hrun|]. split; [exact Hout_k|].
    intros value text Hvalue Htext.
    destruct (Hafter (S k)) as (st' & buffered' & HrunS & HoutS & _).
    rewrite (take_S_r _ _ _ Hvalue), map_app in HrunS.
    change (map Chunk [value]) with [Chunk value] in HrunS.
    rewrite run_snoc, Hrun in HrunS.
    exists st'. split; [exact HrunS|].
    rewrite HoutS, Hout_k, (take_S_r _ _ _ Htext), JsStringFacts.concat_app.
    f_equal. apply JsStringFacts.app_nil_r.
  - destruct (run_chunks values st _ _ Hpending)
      as (st_n & buffered & Hrun & Hout_n & Hpending_n).
    exists (stream_on_done {| s_controller := controller;
                              s_phase := SReading buffered |} st_n).
    split.
    + rewrite run_snoc, Hrun. unfold mbind, option_bind, step.
      now rewrite Hpending_n.
    + destruct (stream_on_done_spec
                  {| s_controller := controller; s_phase := SReading buffered |}
                  st_n) as (Hdone & _).
      now rewrite Hdone, Hout_n, Hout.
Qed.

(** A valid click and an OK response lead to the read loop with the output
    area empty. *)
Lemma stream_head (st : page) (status : Z) :
  button_disabled st = false ->
  streaming_checked (form st) = true ->
  JsString.truthy (JsString.trim (innerText st)) = true ->
  response_ok status = true ->
  exists st2,
    (forall events,
        run (ClickTranslate :: Response status :: events) st = run events st2)
    /\ pending st2 = Some (Streaming {| s_controller := newController st;
                                        s_phase := SReading [] |})
    /\ output_text st2 = "".
Proof.
  intros Hbutton Hmode Htext Hok.
  destruct (stream_start_spec st) as (Hpending1 & Hout1 & _).
  destruct (stream_on_response_spec
              {| s_controller := newController st; s_phase := SFetch |}
              status (stream_start st)) as (Hpending2 & Hout2).
  rewrite Hok in Hpending2. rewrite Hout1 in Hout2.
  eexists. split; [|split; [exact Hpending2 | exact Hout2]].
  intros events.
  rewrite run_cons, (stream_dispatch st Hbutton Hmode Htext), bind_Some, run_cons.
  rewrite (step_response_stream _ _ status Hpending1 eq_refl).
  apply bind_Some.
Qed.

(** C1.  Streaming mode.  From a valid click, once the response has
    arrived, the output after the first [k] values read is the
    concatenation of their [k] text fragments, in arrival order; each value
    read appends its fragment in that very step; outputs grow by suffixes
    only; and when the stream ends the output is the concatenation of all
    fragments. *)
Theorem stream_output_is_concatenation (st : page) (status : Z)
  (values : list (list byte)) :
  button_disabled st = false ->
  streaming_checked (form st) = true ->
  JsString.truthy (JsString.trim (innerText st)) = true ->
  response_ok status = true ->
  let received k := ClickTranslate :: Response status :: map Chunk (take k values) in
  let output_after k := output_text <$> run (received k) st in
  let texts := fragments [] values in
  (forall k, output_after k = Some (JsString.concat (take k texts)))
  /\ (forall k st_k value text,
        run (received k) st = Some st_k ->
        values !! k = Some value -> texts !! k = Some text ->
        exists st', step (Chunk value) st_k = Some st'
                    /\ output_text st' = output_text st_k +:+ text)
  /\ (forall j k, j <= k ->
        exists out_j out_k rest,
          output_after j = Some out_j /\ output_after k = Some out_k
          /\ out_k = out_j +:+ rest)
  /\ output_text
       <$> run (ClickTranslate :: Response status
                :: (map Chunk values ++ [EndOfStream]))%list st
     = Some (JsString.concat texts).
Proof.
  intros Hbutton Hmode Htext Hok received output_after texts.
  destruct (stream_head st status Hbutton Hmode Htext Hok)
    as (st2 & Hhead & Hpending2 & Hout2).
  destruct (reading_outputs st2 _ values Hpending2 Hout2) as (Hread & Hend).
  fold texts in Hread, Hend.
  assert (Houtput : forall k,
            output_after k = Some (JsString.concat (take k texts))).
  { intros k. destruct (Hread k) as (st_k & Hrun & Hout_k & _).
    unfold output_after, received. rewrite Hhead, Hrun.
    unfold fmap, option_fmap, option_map. now rewrite Hout_k. }
  split; [exact Houtput|]. split; [|split].
  - intros k st_k value text Hrun Hvalue Htextk.
    destruct (Hread k) as (st_k' & Hrun' & _ & Hstep).
    unfold received in Hrun. rewrite Hhead, Hrun' in Hrun.
    injection Hrun as <-. now apply Hstep.
  - intros j k Hjk.
    exists (JsString.concat (take j texts)), (JsString.concat (take k texts)),
      (JsString.concat (drop j (take k texts))).
    split; [apply Houtput|]. split; [apply Houtput|].
    rewrite <- JsStringFacts.concat_app. f_equal.
    rewrite <- (take_drop j (take k texts)) at 1.
    f_equal. rewrite take_take. f_equal. lia.
  - destruct Hend as (st_end & Hrun & Hout_end).
    rewrite Hhead, Hrun. unfold fmap, option_fmap, option_map.
    now rewrite Hout_end.
Qed.

(** *** Single-shot mode *)

Lemma ready_regular_spec (st : page) :
  ready_regular st = true ->
  button_disabled st = false
  /\ streaming_checked (form st) = false
  /\ JsString.truthy (JsString.trim (innerText st)) = true
  /\ model_unusable (model (form st)) = false.
Proof.
  unfold ready_regular. rewrite !andb_true_iff, !negb_true_iff. tauto.
Qed.

(** A click on a ready page starts an attempt. *)
Lemma regular_dispatch (st : page) :
  ready_regular st = true -> step ClickTranslate st = Some (regular_start st).
Proof.
  intros Hready. destruct (ready_regular_spec st Hready) as (Hb & Hs & Ht & Hm).
  unfold step, on_click, handleRegularTranslation. now rewrite Hb, Hs, Ht, Hm.
Qed.

(** The start sends the request, arms the 180 s timeout and the ticker
    under the next two timer ids, and disables the controls. *)
Lemma regular_start_spec (st : page) :
  let st1 := regular_start st in
  pending st1 = Some (Regular (regular_started st))
  /\ timers st1
     = <[S (next_timer st) := ticker 0]>
         (<[next_timer st := watchdog_timer (newController st)]> (hide_cancelled st))
  /\ next_timer st1 = S (S (next_timer st))
  /\ requests st1
     = (requests st
        ++ [PostTranslate false (innerText st) (model (form st))
              (language (form st)) (notification_checked (form st))])%list
  /\ button_disabled st1 = true
  /\ input_editable st1 = false
  /\ output_text st1 = output_text st
  /\ unload_handlers st1 = unload_handlers st
  /\ aborted st1 = aborted st
  /\ localStorage st1 = localStorage st
  /\ console st1 = console st.
Proof. exec st. Qed.

(** A rejection: [catch] renders the message it chooses and logs the
    error, [finally] clears both timers of the attempt and enables the
    controls; the one timer added is the fade-out of the final status. *)
Lemma regular_rejected_spec (r : regular_attempt) (e : Js.error) (st : page) :
  let st' := regular_rejected r e st in
  output_text st' = userFriendlyMessage e
  /\ pending st' = None
  /\ button_disabled st' = false
  /\ input_editable st' = true
  /\ si_text (status st') = "준비 완료"
  /\ console st' = (console st ++ ["번역 오류: " +:+ Js.message e])%list
  /\ localStorage st' = localStorage st
  /\ requests st' = requests st
  /\ aborted st' = aborted st
  /\ unload_handlers st' = unload_handlers st
  /\ next_timer st' = S (next_timer st)
  /\ timers st'
     = <[next_timer st := fade_timer]>
         (delete (r_timeoutId r)
            (delete (r_intervalId r) (hide_cancelled (clearTimer (r_intervalId r) st)))).
Proof. exec st. Qed.

(** Success: the translation is rendered, the provider and model of the
    attempt are stored as last used, both timers of the attempt are
    cleared and the controls enabled; the completion display and the
    fade-out of the final status stay armed. *)
Lemma regular_render_spec (r : regular_attempt) (translated_text : option Js.json)
  (st : page) :
  let st' := regular_render r translated_text st in
  output_text st' = Js.asTextContent translated_text
  /\ pending st' = None
  /\ button_disabled st' = false
  /\ input_editable st' = true
  /\ requests st' = requests st
  /\ aborted st' = aborted st
  /\ unload_handlers st' = unload_handlers st
  /\ console st' = console st
  /\ next_timer st' = S (S (next_timer st)).
Proof.
  unfold regular_render.
  generalize "lastUsedProvider", "lastUsedModel", (Js.asTextContent translated_text).
  intros k1 k2 text. exec st.
Qed.

Lemma regular_render_storage (r : regular_attempt)
  (translated_text : option Js.json) (st : page) :
  localStorage (regular_render r translated_text st)
  = <["lastUsedModel" := r_model r]>
      (<["lastUsedProvider" := r_provider r]> (localStorage st)).
Proof.
  unfold regular_render.
  generalize "lastUsedProvider", "lastUsedModel", (Js.asTextContent translated_text).
  intros k1 k2 text. exec st.
Qed.

Lemma regular_render_timers (r : regular_attempt)
  (translated_text : option Js.json) (st : page) :
  timers (regular_render r translated_text st)
  = <[S (next_timer st) := fade_timer]>
      (hide_cancelled
         (set_timers
            (delete (r_timeoutId r)
               (delete (r_intervalId r)
                  (<[next_timer st := done_timer (r_inputText r)]> (timers st))))
            st)).
Proof.
  unfold regular_render.
  generalize "lastUsedProvider", "lastUsedModel", (Js.asTextContent translated_text).
  intros k1 k2 text. exec st.
Qed.

(** The first [.then]: the timeout is cleared, the attempt goes on to read
    the body. *)
Lemma regular_on_response_spec (r : regular_attempt) (status : Z) (st : page) :
  let st' := regular_on_response r status st in
  pending st'
  = Some (Regular {| r_controller := r_controller r; r_inputText := r_inputText r;
                     r_provider := r_provider r; r_model := r_model r;
                     r_timeoutId := r_timeoutId r; r_intervalId := r_intervalId r;
                     r_response := Some status |})
  /\ timers st' = delete (r_timeoutId r) (timers st)
  /\ next_timer st' = next_timer st
  /\ button_disabled st' = button_disabled st
  /\ input_editable st' = input_editable st
  /\ output_text st' = output_text st
  /\ requests st' = requests st
  /\ aborted st' = aborted st
  /\ unload_handlers st' = unload_handlers st
  /\ localStorage st' = localStorage st
  /\ console st' = console st
  /\ UI.status st' = UI.status st.
Proof. exec st. Qed.

(** The body of a non-OK response that parses: the error thrown carries the
    status class and the detail, and rejects the chain. *)
Lemma regular_on_body_http_error (r : regular_attempt) (status : Z)
  (text : string) (v : Js.json) (detail : option Js.json) (st : page) :
  response_ok status = false ->
  JSON_parse text = inl v ->
  Js.getField (type_error_message "err.detail") "detail" v = Js.Normal detail ->
  regular_on_body r status text st
  = regular_rejected r
      (http_error status (Js.orElse detail "알 수 없는 서버 오류")) st.
Proof.
  intros Hok Hparse Hdetail. unfold regular_on_body.
  now rewrite Hparse, Hok, Hdetail.
Qed.

(** What [catch] renders for a 400 response: the thrown message. *)
Lemma rendered_input_error (errorMessage : string) :
  userFriendlyMessage (http_error 400 errorMessage)
  = tag_input_error +:+ ": " +:+ errorMessage.
Proof.
  unfold userFriendlyMessage, http_error. cbn [Z.eqb Pos.eqb Js.Error Js.name Js.message].
  change (String.eqb "Error" "AbortError") with false.
  change (String.eqb "Error" "TypeError") with false.
  cbn [andb]. now rewrite JsStringFacts.includes_prefix.
Qed.

(** *** Where a tag can be found in a thrown message *)

Lemma includes_cons_ne (x c : ascii) (s needle : string) :
  x <> c ->
  JsString.includes (String x s) (String c needle)
  = JsString.includes s (String c needle).
Proof.
  intros Hne.
  change (String.prefix (String c needle) (String x s)
          || JsString.includes s (String c needle)
          = JsString.includes s (String c needle)).
  cbn [String.prefix]. destruct (ascii_dec c x); [congruence | reflexivity].
Qed.

(** A needle is not found in a text that lacks its first character. *)
Lemma includes_skip (a b needle : string) (c : ascii) :
  JsString.includes a (String c "") = false ->
  JsString.includes (a +:+ b) (String c needle)
  = JsString.includes b (String c needle).
Proof.
  induction a as [|x a IH]; [reflexivity|].
  rewrite JsStringFacts.includes_char. intros [Hx Ha]%orb_false_elim.
  rewrite JsStringFacts.append_cons, includes_cons_ne; [now apply IH|].
  now apply Ascii.eqb_neq.
Qed.

(** Decimal notation is made of digits and a sign. *)
Lemma pretty_N_go_plain (c : ascii) (x : N) (s : string) :
  (128 <= N_of_ascii c)%N ->
  JsString.includes s (String c "") = false ->
  JsString.includes (pretty_N_go x s) (String c "") = false.
Proof.
  intros Hc. revert s. induction (N.lt_wf_0 x) as [x _ IH]. intros s Hs.
  destruct (decide (x = 0)%N) as [->|Hx]; [now rewrite pretty_N_go_0|].
  rewrite pretty_N_go_step by lia.
  apply IH; [apply N.div_lt; lia|].
  rewrite JsStringFacts.includes_char, Hs, orb_false_r.
  apply Ascii.eqb_neq. intros <-. revert Hc.
  unfold pretty_N_char. repeat case_match; vm_compute; congruence.
Qed.

Lemma pretty_Z_plain (c : ascii) (z : Z) :
  (128 <= N_of_ascii c)%N ->
  JsString.includes (pretty z) (String c "") = false.
Proof.
  intros Hc.
  assert (Hpos : forall p, JsString.includes (pretty (N.pos p)) (String c "") = false).
  { intros p. unfold pretty, pretty_N. case_match; [lia|].
    now apply pretty_N_go_plain. }
  destruct z as [|p|p].
  - change (pretty 0%Z) with "0".
    rewrite JsStringFacts.includes_char, orb_false_r.
    apply Ascii.eqb_neq. intros <-. revert Hc. vm_compute. congruence.
  - exact (Hpos p).
  - change (pretty (Z.neg p)) with ("-" +:+ pretty (N.pos p)).
    rewrite JsStringFacts.append_cons, JsStringFacts.append_nil,
      JsStringFacts.includes_char, Hpos, orb_false_r.
    apply Ascii.eqb_neq. intros <-. revert Hc. vm_compute. congruence.
Qed.

(** The prefix of a server error holds no input-error tag of its own. *)
Lemma server_prefix_is_clean (errorMessage : string) :
  JsString.includes (tag_server_error +:+ ": " +:+ errorMessage) tag_input_error
  = JsString.includes errorMessage tag_input_error.
Proof.
  unfold tag_server_error, tag_input_error.
  cbn [append].
  repeat (rewrite includes_cons_ne by discriminate). 
  reflexivity.
Qed.

(** Neither does the prefix of the error of another status, for a tag that
    starts with a character outside ASCII, as both tags do. *)
Lemma http_prefix_is_clean (status : Z) (errorMessage needle : string) :
  JsString.includes ("HTTP " +:+ pretty status +:+ ": " +:+ errorMessage)
    (String "236" needle)
  = JsString.includes errorMessage (String "236" needle).
Proof.
  rewrite (includes_skip "HTTP ") by reflexivity.
  rewrite (includes_skip (pretty status)) by (apply pretty_Z_plain; vm_compute; discriminate).
  now rewrite (includes_skip ": ") by reflexivity.
Qed.

(** What [catch] renders for a 500 response, whatever its detail. *)
Lemma rendered_server_error_cases (errorMessage : string) :
  userFriendlyMessage (http_error 500 errorMessage)
  = if JsString.includes errorMessage tag_input_error
    then tag_server_error +:+ ": " +:+ errorMessage
    else msg_server.
Proof.
  unfold userFriendlyMessage, http_error. cbn [Z.eqb Pos.eqb Js.Error Js.name Js.message].
  change (String.eqb "Error" "AbortError") with false.
  change (String.eqb "Error" "TypeError") with false.
  cbn [andb]. rewrite server_prefix_is_clean.
  destruct (JsString.includes errorMessage tag_input_error); [reflexivity|].
  now rewrite JsStringFacts.includes_prefix.
Qed.

(** And for a response of any other status that is not OK. *)
Lemma rendered_other_error (status : Z) (errorMessage : string) :
  status <> 400%Z -> status <> 500%Z ->
  userFriendlyMessage (http_error status errorMessage)
  = if JsString.includes errorMessage tag_input_error
    then "HTTP " +:+ pretty status +:+ ": " +:+ errorMessage
    else if JsString.includes errorMessage tag_server_error then msg_server
    else msg_unknown.
Proof.
  intros H400 H500. unfold userFriendlyMessage, http_error.
  destruct (Z.eqb_spec status 400); [contradiction|].
  destruct (Z.eqb_spec status 500); [contradiction|].
  cbn [Js.Error Js.name Js.message].
  change (String.eqb "Error" "AbortError") with false.
  change (String.eqb "Error" "TypeError") with false.
  cbn [andb]. unfold tag_input_error, tag_server_error.
  now rewrite !http_prefix_is_clean.
Qed.

(** C2 (as amended).  Single-shot mode, a non-OK response whose body parses
    to a value other than [null].  The error thrown, which is what the
    console shows, is classified by status and carries the backend's
    detail, or the fallback text when there is none: "입력 오류: ..." for 400,
    "서버 내부 오류: ..." for 500, "HTTP <status>: ..." otherwise.  What the page
    renders is the message [catch] chooses for it, by the tags it finds in
    the thrown message, the input-error tag first.  For 400 that is the
    thrown message, detail included.  For 500 it is the fixed backend-error
    message, without the detail, unless the detail itself holds the
    input-error tag: then it is the thrown message.  For any other status it
    is the fixed unknown-error message, unless the detail holds the
    input-error tag (the thrown message is rendered) or else the
    server-error tag (the fixed backend-error message is rendered). *)
Theorem http_error_is_classified (st : page) (status : Z) (text : string)
  (v : Js.json) (detail : option Js.json) :
  ready_regular st = true ->
  response_ok status = false ->
  JSON_parse text = inl v ->
  Js.getField (type_error_message "err.detail") "detail" v = Js.Normal detail ->
  let errorMessage := Js.orElse detail "알 수 없는 서버 오류" in
  let thrown := http_error status errorMessage in
  exists st',
    run [ClickTranslate; Response status; Body text] st = Some st'
    /\ console st' = (console st ++ ["번역 오류: " +:+ Js.message thrown])%list
    /\ output_text st' = userFriendlyMessage thrown
    /\ pending st' = None
    /\ (status = 400%Z ->
          Js.message thrown = tag_input_error +:+ ": " +:+ errorMessage
          /\ output_text st' = tag_input_error +:+ ": " +:+ errorMessage)
    /\ (status = 500%Z ->
          Js.message thrown = tag_server_error +:+ ": " +:+ errorMessage
          /\ output_text st'
             = if JsString.includes errorMessage tag_input_error
               then tag_server_error +:+ ": " +:+ errorMessage
               else msg_server)
    /\ (status <> 400%Z -> status <> 500%Z ->
          Js.message thrown = "HTTP " +:+ pretty status +:+ ": " +:+ errorMessage
          /\ output_text st'
             = if JsString.includes errorMessage tag_input_error
               then "HTTP " +:+ pretty status +:+ ": " +:+ errorMessage
               else if JsString.includes errorMessage tag_server_error
                    then msg_server
                    else msg_unknown).
Proof.
  intros Hready Hok Hparse Hdetail errorMessage thrown.
  destruct (regular_start_spec st) as (Hp1 & _ & _ & _ & _ & _ & _ & _ & _ & _ & Hc1).
  destruct (regular_on_response_spec (regular_started st) status (regular_start st))
    as (Hp2 & _ & _ & _ & _ & _ & _ & _ & _ & _ & Hc2 & _).
  set (st2 := regular_on_response (regular_started st) status (regular_start st))
    in *.
  set (r2 := {| r_controller := r_controller (regular_started st);
                r_inputText := r_inputText (regular_started st);
                r_provider := r_provider (regular_started st);
                r_model := r_model (regular_started st);
                r_timeoutId := r_timeoutId (regular_started st);
                r_intervalId := r_intervalId (regular_started st);
                r_response := Some status |}) in *.
  destruct (regular_rejected_spec r2 thrown st2)
    as (Hout & Hp3 & _ & _ & _ & Hc3 & _).
  exists (regular_rejected r2 thrown st2).
  split; [|split; [|split; [exact Hout|split; [exact Hp3|]]]].
  - rewrite run_cons, (regular_dispatch st Hready), bind_Some, run_cons.
    rewrite (step_response_regular _ _ status Hp1 eq_refl), bind_Some, run_cons.
    fold st2. rewrite (step_body_regular st2 r2 status text Hp2 eq_refl), bind_Some.
    unfold run.
    now rewrite (regular_on_body_http_error r2 status text v detail st2 Hok
                   Hparse Hdetail).
  - now rewrite Hc3, Hc2, Hc1.
  - rewrite Hout. split; [|split].
    + intros ->. split; [reflexivity | apply rendered_input_error].
    + intros ->. split; [reflexivity | apply rendered_server_error_cases].
    + intros H400 H500. split; [|now apply rendered_other_error].
      unfold thrown, http_error.
      destruct (Z.eqb_spec status 400); [contradiction|].
      destruct (Z.eqb_spec status 500); [contradiction|]. reflexivity.
Qed.

(** *** Single-shot mode: the ticker and the timeout *)

(** A tick only moves the progress display and the ticker's own phase. *)
Lemma tick_spec (id p : nat) (st : page) :
  let st' := run_callback id (CbProgress p) st in
  timers st'
  = alter (fun t => {| t_delay := t_delay t; t_repeat := t_repeat t;
                       t_callback := CbProgress (next_phase p) |}) id (timers st)
  /\ pending st' = pending st
  /\ aborted st' = aborted st
  /\ next_timer st' = next_timer st
  /\ requests st' = requests st
  /\ output_text st' = output_text st
  /\ button_disabled st' = button_disabled st
  /\ input_editable st' = input_editable st
  /\ unload_handlers st' = unload_handlers st
  /\ localStorage st' = localStorage st
  /\ console st' = console st
  /\ status st' = status st.
Proof. unfold next_phase. exec st. Qed.

(** Any number of ticks leaves the attempt, the other timers and the
    controls as they were. *)
Lemma run_ticks (n : nat) :
  forall (st : page) (id p : nat),
    timers st !! id = Some (ticker p) ->
    exists st' p',
      run (replicate n (TimerFires id)) st = Some st'
      /\ timers st' !! id = Some (ticker p')
      /\ (forall id', id' <> id -> timers st' !! id' = timers st !! id')
      /\ pending st' = pending st
      /\ aborted st' = aborted st
      /\ next_timer st' = next_timer st
      /\ requests st' = requests st
      /\ output_text st' = output_text st
      /\ status st' = status st.
Proof.
  induction n as [|n IH]; intros st id p Hticker.
  - exists st, p. repeat split; auto.
  - destruct (tick_spec id p st)
      as (Ht & Hp & Ha & Hn & Hr & Ho & _ & _ & _ & _ & _ & Hs).
    set (st1 := run_callback id (CbProgress p) st) in *.
    assert (Hticker1 : timers st1 !! id = Some (ticker (next_phase p))).
    { rewrite Ht, lookup_alter_eq, Hticker. reflexivity. }
    destruct (IH st1 id (next_phase p) Hticker1)
      as (st' & p' & Hrun & Hticker' & Hother & Hp' & Ha' & Hn' & Hr' & Ho' & Hs').
    exists st', p'. split.
    { cbn [replicate]. rewrite run_cons, (step_timer st id _ Hticker), bind_Some.
      exact Hrun. }
    split; [exact Hticker'|]. split.
    { intros id' Hne. rewrite (Hother id' Hne), Ht. now apply lookup_alter_ne. }
    repeat split; congruence.
Qed.

(** The timeout callback: the controller is aborted, the controls are
    enabled again, the attempt is left for its [catch] to end. *)
Lemma watchdog_spec (controller : nat) (st : page) :
  let st' := watchdog controller st in
  pending st' = pending st
  /\ aborted st' = {[controller]} ∪ aborted st
  /\ si_text (status st') = msg_watchdog
  /\ button_disabled st' = false
  /\ input_editable st' = true
  /\ output_text st' = output_text st
  /\ timers st' = hide_cancelled st
  /\ next_timer st' = next_timer st
  /\ requests st' = requests st
  /\ unload_handlers st' = unload_handlers st
  /\ localStorage st' = localStorage st
  /\ console st' = console st.
Proof. exec st. Qed.

(** An aborted controller ends its single-shot attempt with an
    [AbortError]. *)
Lemma deliver_abort_regular (r : regular_attempt) (st : page) :
  pending st = Some (Regular r) ->
  r_controller r ∈ aborted st ->
  deliver_abort st = regular_rejected r (Js.AbortError abort_message) st.
Proof.
  intros Hp Ha. unfold deliver_abort. rewrite Hp.
  now rewrite (bool_decide_eq_true_2 _ Ha).
Qed.

Lemma deliver_abort_stream (s : stream_attempt) (st : page) :
  pending st = Some (Streaming s) ->
  s_controller s ∈ aborted st ->
  deliver_abort st = stream_rejected s (Js.AbortError abort_message) st.
Proof.
  intros Hp Ha. unfold deliver_abort. rewrite Hp.
  now rewrite (bool_decide_eq_true_2 _ Ha).
Qed.

(** C4.  Single-shot mode.  A click on a ready page sends the request and
    arms a 180 000 ms timeout.  As long as the request is unanswered, the
    ticker may tick any number of times and the timeout stays armed.  When
    it fires, the controller of the request is aborted, the output area
    shows the timeout message, which differs from the messages for
    transport errors, the button and the input area are enabled again, and
    the attempt is over with both of its timers gone. *)
Theorem timeout_aborts_and_reenables (st : page) (n : nat) :
  ready_regular st = true ->
  let timeoutId := next_timer st in
  let intervalId := S (next_timer st) in
  let controller := newController st in
  exists st1 st2 st3,
    step ClickTranslate st = Some st1
    /\ requests st1
       = (requests st
          ++ [PostTranslate false (innerText st) (model (form st))
                (language (form st)) (notification_checked (form st))])%list
    /\ timers st1 !! timeoutId = Some (watchdog_timer controller)
    /\ run (replicate n (TimerFires intervalId)) st1 = Some st2
    /\ timers st2 !! timeoutId = Some (watchdog_timer controller)
    /\ pending st2 = Some (Regular (regular_started st))
    /\ step (TimerFires timeoutId) st2 = Some st3
    /\ controller ∈ aborted st3
    /\ output_text st3 = msg_timeout
    /\ msg_timeout <> msg_unreachable
    /\ msg_timeout <> msg_unknown
    /\ button_disabled st3 = false
    /\ input_editable st3 = true
    /\ pending st3 = None
    /\ timers st3 !! timeoutId = None
    /\ timers st3 !! intervalId = None.
Proof.
  intros Hready timeoutId intervalId controller.
  destruct (regular_start_spec st)
    as (Hp1 & Ht1 & Hn1 & Hr1 & _).
  set (st1 := regular_start st) in *.
  assert (Hticker : timers st1 !! intervalId = Some (ticker 0))
    by (rewrite Ht1; apply lookup_insert_eq).
  assert (Hwatch1 : timers st1 !! timeoutId = Some (watchdog_timer controller)).
  { rewrite Ht1, lookup_insert_ne by (unfold intervalId, timeoutId; lia).
    apply lookup_insert_eq. }
  destruct (run_ticks n st1 intervalId 0 Hticker)
    as (st2 & p & Hrun & _ & Hother & Hp2 & Ha2 & Hn2 & _).
  assert (Hwatch2 : timers st2 !! timeoutId = Some (watchdog_timer controller)).
  { rewrite Hother by (unfold intervalId, timeoutId; lia). exact Hwatch1. }
  set (st2' := clearTimer timeoutId st2).
  destruct (watchdog_spec controller st2')
    as (Hpw & Haw & _ & _ & _ & _ & _ & Hnw & _).
  set (stw := watchdog controller st2') in *.
  assert (Hpending_w : pending stw = Some (Regular (regular_started st)))
    by (rewrite Hpw; unfold st2'; cbn [clearTimer pending set_timers];
        now rewrite Hp2).
  assert (Haborted_w : controller ∈ aborted stw)
    by (rewrite Haw; apply elem_of_union_l; now apply elem_of_singleton).
  destruct (regular_rejected_spec (regular_started st)
              (Js.AbortError abort_message) stw)
    as (Hout & Hp3 & Hb3 & He3 & _ & _ & _ & _ & Ha3 & _ & _ & Ht3).
  exists st1, st2,
    (regular_rejected (regular_started st) (Js.AbortError abort_message) stw).
  split; [exact (regular_dispatch st Hready)|].
  split; [exact Hr1|]. split; [exact Hwatch1|]. split; [exact Hrun|].
  split; [exact Hwatch2|]. split; [now rewrite Hp2|]. split.
  { rewrite (step_timer st2 timeoutId _ Hwatch2).
    cbn [watchdog_timer t_repeat t_callback run_callback]. fold st2' stw.
    now rewrite (deliver_abort_regular _ stw Hpending_w Haborted_w). }
  split; [now rewrite Ha3|]. split; [exact Hout|].
  split; [discriminate|]. split; [discriminate|].
  split; [exact Hb3|]. split; [exact He3|]. split; [exact Hp3|].
  assert (Hnext : next_timer stw = S (S (next_timer st))).
  { rewrite Hnw. unfold st2'. cbn [clearTimer next_timer set_timers].
    now rewrite Hn2. }
  rewrite Ht3, Hnext. cbn [regular_started r_timeoutId r_intervalId].
  split.
  - rewrite lookup_insert_ne by (unfold timeoutId; lia). apply lookup_delete_eq.
  - rewrite lookup_insert_ne by (unfold intervalId; lia).
    rewrite lookup_delete_ne by (unfold intervalId; lia).
    apply lookup_delete_eq.
Qed.

(** *** Calm and quiet changes *)

Lemma calm_refl (st : page) : calm st st.
Proof. split; auto. Qed.

Lemma calm_trans (st1 st2 st3 : page) : calm st1 st2 -> calm st2 st3 -> calm st1 st3.
Proof.
  intros [Hp1 Hu1 Hn1 Ht1] [Hp2 Hu2 Hn2 Ht2]. split.
  - congruence.
  - congruence.
  - lia.
  - intros id t Hid. destruct (Ht2 id t Hid) as [Hold|[Hfresh Hdisplay]].
    + destruct (Ht1 id t Hold) as [Hold'|[Hfresh Hdisplay]]; [now left|right].
      split; [lia | exact Hdisplay].
    + right. split; [lia | exact Hdisplay].
Qed.

Lemma quiet_refl (st : page) : quiet st st.
Proof. split; [apply calm_refl | reflexivity..]. Qed.

Lemma quiet_trans (st1 st2 st3 : page) :
  quiet st1 st2 -> quiet st2 st3 -> quiet st1 st3.
Proof.
  intros [Hc1 Hb1 He1] [Hc2 Hb2 He2].
  split; [exact (calm_trans _ _ _ Hc1 Hc2) | congruence..].
Qed.

(** A change of fields that the attempt does not depend on. *)
Lemma quiet_same (st st' : page) :
  pending st' = pending st -> unload_handlers st' = unload_handlers st ->
  timers st' = timers st -> next_timer st' = next_timer st ->
  button_disabled st' = button_disabled st ->
  input_editable st' = input_editable st ->
  quiet st st'.
Proof.
  intros Hp Hu Ht Hn Hb He. split; [split|..]; auto.
  - lia.
  - intros id t Hid. left. now rewrite <- Ht.
Qed.

Lemma hide_cancelled_lookup (st : page) (id : nat) (t : timer) :
  hide_cancelled st !! id = Some t -> timers st !! id = Some t.
Proof.
  unfold hide_cancelled.
  destruct (si_hideTimeout (status st)) as [[|k]|]; try tauto.
  rewrite lookup_delete_Some. tauto.
Qed.

Lemma quiet_updateStatus (message type : string) (showSpinner : bool) (st : page) :
  quiet st (updateStatus message type showSpinner st).
Proof.
  split; [split|..].
  - apply updateStatus_pending.
  - apply updateStatus_unload_handlers.
  - rewrite updateStatus_next_timer. destruct (arms_fade type showSpinner); lia.
  - intros id t. rewrite updateStatus_timers, updateStatus_next_timer.
    destruct (arms_fade type showSpinner).
    + rewrite lookup_insert_Some. intros [[<- <-]|[_ Hid]].
      * right. split; [lia | reflexivity].
      * left. now apply hide_cancelled_lookup.
    + intros Hid. left. now apply hide_cancelled_lookup.
  - apply updateStatus_button_disabled.
  - apply updateStatus_input_editable.
Qed.

Lemma quiet_setTimeout_ (cb : callback) (delay : Z) (st : page) :
  display_timer {| t_delay := delay; t_repeat := false; t_callback := cb |} = true ->
  quiet st (setTimeout_ cb delay st).
Proof.
  intros Hdisplay. split; [split|..]; try reflexivity.
  - cbn. lia.
  - intros id t. cbn. rewrite lookup_insert_Some. intros [[<- <-]|[_ Hid]].
    + right. split; [lia | exact Hdisplay].
    + now left.
Qed.

(** The field updates and primitives that are quiet. *)
Lemma quiet_set_input_html (v : string) (st : page) : quiet st (set_input_html v st).
Proof. now apply quiet_same. Qed.

Lemma quiet_set_input_color (v : string) (st : page) : quiet st (set_input_color v st).
Proof. now apply quiet_same. Qed.

Lemma quiet_set_output_text (v : string) (st : page) : quiet st (set_output_text v st).
Proof. now apply quiet_same. Qed.

Lemma quiet_set_char_counter (v : string) (st : page) : quiet st (set_char_counter v st).
Proof. now apply quiet_same. Qed.

Lemma quiet_set_status (v : status_indicator) (st : page) : quiet st (set_status v st).
Proof. now apply quiet_same. Qed.

Lemma quiet_set_progress (v : progress_modal) (st : page) : quiet st (set_progress v st).
Proof. now apply quiet_same. Qed.

Lemma quiet_set_form (v : form_controls) (st : page) : quiet st (set_form v st).
Proof. now apply quiet_same. Qed.

Lemma quiet_set_waiting (v : gmap nat continuation) (st : page) : quiet st (set_waiting v st).
Proof. now apply quiet_same. Qed.

Lemma quiet_set_requests (v : list request) (st : page) : quiet st (set_requests v st).
Proof. now apply quiet_same. Qed.

Lemma quiet_set_aborted (v : gset nat) (st : page) : quiet st (set_aborted v st).
Proof. now apply quiet_same. Qed.

Lemma quiet_set_localStorage (v : gmap string string) (st : page) : quiet st (set_localStorage v st).
Proof. now apply quiet_same. Qed.

Lemma quiet_set_console (v : list string) (st : page) : quiet st (set_console v st).
Proof. now apply quiet_same. Qed.

Lemma quiet_set_video (v : video_params) (st : page) : quiet st (set_video v st).
Proof. now apply quiet_same. Qed.

Lemma quiet_console_log (line : string) (st : page) : quiet st (console_log line st).
Proof. now apply quiet_same. Qed.

Lemma quiet_set_model_select (options : list string) (value : string) (st : page) : quiet st (set_model_select options value st).
Proof. now apply quiet_same. Qed.

Lemma quiet_set_provider (v : string) (st : page) : quiet st (set_provider v st).
Proof. now apply quiet_same. Qed.

Lemma quiet_set_language (v : string) (st : page) : quiet st (set_language v st).
Proof. now apply quiet_same. Qed.

Lemma quiet_set_checkboxes (a b c : bool) (st : page) : quiet st (set_checkboxes a b c st).
Proof. now apply quiet_same. Qed.

Lemma quiet_setItem (k v : string) (st : page) : quiet st (setItem k v st).
Proof. now apply quiet_same. Qed.

Lemma quiet_fetch (r : request) (st : page) : quiet st (fetch r st).
Proof. now apply quiet_same. Qed.

Lemma quiet_fetch_await (k : continuation) (r : request) (st : page) : quiet st (fetch_await k r st).
Proof. now apply quiet_same. Qed.

Lemma quiet_abort (controller : nat) (st : page) : quiet st (abort controller st).
Proof. now apply quiet_same. Qed.

Lemma quiet_showProgress (message : string) (st : page) : quiet st (showProgress message st).
Proof. now apply quiet_same. Qed.

Lemma quiet_hideProgress (st : page) : quiet st (hideProgress st).
Proof. now apply quiet_same. Qed.

Lemma quiet_updateProgressBar (percentage : Z) (st : page) : quiet st (updateProgressBar percentage st).
Proof. now apply quiet_same. Qed.

Lemma quiet_updateCharCounter (st : page) : quiet st (updateCharCounter st).
Proof. now apply quiet_same. Qed.

Lemma quiet_status_hide (st : page) : quiet st (status_hide st).
Proof. now apply quiet_same. Qed.

Lemma quiet_status_fade (st : page) : quiet st (status_fade st).
Proof.
  unfold status_fade.
  eapply quiet_trans; [apply quiet_set_status | now apply quiet_setTimeout_].
Qed.

Lemma quiet_show_done (inputText : string) (st : page) :
  quiet st (show_done inputText st).
Proof.
  unfold show_done.
  eapply quiet_trans; [apply quiet_hideProgress | apply quiet_updateStatus].
Qed.

Create HintDb quiet.

#[local] Hint Resolve quiet_updateStatus quiet_status_fade quiet_show_done
  quiet_set_input_html quiet_set_input_color quiet_set_output_text quiet_set_char_counter quiet_set_status quiet_set_progress quiet_set_form quiet_set_waiting quiet_set_requests quiet_set_aborted quiet_set_localStorage quiet_set_console quiet_set_video quiet_console_log quiet_set_model_select quiet_set_provider quiet_set_language quiet_set_checkboxes quiet_setItem quiet_fetch quiet_fetch_await quiet_abort quiet_showProgress quiet_hideProgress quiet_updateProgressBar quiet_updateCharCounter quiet_status_hide : quiet.

(** A pipeline of quiet steps, read from the outside in. *)
Ltac quiet_steps :=
  repeat first
    [ apply quiet_refl
    | eapply quiet_trans; [| solve [auto 1 with quiet nocore]] ].

(** A handler that branches: every branch is a quiet pipeline. *)
Ltac quiet_cases := cbv zeta; repeat case_match; quiet_steps.

Lemma quiet_transcript_catch (e : Js.error) (st : page) :
  quiet st (transcript_catch e st).
Proof. unfold transcript_catch. quiet_cases. Qed.

Lemma quiet_transcript_settled (o : outcome) (st : page) :
  quiet st (transcript_settled o st).
Proof.
  unfold transcript_settled.
  repeat case_match; try apply quiet_transcript_catch; quiet_steps.
Qed.

Lemma quiet_fetchAndDisplayTranscript (id : string) (st : page) :
  quiet st (fetchAndDisplayTranscript id st).
Proof. unfold fetchAndDisplayTranscript. quiet_cases. Qed.

Lemma quiet_loadModelsForProvider (provider : string) (selected : option string)
  (st : page) :
  quiet st (loadModelsForProvider provider selected st).
Proof. unfold loadModelsForProvider. quiet_cases. Qed.

Lemma quiet_models_catch (e : Js.error) (st : page) : quiet st (models_catch e st).
Proof. unfold models_catch. quiet_steps. Qed.

Lemma quiet_models_settled (selected : option string) (o : outcome) (st : page) :
  quiet st (models_settled selected o st).
Proof.
  unfold models_settled.
  repeat case_match; try apply quiet_models_catch; quiet_steps.
Qed.

Lemma quiet_on_timestamp_change (checked : bool) (st : page) :
  quiet st (on_timestamp_change checked st).
Proof.
  unfold on_timestamp_change. cbv zeta. case_match.
  - eapply quiet_trans; [| apply quiet_fetchAndDisplayTranscript]. quiet_steps.
  - quiet_steps.
Qed.

Lemma quiet_on_streaming_change (checked : bool) (st : page) :
  quiet st (on_streaming_change checked st).
Proof. unfold on_streaming_change. quiet_steps. Qed.

Lemma quiet_on_provider_change (value : string) (st : page) :
  quiet st (on_provider_change value st).
Proof.
  unfold on_provider_change.
  eapply quiet_trans; [| apply quiet_loadModelsForProvider]. quiet_steps.
Qed.

Lemma quiet_on_focus (st : page) : quiet st (on_focus st).
Proof. unfold on_focus. quiet_cases. Qed.

Lemma quiet_on_blur (st : page) : quiet st (on_blur st).
Proof. unfold on_blur. quiet_cases. Qed.

(** *** The invariant through calm and quiet changes *)

Lemma display_not_watchdog (t : timer) (c : nat) :
  display_timer t = true -> t_callback t <> CbWatchdog c.
Proof. unfold display_timer. intros Hd Hc. now rewrite Hc in Hd. Qed.

Lemma resources_ok_calm (st st' : page) :
  resources_ok st -> calm st st' -> resources_ok st'.
Proof.
  intros [Hids Htimers Howned Hwatch Hunload Hsub] [Hp Hu Hn Ht]. split.
  - intros id t Hid. destruct (Ht id t Hid) as [Hold|[Hfresh _]]; [|lia].
    specialize (Hids id t Hold). lia.
  - intros id t Hid. rewrite Hp.
    destruct (Ht id t Hid) as [Hold|[_ Hdisplay]]; [eauto | now left].
  - intros id. rewrite Hp. intros Hown. specialize (Howned id Hown). lia.
  - intros id t c Hid Hc. rewrite Hp.
    destruct (Ht id t Hid) as [Hold|[_ Hdisplay]]; [eauto|].
    now destruct (display_not_watchdog t c Hdisplay).
  - now rewrite Hu, Hp.
  - now rewrite Hu, Hp.
Qed.

Lemma page_ok_quiet (st st' : page) : page_ok st -> quiet st st' -> page_ok st'.
Proof.
  intros [Hres Hidle Hbusy] [Hcalm Hb He]. split.
  - exact (resources_ok_calm _ _ Hres Hcalm).
  - rewrite (calm_pending _ _ Hcalm), Hb, He. exact Hidle.
  - intros a. rewrite (calm_pending _ _ Hcalm), Hb. apply Hbusy.
Qed.

(** *** How attempts end *)

(** After a rejection in single-shot mode, a pending timer is the new
    fade-out or an old timer other than the attempt's two. *)
Lemma regular_rejected_timers (r : regular_attempt) (e : Js.error) (st : page)
  (id : nat) (t : timer) :
  timers (regular_rejected r e st) !! id = Some t ->
  (id = next_timer st /\ t = fade_timer)
  \/ (timers st !! id = Some t /\ id <> r_timeoutId r /\ id <> r_intervalId r).
Proof.
  destruct (regular_rejected_spec r e st) as (_&_&_&_&_&_&_&_&_&_&_& ->).
  rewrite lookup_insert_Some. intros [[<- <-]|[_ Hid]]; [now left|right].
  rewrite !lookup_delete_Some in Hid. destruct Hid as (Ht & Hi & Hid).
  apply hide_cancelled_lookup in Hid.
  change (timers (clearTimer (r_intervalId r) st))
    with (delete (r_intervalId r) (timers st)) in Hid.
  rewrite lookup_delete_Some in Hid. destruct Hid as [_ Hid]. auto.
Qed.

(** After a success, it is the completion display, the new fade-out, or
    such an old timer. *)
Lemma regular_render_lookup (r : regular_attempt) (v : option Js.json) (st : page)
  (id : nat) (t : timer) :
  timers (regular_render r v st) !! id = Some t ->
  (next_timer st <= id < S (S (next_timer st)) /\ display_timer t = true)
  \/ (timers st !! id = Some t /\ id <> r_timeoutId r /\ id <> r_intervalId r).
Proof.
  rewrite regular_render_timers, lookup_insert_Some.
  intros [[<- <-]|[_ Hid]]; [left; split; [lia | reflexivity]|].
  apply hide_cancelled_lookup in Hid.
  match type of Hid with
  | timers (set_timers ?m _) !! _ = _ => change (m !! id = Some t) in Hid
  end.
  rewrite !lookup_delete_Some, lookup_insert_Some in Hid.
  destruct Hid as (Ht & Hi & [[<- <-]|[_ Hid]]).
  - left. split; [lia | reflexivity].
  - right. auto.
Qed.

(** The page is well formed again once a single-shot attempt has ended,
    and the attempt has released its timers. *)
Lemma ended_regular_ok (r : regular_attempt) (st st' : page) (fresh : nat) :
  resources_ok st ->
  pending st = Some (Regular r) ->
  pending st' = None ->
  button_disabled st' = false ->
  input_editable st' = true ->
  unload_handlers st' = unload_handlers st ->
  next_timer st' = fresh -> next_timer st <= fresh ->
  (forall id t, timers st' !! id = Some t ->
     (next_timer st <= id < fresh /\ display_timer t = true)
     \/ (timers st !! id = Some t /\ id <> r_timeoutId r /\ id <> r_intervalId r)) ->
  page_ok st' /\ released (Regular r) st'.
Proof.
  intros [Hids Htimers Howned Hwatch Hunload Hsub] Hp Hp' Hb He Hu Hn Hle Ht.
  rewrite Hp in *. split; [split; [split|..]|split].
  - intros id t Hid. rewrite Hn.
    destruct (Ht id t Hid) as [[Hfresh _]|[Hold _]]; [lia|].
    specialize (Hids id t Hold). lia.
  - intros id t Hid. left.
    destruct (Ht id t Hid) as [[_ Hdisplay]|(Hold & Hnt & Hni)]; [exact Hdisplay|].
    destruct (Htimers id t Hold) as [Hdisplay|[Hown|Hown]];
      [exact Hdisplay | contradiction..].
  - rewrite Hp'. intros id [].
  - intros id t c Hid Hc.
    destruct (Ht id t Hid) as [[_ Hdisplay]|(Hold & Hnt & Hni)].
    + now destruct (display_not_watchdog t c Hdisplay).
    + destruct (Htimers id t Hold) as [Hdisplay|[Hown|Hown]];
        [now destruct (display_not_watchdog t c Hdisplay) | contradiction..].
  - rewrite Hu, Hp'. exact Hunload.
  - rewrite Hp'. apply empty_subseteq.
  - intros _. auto.
  - intros a. rewrite Hp'. discriminate.
  - destruct (timers st' !! r_timeoutId r) as [t|] eqn:Hid; [|reflexivity].
    destruct (Ht _ t Hid) as [[Hfresh _]|(_ & Hnt & _)]; [|contradiction].
    specialize (Howned (r_timeoutId r) (or_introl eq_refl)). lia.
  - destruct (timers st' !! r_intervalId r) as [t|] eqn:Hid; [|reflexivity].
    destruct (Ht _ t Hid) as [[Hfresh _]|(_ & _ & Hni)]; [|contradiction].
    specialize (Howned (r_intervalId r) (or_intror eq_refl)). lia.
Qed.

Lemma regular_rejected_ok (r : regular_attempt) (e : Js.error) (st : page) :
  resources_ok st -> pending st = Some (Regular r) ->
  page_ok (regular_rejected r e st)
  /\ pending (regular_rejected r e st) = None
  /\ released (Regular r) (regular_rejected r e st).
Proof.
  intros Hres Hp.
  destruct (regular_rejected_spec r e st)
    as (_ & Hp' & Hb & He & _ & _ & _ & _ & _ & Hu & Hn & _).
  destruct (ended_regular_ok r st (regular_rejected r e st) (S (next_timer st))
              Hres Hp Hp' Hb He Hu Hn) as [Hok Hrel]; [lia| |auto].
  intros id t Hid.
  destruct (regular_rejected_timers r e st id t Hid) as [[-> ->]|Hold];
    [left; split; [lia | reflexivity] | now right].
Qed.

Lemma regular_render_ok (r : regular_attempt) (v : option Js.json) (st : page) :
  resources_ok st -> pending st = Some (Regular r) ->
  page_ok (regular_render r v st)
  /\ pending (regular_render r v st) = None
  /\ released (Regular r) (regular_render r v st).
Proof.
  intros Hres Hp.
  destruct (regular_render_spec r v st)
    as (_ & Hp' & Hb & He & _ & _ & Hu & _ & Hn).
  destruct (ended_regular_ok r st (regular_render r v st) (S (S (next_timer st)))
              Hres Hp Hp' Hb He Hu Hn) as [Hok Hrel]; [lia| |auto].
  intros id t Hid. exact (regular_render_lookup r v st id t Hid).
Qed.

(** In streaming mode [catch] renders the error and [finally] drops the
    [beforeunload] subscription and enables the controls; no timer is
    armed. *)
Lemma stream_rejected_spec (s : stream_attempt) (e : Js.error) (st : page) :
  let st' := stream_rejected s e st in
  pending st' = None
  /\ button_disabled st' = false
  /\ input_editable st' = true
  /\ unload_handlers st' = unload_handlers st ∖ {[s_controller s]}
  /\ timers st' = hide_cancelled st
  /\ next_timer st' = next_timer st
  /\ requests st' = requests st
  /\ localStorage st' = localStorage st.
Proof.
  unfold stream_rejected, stream_catch.
  generalize ("스트리밍 번역 오류: " +:+ Js.message e), ("오류: " +:+ Js.message e).
  intros line text. destruct (String.eqb (Js.name e) "AbortError"); exec st.
Qed.

Lemma stream_on_chunk_spec (s : stream_attempt) (buffered value : list byte)
  (st : page) :
  let st' := stream_on_chunk s buffered value st in
  (exists s', pending st' = Some (Streaming s') /\ s_controller s' = s_controller s)
  /\ button_disabled st' = button_disabled st
  /\ input_editable st' = input_editable st
  /\ unload_handlers st' = unload_handlers st
  /\ timers st' = timers st
  /\ next_timer st' = next_timer st.
Proof.
  unfold stream_on_chunk. destruct (decode_stream buffered value) as [b chunk].
  split; [eexists; split; reflexivity | repeat split].
Qed.

(** The page is well formed again once a streaming attempt has ended, and
    the attempt has dropped its subscription. *)
Lemma ended_stream_ok (s : stream_attempt) (st st' : page) :
  resources_ok st ->
  pending st = Some (Streaming s) ->
  pending st' = None ->
  button_disabled st' = false ->
  input_editable st' = true ->
  unload_handlers st' = unload_handlers st ∖ {[s_controller s]} ->
  next_timer st <= next_timer st' ->
  (forall id t, timers st' !! id = Some t ->
     timers st !! id = Some t
     \/ (next_timer st <= id < next_timer st' /\ display_timer t = true)) ->
  page_ok st' /\ released (Streaming s) st'.
Proof.
  intros [Hids Htimers Howned Hwatch Hunload Hsub] Hp Hp' Hb He Hu Hn Ht.
  rewrite Hp in *. cbn [subscriptions owns] in *.
  split; [split; [split|..]|].
  - intros id t Hid. destruct (Ht id t Hid) as [Hold|[Hfresh _]]; [|lia].
    specialize (Hids id t Hold). lia.
  - intros id t Hid. left.
    destruct (Ht id t Hid) as [Hold|[_ Hdisplay]]; [|exact Hdisplay].
    now destruct (Htimers id t Hold).
  - rewrite Hp'. intros id [].
  - intros id t c Hid Hc.
    destruct (Ht id t Hid) as [Hold|[_ Hdisplay]].
    + now destruct (Hwatch id t c Hold Hc) as (r & Hr & _).
    + now destruct (display_not_watchdog t c Hdisplay).
  - rewrite Hu, Hp'. cbn [subscriptions]. intros c Hc.
    apply elem_of_difference in Hc. destruct Hc as [Hc Hne].
    now specialize (Hunload c Hc).
  - rewrite Hp'. apply empty_subseteq.
  - intros _. auto.
  - intros a. rewrite Hp'. discriminate.
  - cbn [released]. rewrite Hu. intros Hc.
    apply elem_of_difference in Hc. destruct Hc as [_ Hne].
    apply Hne. now apply elem_of_singleton.
Qed.

Lemma stream_rejected_ok (s : stream_attempt) (e : Js.error) (st : page) :
  resources_ok st -> pending st = Some (Streaming s) ->
  page_ok (stream_rejected s e st)
  /\ pending (stream_rejected s e st) = None
  /\ released (Streaming s) (stream_rejected s e st).
Proof.
  intros Hres Hp.
  destruct (stream_rejected_spec s e st) as (Hp' & Hb & He & Hu & Ht & Hn & _).
  destruct (ended_stream_ok s st (stream_rejected s e st) Hres Hp Hp' Hb He Hu)
    as [Hok Hrel]; [lia| |auto].
  intros id t Hid. left. rewrite Ht in Hid. now apply hide_cancelled_lookup.
Qed.

Lemma stream_on_done_ok (s : stream_attempt) (st : page) :
  resources_ok st -> pending st = Some (Streaming s) ->
  page_ok (stream_on_done s st)
  /\ pending (stream_on_done s st) = None
  /\ released (Streaming s) (stream_on_done s st).
Proof.
  intros Hres Hp.
  destruct (stream_on_done_spec s st) as (_ & Hp' & Hb & He & Hu & _ & Ht & Hn).
  destruct (ended_stream_ok s st (stream_on_done s st) Hres Hp Hp' Hb He Hu)
    as [Hok Hrel]; [lia| |auto].
  intros id t Hid. rewrite Ht, lookup_insert_Some in Hid.
  destruct Hid as [[<- <-]|[_ Hid]].
  - right. split; [lia | reflexivity].
  - left. now apply hide_cancelled_lookup.
Qed.

(** *** How attempts go on *)

Lemma continues_refl (a : attempt) : continues a a.
Proof. destruct a; cbn; auto. Qed.

Lemma continues_owns (a a' : attempt) (id : nat) :
  continues a a' -> owns (Some a') id <-> owns (Some a) id.
Proof.
  destruct a as [r|s], a' as [r'|s']; cbn; try tauto.
  intros (_ & -> & ->). tauto.
Qed.

Lemma continues_subscriptions (a a' : attempt) :
  continues a a' -> subscriptions (Some a') = subscriptions (Some a).
Proof.
  destruct a as [r|s], a' as [r'|s']; cbn; try tauto.
  now intros ->.
Qed.

(** A step inside an attempt keeps the page well formed when it leaves
    the controls and the subscriptions alone and, of the timers, only
    removes some, moves the ticker's phase, or arms display timers. *)
Lemma continued_ok (a a' : attempt) (st st' : page) :
  page_ok st ->
  pending st = Some a ->
  pending st' = Some a' ->
  continues a a' ->
  button_disabled st' = button_disabled st ->
  unload_handlers st' = unload_handlers st ->
  next_timer st <= next_timer st' ->
  (forall id t, timers st' !! id = Some t ->
     (exists t0, timers st !! id = Some t0
        /\ (t = t0 \/ display_timer t0 = false
                      /\ exists p, t_callback t = CbProgress p))
     \/ (next_timer st <= id < next_timer st' /\ display_timer t = true)) ->
  page_ok st'.
Proof.
  intros [[Hids Htimers Howned Hwatch Hunload Hsub] Hidle Hbusy] Hp Hp' Hc Hb Hu Hn Ht.
  rewrite Hp in *. split; [split|..].
  - intros id t Hid.
    destruct (Ht id t Hid) as [(t0 & Hold & _)|[Hfresh _]]; [|lia].
    specialize (Hids id t0 Hold). lia.
  - intros id t Hid. rewrite Hp', (continues_owns a a' id Hc).
    destruct (Ht id t Hid) as [(t0 & Hold & [->|[Hd _]])|[_ Hdisplay]].
    + eauto.
    + destruct (Htimers id t0 Hold) as [Hd'|Hown]; [congruence | now right].
    + now left.
  - intros id. rewrite Hp', (continues_owns a a' id Hc). intros Hown.
    specialize (Howned id Hown). lia.
  - intros id t c Hid Hcb.
    destruct (Ht id t Hid) as [(t0 & Hold & [->|[_ [p Hp0]]])|[_ Hdisplay]].
    + destruct (Hwatch id t0 c Hold Hcb) as (r & Hr & ->).
      injection Hr as ->. rewrite Hp'.
      destruct a' as [r'|s']; [|contradiction]. destruct Hc as (Hc & _).
      exists r'. auto.
    + congruence.
    + now destruct (display_not_watchdog t c Hdisplay).
  - now rewrite Hu, Hp', (continues_subscriptions a a' Hc).
  - now rewrite Hu, Hp', (continues_subscriptions a a' Hc).
  - rewrite Hp'. discriminate.
  - intros a0 _. rewrite Hb. eauto.
Qed.

Lemma regular_on_response_ok (r : regular_attempt) (status : Z) (st : page) :
  page_ok st -> pending st = Some (Regular r) ->
  page_ok (regular_on_response r status st)
  /\ exists a', pending (regular_on_response r status st) = Some a'
                /\ continues (Regular r) a'.
Proof.
  intros Hok Hp.
  destruct (regular_on_response_spec r status st)
    as (Hp' & Ht & Hn & Hb & _ & _ & _ & _ & Hu & _).
  split.
  - apply (continued_ok _ _ st _ Hok Hp Hp'); [cbn; auto | exact Hb | exact Hu | lia |].
    intros id t Hid. rewrite Ht, lookup_delete_Some in Hid. left. exists t. tauto.
  - eexists. split; [exact Hp' | cbn; auto].
Qed.

Lemma stream_on_response_ok (s : stream_attempt) (status : Z) (st : page) :
  page_ok st -> pending st = Some (Streaming s) ->
  page_ok (stream_on_response s status st)
  /\ exists a', pending (stream_on_response s status st) = Some a'
                /\ continues (Streaming s) a'.
Proof.
  intros Hok Hp. destruct (stream_on_response_spec s status st) as (Hp' & _).
  split.
  - apply (continued_ok _ _ st _ Hok Hp Hp'); [reflexivity..|].
    intros id t Hid. left. exists t. auto.
  - eexists. split; [exact Hp' | reflexivity].
Qed.

Lemma stream_on_chunk_ok (s : stream_attempt) (buffered value : list byte)
  (st : page) :
  page_ok st -> pending st = Some (Streaming s) ->
  page_ok (stream_on_chunk s buffered value st)
  /\ exists a', pending (stream_on_chunk s buffered value st) = Some a'
                /\ continues (Streaming s) a'.
Proof.
  intros Hok Hp.
  destruct (stream_on_chunk_spec s buffered value st)
    as ((s' & Hp' & Hc) & Hb & _ & Hu & Ht & Hn).
  split.
  - apply (continued_ok _ _ st _ Hok Hp Hp'); [exact Hc | exact Hb | exact Hu | lia |].
    intros id t Hid. left. exists t. rewrite <- Ht. auto.
  - exists (Streaming s'). auto.
Qed.

(** *** How attempts start *)

Lemma idle_when_enabled (st : page) :
  page_ok st -> button_disabled st = false -> pending st = None.
Proof.
  intros Hok Hb. destruct (pending st) as [a|] eqn:Hp; [|reflexivity].
  rewrite (ok_busy st Hok a Hp) in Hb. discriminate.
Qed.

Lemma regular_start_ok (st : page) :
  page_ok st -> pending st = None -> page_ok (regular_start st).
Proof.
  intros [[Hids Htimers Howned Hwatch Hunload Hsub] _ _] Hp.
  destruct (regular_start_spec st) as (Hp' & Ht & Hn & _ & Hb & _ & _ & Hu & _).
  rewrite Hp in *. split; [split|..].
  - intros id t. rewrite Ht, Hn, !lookup_insert_Some.
    intros [[<- _]|[_ [[<- _]|[_ Hid]]]]; [lia..|].
    apply hide_cancelled_lookup in Hid. specialize (Hids id t Hid). lia.
  - intros id t. rewrite Ht, Hp', !lookup_insert_Some.
    intros [[<- _]|[_ [[<- _]|[_ Hid]]]]; [right; cbn; auto..|].
    apply hide_cancelled_lookup in Hid. left.
    now destruct (Htimers id t Hid).
  - intros id. rewrite Hp', Hn. cbn. lia.
  - intros id t c. rewrite Ht, Hp', !lookup_insert_Some.
    intros [[<- <-]|[_ [[<- <-]|[_ Hid]]]] Hc.
    + discriminate.
    + injection Hc as <-. eexists. split; reflexivity.
    + apply hide_cancelled_lookup in Hid.
      now destruct (Hwatch id t c Hid Hc) as (r & Hr & _).
  - now rewrite Hu, Hp'.
  - rewrite Hp'. apply empty_subseteq.
  - rewrite Hp'. discriminate.
  - intros a _. exact Hb.
Qed.

Lemma stream_start_ok (st : page) :
  page_ok st -> pending st = None -> page_ok (stream_start st).
Proof.
  intros [[Hids Htimers Howned Hwatch Hunload Hsub] _ _] Hp.
  destruct (stream_start_spec st) as (Hp' & _ & _ & Hu & Hb & _ & Ht & Hn & _).
  rewrite Hp in *. split; [split|..].
  - intros id t. rewrite Ht, Hn. intros Hid.
    apply hide_cancelled_lookup in Hid. eauto.
  - intros id t. rewrite Ht. intros Hid.
    apply hide_cancelled_lookup in Hid. left. now destruct (Htimers id t Hid).
  - intros id. rewrite Hp'. intros [].
  - intros id t c. rewrite Ht. intros Hid Hc.
    apply hide_cancelled_lookup in Hid.
    now destruct (Hwatch id t c Hid Hc) as (r & Hr & _).
  - rewrite Hu, Hp'. cbn [subscriptions s_controller]. intros c Hc.
    apply elem_of_union in Hc. destruct Hc as [Hc|Hc]; [exact Hc|].
    specialize (Hunload c Hc). now apply elem_of_empty in Hunload.
  - rewrite Hu, Hp'. cbn [subscriptions s_controller]. apply union_subseteq_l.
  - rewrite Hp'. discriminate.
  - intros a _. exact Hb.
Qed.

Lemma settles_idle (st st' : page) : pending st = None -> settles st st'.
Proof. intros Hp a. rewrite Hp. discriminate. Qed.

Lemma settles_quiet (st st' : page) : quiet st st' -> settles st st'.
Proof.
  intros [[Hp _ _ _] _ _] a Ha. left. exists a. rewrite Hp.
  split; [exact Ha | apply continues_refl].
Qed.

Lemma quiet_ok (st st' : page) :
  page_ok st -> quiet st st' -> page_ok st' /\ settles st st'.
Proof.
  intros Hok Hq. split; [exact (page_ok_quiet _ _ Hok Hq) | now apply settles_quiet].
Qed.

Lemma on_click_ok (st : page) :
  page_ok st -> button_disabled st = false ->
  page_ok (on_click st) /\ settles st (on_click st).
Proof.
  intros Hok Hb. pose proof (idle_when_enabled st Hok Hb) as Hp.
  split; [|now apply settles_idle].
  unfold on_click, handleStreamTranslation, handleRegularTranslation. cbv zeta.
  repeat case_match;
    first [ now apply regular_start_ok
          | now apply stream_start_ok
          | apply (page_ok_quiet st); [exact Hok | apply quiet_updateStatus] ].
Qed.

(** *** Every event keeps the page well formed *)

Lemma quiet_clearTimer (id : nat) (st : page) : quiet st (clearTimer id st).
Proof.
  split; [split|..]; try reflexivity.
  intros j t Hj. left.
  change (delete id (timers st) !! j = Some t) in Hj.
  rewrite lookup_delete_Some in Hj. tauto.
Qed.

Lemma quiet_fired (id : nat) (repeat : bool) (st : page) :
  quiet st (if repeat then st else clearTimer id st).
Proof. destruct repeat; [apply quiet_refl | apply quiet_clearTimer]. Qed.

Lemma calm_watchdog (controller : nat) (st : page) : calm st (watchdog controller st).
Proof.
  destruct (watchdog_spec controller st)
    as (Hp & _ & _ & _ & _ & _ & Ht & Hn & _ & Hu & _).
  split; [exact Hp | exact Hu | lia |].
  intros id t Hid. left. rewrite Ht in Hid. now apply hide_cancelled_lookup.
Qed.

(** An aborted attempt is over with its resources released. *)
Lemma aborted_regular_ok (r : regular_attempt) (st : page) :
  resources_ok st -> pending st = Some (Regular r) ->
  r_controller r ∈ aborted st ->
  page_ok (deliver_abort st)
  /\ pending (deliver_abort st) = None
  /\ released (Regular r) (deliver_abort st).
Proof.
  intros Hres Hp Ha. rewrite (deliver_abort_regular r st Hp Ha).
  now apply regular_rejected_ok.
Qed.

Lemma aborted_stream_ok (s : stream_attempt) (st : page) :
  resources_ok st -> pending st = Some (Streaming s) ->
  s_controller s ∈ aborted st ->
  page_ok (deliver_abort st)
  /\ pending (deliver_abort st) = None
  /\ released (Streaming s) (deliver_abort st).
Proof.
  intros Hres Hp Ha. rewrite (deliver_abort_stream s st Hp Ha).
  now apply stream_rejected_ok.
Qed.

Lemma deliver_abort_ok (st : page) :
  page_ok st -> page_ok (deliver_abort st) /\ settles st (deliver_abort st).
Proof.
  intros Hok. pose proof (ok_resources st Hok) as Hres.
  destruct (pending st) as [[r|s]|] eqn:Hp.
  - destruct (decide (r_controller r ∈ aborted st)) as [Ha|Ha].
    + destruct (aborted_regular_ok r st Hres Hp Ha) as (Hok' & Hp' & Hrel).
      split; [exact Hok'|]. intros a Ha'. right.
      rewrite Hp in Ha'. injection Ha' as <-. auto.
    + unfold deliver_abort. rewrite Hp, (bool_decide_eq_false_2 _ Ha).
      apply quiet_ok; [exact Hok | apply quiet_refl].
  - destruct (decide (s_controller s ∈ aborted st)) as [Ha|Ha].
    + destruct (aborted_stream_ok s st Hres Hp Ha) as (Hok' & Hp' & Hrel).
      split; [exact Hok'|]. intros a Ha'. right.
      rewrite Hp in Ha'. injection Ha' as <-. auto.
    + unfold deliver_abort. rewrite Hp, (bool_decide_eq_false_2 _ Ha).
      apply quiet_ok; [exact Hok | apply quiet_refl].
  - unfold deliver_abort. rewrite Hp.
    apply quiet_ok; [exact Hok | apply quiet_refl].
Qed.

(** The timeout fires: its callback aborts the controller of the attempt
    in flight, which is over when the task ends. *)
Lemma watchdog_fires_ok (id : nat) (t : timer) (c : nat) (st : page) :
  page_ok st ->
  timers st !! id = Some t -> t_callback t = CbWatchdog c ->
  exists r, pending st = Some (Regular r)
    /\ let st' := run_callback id (CbWatchdog c)
                    (if t_repeat t then st else clearTimer id st) in
       page_ok st' /\ pending st' = None /\ released (Regular r) st'.
Proof.
  intros Hok Hid Hc. pose proof (ok_resources st Hok) as Hres.
  destruct (ok_watchdog st Hres id t c Hid Hc) as (r & Hp & ->).
  exists r. split; [exact Hp|]. cbv zeta.
  pose proof (quiet_fired id (t_repeat t) st) as Hq.
  set (st1 := if t_repeat t then st else clearTimer id st) in *.
  pose proof (calm_trans _ _ _ (quiet_calm _ _ Hq) (calm_watchdog (r_controller r) st1))
    as Hcalm.
  change (run_callback id (CbWatchdog (r_controller r)) st1)
    with (deliver_abort (watchdog (r_controller r) st1)).
  apply aborted_regular_ok.
  - exact (resources_ok_calm _ _ Hres Hcalm).
  - now rewrite (calm_pending _ _ Hcalm).
  - destruct (watchdog_spec (r_controller r) st1) as (_ & -> & _).
    apply elem_of_union_l. now apply elem_of_singleton.
Qed.

(** The ticker fires: only its own phase moves. *)
Lemma tick_ok (id : nat) (t : timer) (p : nat) (st : page) :
  page_ok st ->
  timers st !! id = Some t -> t_callback t = CbProgress p ->
  let st' := run_callback id (CbProgress p)
               (if t_repeat t then st else clearTimer id st) in
  page_ok st' /\ settles st st'.
Proof.
  intros Hok Hid Hc. cbv zeta.
  pose proof (quiet_fired id (t_repeat t) st) as Hq.
  set (st1 := if t_repeat t then st else clearTimer id st) in *.
  destruct (tick_spec id p st1)
    as (Ht & Hp & _ & Hn & _ & _ & Hb & _ & Hu & _).
  set (st' := run_callback id (CbProgress p) st1) in *.
  assert (Hn0 : next_timer st1 = next_timer st)
    by (subst st1; now destruct (t_repeat t)).
  destruct Hq as [[Hp1 Hu1 Hn1 Ht1] Hb1 _].
  assert (Hnot : display_timer t = false) by (unfold display_timer; now rewrite Hc).
  destruct (pending st) as [a|] eqn:Ha.
  - assert (Hp' : pending st' = Some a) by congruence.
    split.
    + apply (continued_ok a a st st' Hok Ha Hp');
        [apply continues_refl | congruence | congruence | lia |].
      intros j t' Hj. left. rewrite Ht, lookup_alter_Some in Hj.
      destruct Hj as [[<- (x & Hx & ->)]|[_ Hj]].
      * destruct (Ht1 id x Hx) as [Hold|[Hfresh _]]; [|lia].
        exists t. split; [exact Hid|]. right. split; [exact Hnot|]. eexists. reflexivity.
      * destruct (Ht1 j t' Hj) as [Hold|[Hfresh Hd]].
        -- exists t'. auto.
        -- lia.
    + intros a0 Ha0. left. exists a. split; [exact Hp'|].
      rewrite Ha in Ha0. injection Ha0 as <-. apply continues_refl.
  - destruct (ok_timers st (ok_resources st Hok) id t Hid) as [Hd|Hown].
    + congruence.
    + rewrite Ha in Hown. destruct Hown.
Qed.

(** A display timer fires. *)
Lemma display_fires_ok (id : nat) (t : timer) (st : page) :
  page_ok st -> display_timer t = true ->
  let st' := run_callback id (t_callback t)
               (if t_repeat t then st else clearTimer id st) in
  page_ok st' /\ settles st st'.
Proof.
  intros Hok Hd. cbv zeta. apply quiet_ok; [exact Hok|].
  eapply quiet_trans; [apply (quiet_fired id (t_repeat t) st)|].
  unfold display_timer in Hd.
  destruct (t_callback t); try discriminate; cbn [run_callback].
  - apply quiet_show_done.
  - apply quiet_status_fade.
  - apply quiet_status_hide.
Qed.

(** A body read in single-shot mode ends the attempt, whatever it holds. *)
Lemma regular_on_body_ok (r : regular_attempt) (status : Z) (text : string)
  (st : page) :
  resources_ok st -> pending st = Some (Regular r) ->
  page_ok (regular_on_body r status text st)
  /\ pending (regular_on_body r status text st) = None
  /\ released (Regular r) (regular_on_body r status text st).
Proof.
  intros Hres Hp. unfold regular_on_body, regular_on_data. cbv zeta.
  assert (Hq : quiet st (st |> updateProgressBar 90 |> showProgress "결과 표시중...")).
  { eapply quiet_trans; [apply quiet_updateProgressBar | apply quiet_showProgress]. }
  pose proof (resources_ok_calm _ _ Hres (quiet_calm _ _ Hq)) as Hres'.
  pose proof (calm_pending _ _ (quiet_calm _ _ Hq)) as Hp'. rewrite Hp in Hp'.
  repeat case_match;
    lazymatch goal with
    | |- context [regular_render] => now apply regular_render_ok
    | |- _ => now apply regular_rejected_ok
    end.
Qed.

(** One event: the page stays well formed, the attempt in flight goes on
    or is over with its resources released, and an event that ends
    attempts leaves none in flight. *)
Lemma step_ok (e : event) (st st' : page) :
  page_ok st -> step e st = Some st' ->
  page_ok st' /\ settles st st'
  /\ (ends_attempt e st = true -> pending st' = None).
Proof.
  intros Hok Hstep. pose proof (ok_resources st Hok) as Hres.
  assert (Hquiet : quiet st st' -> ends_attempt e st = false ->
            page_ok st' /\ settles st st'
            /\ (ends_attempt e st = true -> pending st' = None)).
  { intros Hq ->. destruct (quiet_ok st st' Hok Hq) as [Hok' Hs].
    split; [exact Hok'|]. split; [exact Hs | discriminate]. }
  assert (Hends : forall a, pending st = Some a ->
            page_ok st' /\ pending st' = None /\ released a st' ->
            page_ok st' /\ settles st st'
            /\ (ends_attempt e st = true -> pending st' = None)).
  { intros a Ha (Hok' & Hp' & Hrel). split; [exact Hok'|]. split; [|auto].
    intros a0 Ha0. right. rewrite Ha in Ha0. injection Ha0 as <-. auto. }
  assert (Hgoes : forall a, pending st = Some a -> ends_attempt e st = false ->
            page_ok st' /\ (exists a', pending st' = Some a' /\ continues a a') ->
            page_ok st' /\ settles st st'
            /\ (ends_attempt e st = true -> pending st' = None)).
  { intros a Ha -> (Hok' & Hc). split; [exact Hok'|]. split; [|discriminate].
    intros a0 Ha0. left. rewrite Ha in Ha0. now injection Ha0 as <-. }
  destruct e as [|id|status|text|value| |err| |req o|html| | | | | |value|value|value];
    cbn [step] in Hstep.
  - (* click *)
    destruct (button_disabled st) eqn:Hb; [discriminate|].
    injection Hstep as <-. destruct (on_click_ok st Hok Hb) as [Hok' Hs].
    split; [exact Hok'|]. split; [exact Hs | discriminate].
  - (* timer *)
    destruct (timers st !! id) as [t|] eqn:Hid; [|discriminate].
    cbn in Hstep. injection Hstep as <-.
    unfold ends_attempt. rewrite Hid. cbn [fmap option_fmap option_map].
    destruct (t_callback t) as [c|p|inputText| |] eqn:Hc.
    + destruct (watchdog_fires_ok id t c st Hok Hid Hc) as (r & Hp & Hok' & Hp' & Hrel).
      split; [exact Hok'|]. split; [|auto].
      intros a0 Ha0. right. rewrite Hp in Ha0. injection Ha0 as <-. auto.
    + destruct (tick_ok id t p st Hok Hid Hc) as [Hok' Hs].
      split; [exact Hok'|]. split; [exact Hs | discriminate].
    + rewrite <- Hc.
      destruct (display_fires_ok id t st Hok) as [Hok' Hs];
        [unfold display_timer; now rewrite Hc|].
      split; [exact Hok'|]. split; [exact Hs | discriminate].
    + rewrite <- Hc.
      destruct (display_fires_ok id t st Hok) as [Hok' Hs];
        [unfold display_timer; now rewrite Hc|].
      split; [exact Hok'|]. split; [exact Hs | discriminate].
    + rewrite <- Hc.
      destruct (display_fires_ok id t st Hok) as [Hok' Hs];
        [unfold display_timer; now rewrite Hc|].
      split; [exact Hok'|]. split; [exact Hs | discriminate].
  - (* response *)
    destruct (pending st) as [[r|s]|] eqn:Hp; [| |discriminate].
    + destruct (r_response r); [discriminate|]. injection Hstep as <-.
      apply (Hgoes _ eq_refl eq_refl). now apply regular_on_response_ok.
    + destruct (s_phase s); try discriminate. injection Hstep as <-.
      apply (Hgoes _ eq_refl eq_refl). now apply stream_on_response_ok.
  - (* body *)
    destruct (pending st) as [[r|s]|] eqn:Hp; [| |discriminate].
    + destruct (r_response r) as [status|]; [|discriminate].
      cbn in Hstep. injection Hstep as <-.
      apply (Hends _ eq_refl). now apply regular_on_body_ok.
    + destruct (s_phase s); try discriminate. injection Hstep as <-.
      apply (Hends _ eq_refl). now apply stream_rejected_ok.
  - (* chunk *)
    destruct (pending st) as [[r|s]|] eqn:Hp; try discriminate.
    destruct (s_phase s); try discriminate. injection Hstep as <-.
    apply (Hgoes _ eq_refl eq_refl). now apply stream_on_chunk_ok.
  - (* end of stream *)
    destruct (pending st) as [[r|s]|] eqn:Hp; try discriminate.
    destruct (s_phase s); try discriminate. injection Hstep as <-.
    apply (Hends _ eq_refl). now apply stream_on_done_ok.
  - (* network error *)
    destruct (pending st) as [[r|s]|] eqn:Hp; [| |discriminate];
      injection Hstep as <-; apply (Hends _ eq_refl).
    + now apply regular_rejected_ok.
    + now apply stream_rejected_ok.
  - (* unload *)
    injection Hstep as <-. unfold on_beforeunload.
    pose proof (quiet_set_aborted (unload_handlers st ∪ aborted st) st) as Hq.
    set (st1 := set_aborted (unload_handlers st ∪ aborted st) st) in *.
    pose proof (page_ok_quiet st st1 Hok Hq) as Hok1.
    destruct (deliver_abort_ok st1 Hok1) as [Hok' Hs].
    split; [exact Hok'|]. split.
    + intros a Ha. apply Hs. exact Ha.
    + unfold ends_attempt. destruct (pending st) as [[r|s]|] eqn:Hp; try discriminate.
      intros _.
      destruct (aborted_stream_ok s st1 (ok_resources st1 Hok1) Hp) as (_ & Hp' & _);
        [|exact Hp'].
      apply elem_of_union_l. apply (ok_subscribed st Hres). rewrite Hp.
      cbn [subscriptions]. now apply elem_of_singleton.
  - (* a request of the page settles *)
    destruct (waiting st !! req) as [k|] eqn:Hk; [|discriminate].
    cbn in Hstep. injection Hstep as <-. apply Hquiet; [|reflexivity].
    eapply quiet_trans; [apply (quiet_set_waiting (delete req (waiting st)))|].
    destruct k; [apply quiet_models_settled | apply quiet_transcript_settled].
  - (* input *)
    destruct (input_editable st); [|discriminate]. injection Hstep as <-.
    apply Hquiet; [|reflexivity].
    eapply quiet_trans; [apply quiet_set_input_html | apply quiet_updateCharCounter].
  - destruct (usable_videoId (video st)); [discriminate|]. injection Hstep as <-.
    apply Hquiet; [apply quiet_on_focus | reflexivity].
  - destruct (usable_videoId (video st)); [discriminate|]. injection Hstep as <-.
    apply Hquiet; [apply quiet_on_blur | reflexivity].
  - injection Hstep as <-.
    apply Hquiet; [apply quiet_on_timestamp_change | reflexivity].
  - injection Hstep as <-.
    apply Hquiet; [apply quiet_on_streaming_change | reflexivity].
  - injection Hstep as <-.
    apply Hquiet; [apply quiet_set_checkboxes | reflexivity].
  - injection Hstep as <-.
    apply Hquiet; [apply quiet_on_provider_change | reflexivity].
  - destruct (bool_decide _); [|discriminate]. injection Hstep as <-.
    apply Hquiet; [apply quiet_set_model_select | reflexivity].
  - injection Hstep as <-.
    apply Hquiet; [apply quiet_set_language | reflexivity].
Qed.

(** Well-formedness holds along every sequence of events. *)
Lemma run_ok (events : list event) :
  forall st st', page_ok st -> run events st = Some st' -> page_ok st'.
Proof.
  induction events as [|e events IH]; intros st st' Hok Hrun.
  - injection Hrun as <-. exact Hok.
  - rewrite run_cons in Hrun.
    destruct (step e st) as [st1|] eqn:Hstep; [|discriminate].
    rewrite bind_Some in Hrun.
    destruct (step_ok e st st1 Hok Hstep) as [Hok1 _]. eauto.
Qed.

(** C3.  Take a page that is well formed (idle with its controls enabled,
    or with one attempt in flight that owns its timers and subscription)
    and let any events happen.  Whenever an attempt of either mode is in
    flight and the next event ends it (a body read, which covers success
    and HTTP errors, the end of the stream, a network error, the 180 s
    timeout, or the page unloading while streaming, all of which do end
    it), the attempt's timeout timer and ticker are no longer pending in
    single-shot mode, its [beforeunload] subscription is gone in streaming
    mode, the button and the input area are enabled, no [beforeunload]
    listener is left, and the timers still pending are display timers (the
    deferred completion display and status fade-outs), none of them the
    attempt's timeout or ticker.  An event that does not end the attempt
    leaves the same attempt in flight. *)
Theorem attempt_releases_its_resources (events : list event) (e : event)
  (st0 st st' : page) (a : attempt) :
  page_ok st0 ->
  run events st0 = Some st ->
  pending st = Some a ->
  step e st = Some st' ->
  (ends_attempt e st = true -> pending st' = None)
  /\ (pending st' = None ->
        released a st'
        /\ button_disabled st' = false /\ input_editable st' = true
        /\ unload_handlers st' = ∅
        /\ forall id t, timers st' !! id = Some t -> display_timer t = true)
  /\ (forall a', pending st' = Some a' -> continues a a').
Proof.
  intros Hok0 Hrun Ha Hstep.
  pose proof (run_ok events st0 st Hok0 Hrun) as Hok.
  destruct (step_ok e st st' Hok Hstep) as (Hok' & Hs & Hends).
  split; [exact Hends|]. split.
  - intros Hp'. destruct (Hs a Ha) as [(a' & Ha' & _)|[_ Hrel]]; [congruence|].
    split; [exact Hrel|].
    destruct (ok_idle st' Hok' Hp') as [Hb He]. split; [exact Hb|]. split; [exact He|].
    pose proof (ok_resources st' Hok') as Hres. split.
    + pose proof (ok_unload st' Hres) as Hu. rewrite Hp' in Hu.
      apply leibniz_equiv. apply equiv_empty. exact Hu.
    + intros id t Hid. destruct (ok_timers st' Hres id t Hid) as [Hd|Hown]; [exact Hd|].
      rewrite Hp' in Hown. destruct Hown.
  - intros a' Ha'. destruct (Hs a Ha) as [(a1 & Ha1 & Hc)|[Hp' _]]; [|congruence].
    rewrite Ha' in Ha1. now injection Ha1 as <-.
Qed.

(** *** The transcript client *)

(** The three replacements on one character. *)
Lemma escapeTranscript_char (a : ascii) :
  escapeTranscript (String a "") = html_escaped_char a.
Proof. destruct a as [[] [] [] [] [] [] [] []]; reflexivity. Qed.

Lemma escapeTranscript_app (a b : string) :
  escapeTranscript (a +:+ b) = escapeTranscript a +:+ escapeTranscript b.
Proof. unfold escapeTranscript. now rewrite !JsStringFacts.replaceAll_app. Qed.

(** The replacements, though applied one after the other to the whole
    text, escape each character once: the [&] of an entity written by a
    later replacement is not escaped again, since [&] is replaced first. *)
Lemma escapeTranscript_escaped (transcript : string) :
  escapeTranscript transcript = html_escaped transcript.
Proof.
  induction transcript as [|a r IH]; [reflexivity|].
  change (String a r) with (String a "" +:+ r).
  rewrite escapeTranscript_app, escapeTranscript_char, IH. reflexivity.
Qed.

Lemma html_escaped_char_cases (a : ascii) :
  (a = "&"%char /\ html_escaped_char a = "&amp;")
  \/ (a = "<"%char /\ html_escaped_char a = "&lt;")
  \/ (a = ">"%char /\ html_escaped_char a = "&gt;")
  \/ (Ascii.eqb a "&" = false /\ Ascii.eqb a "<" = false
      /\ Ascii.eqb a ">" = false /\ html_escaped_char a = String a "").
Proof.
  unfold html_escaped_char.
  destruct (Ascii.eqb a "&") eqn:H1; [apply Ascii.eqb_eq in H1; auto|].
  destruct (Ascii.eqb a "<") eqn:H2; [apply Ascii.eqb_eq in H2; auto|].
  destruct (Ascii.eqb a ">") eqn:H3; [apply Ascii.eqb_eq in H3; auto|].
  auto 10.
Qed.

(** No tag can open or close inside escaped text. *)
Lemma html_escaped_no_angle (s : string) :
  JsString.includes (html_escaped s) "<" = false
  /\ JsString.includes (html_escaped s) ">" = false.
Proof.
  induction s as [|a r [IH1 IH2]]; [split; reflexivity|].
  cbn [html_escaped].
  destruct (html_escaped_char_cases a)
    as [[-> ->]|[[-> ->]|[[-> ->]|(_ & H2 & H3 & ->)]]];
    rewrite ?JsStringFacts.append_cons, ?JsStringFacts.append_nil,
      !JsStringFacts.includes_char, ?IH1, ?IH2, ?H2, ?H3;
    split; reflexivity.
Qed.

(** Escaped text displays as the text that was escaped. *)
Lemma entity_decode_escaped (s : string) : entity_decode (html_escaped s) = s.
Proof.
  induction s as [|a r IH]; [reflexivity|].
  cbn [html_escaped].
  destruct (html_escaped_char_cases a)
    as [[-> ->]|[[-> ->]|[[-> ->]|(H1 & _ & _ & ->)]]];
    rewrite ?JsStringFacts.append_cons, ?JsStringFacts.append_nil.
  - cbn. now rewrite IH.
  - cbn. now rewrite IH.
  - cbn. now rewrite IH.
  - cbn [entity_decode]. now rewrite H1, IH.
Qed.

(** What the [catch] block renders when the title parameter is present. *)
Lemma transcript_catch_html (e : Js.error) (title : string) (st : page) :
  videoTitle (video st) = Some title ->
  input_html (transcript_catch e st)
  = titleHTML (JsString.trim title) +:+ urlHTML (shown_url (fullUrl (video st)))
    +:+ errorHTML (Js.message e).
Proof.
  intros Ht. unfold transcript_catch. cbv zeta.
  change (video (console_log ("자막 로딩 오류: " +:+ Js.message e) st)) with (video st).
  rewrite Ht. cbn [trimmed_title]. now rewrite updateStatus_input_html.
Qed.

(** *** The transcript request from call to answer *)

(** The function up to its [await]: one request, for the video and the
    state of the timestamp box, with the loading notice shown meanwhile. *)
Lemma fetchAndDisplayTranscript_spec (videoId : string) (st : page) :
  let st1 := fetchAndDisplayTranscript videoId st in
  waiting st1 = <[List.length (requests st) := KTranscript]> (waiting st)
  /\ requests st1
     = (requests st ++ [GetTranscript videoId (timestamp_checked (form st))])%list
  /\ video st1 = video st
  /\ input_html st1 = loadingHTML.
Proof.
  unfold fetchAndDisplayTranscript, fetch_await, fetch. cbv zeta.
  generalize (timestamp_checked (form st)). intros preserveTimestamps.
  repeat split;
    cbn [waiting requests video input_html set_requests set_waiting];
    rewrite ?updateStatus_requests, ?updateStatus_waiting, ?updateStatus_video,
      ?updateStatus_input_html; reflexivity.
Qed.

(** What the answer renders on a page whose title parameter is present,
    case by case. *)
Lemma transcript_settled_cases (o : outcome) (title : string) (st : page) :
  videoTitle (video st) = Some title ->
  let rendered := input_html (transcript_settled o st) in
  let metadata := titleHTML (JsString.trim title)
                  +:+ urlHTML (shown_url (fullUrl (video st))) in
  (forall status body v transcript,
      o = Responded status body -> response_ok status = true ->
      JSON_parse body = inl v ->
      Js.getField (type_error_message "data.transcript") "transcript" v
      = Js.Normal (Some (Js.JStr transcript)) ->
      rendered = metadata +:+ escapeTranscript transcript)
  /\ (forall status body v detail,
      o = Responded status body -> response_ok status = false ->
      JSON_parse body = inl v ->
      Js.getField (type_error_message "errorData.detail") "detail" v
      = Js.Normal detail ->
      rendered = metadata +:+ errorHTML (Js.orElse detail "자막을 불러올 수 없습니다."))
  /\ (forall e, o = Failed e -> rendered = metadata +:+ errorHTML (Js.message e))
  /\ (forall status body msg,
      o = Responded status body -> JSON_parse body = inr msg ->
      rendered = metadata +:+ errorHTML msg)
  /\ (forall status body,
      o = Responded status body -> JSON_parse body = inl Js.JNull ->
      rendered
      = metadata
        +:+ errorHTML (type_error_message (if response_ok status
                                           then "data.transcript"
                                           else "errorData.detail")))
  /\ (forall status body v field,
      o = Responded status body -> response_ok status = true ->
      JSON_parse body = inl v ->
      Js.getField (type_error_message "data.transcript") "transcript" v
      = Js.Normal field ->
      (forall transcript, field <> Some (Js.JStr transcript)) ->
      rendered = metadata +:+ errorHTML (type_error_message "data.transcript.replace")).
Proof.
  intros Htitle rendered metadata. subst rendered metadata.
  pose proof (fun e => transcript_catch_html e title st Htitle) as Hcatch.
  repeat split.
  - intros status body v transcript -> Hok Hparse Hfield.
    unfold transcript_settled. rewrite Hparse, Hok, Htitle. cbn [negb trimmed_title].
    rewrite Hfield. unfold updateCharCounter.
    change (input_html (set_char_counter ?c ?s)) with (input_html s).
    rewrite updateStatus_input_html, JsStringFacts.app_assoc. reflexivity.
  - intros status body v detail -> Hok Hparse Hfield.
    unfold transcript_settled. rewrite Hparse, Hok. cbn [negb]. rewrite Hfield.
    now rewrite Hcatch, JsStringFacts.app_assoc.
  - intros e ->. cbn [transcript_settled].
    now rewrite Hcatch, JsStringFacts.app_assoc.
  - intros status body msg -> Hparse.
    unfold transcript_settled. rewrite Hparse.
    now rewrite Hcatch, JsStringFacts.app_assoc.
  - intros status body -> Hparse.
    unfold transcript_settled. rewrite Hparse, Htitle.
    cbn [Js.getField trimmed_title].
    destruct (response_ok status); cbn [negb];
      now rewrite Hcatch, JsStringFacts.app_assoc.
  - intros status body v field -> Hok Hparse Hfield Hnot.
    unfold transcript_settled. rewrite Hparse, Hok, Htitle. cbn [negb trimmed_title].
    rewrite Hfield.
    destruct field as [[| | |transcript| |]|];
      try (now rewrite Hcatch, JsStringFacts.app_assoc).
    now destruct (Hnot transcript).
Qed.

(** Without the title parameter no answer changes what the input area
    shows. *)
Lemma transcript_settled_untitled (o : outcome) (st : page) :
  videoTitle (video st) = None ->
  input_html (transcript_settled o st) = input_html st.
Proof.
  intros Ht.
  assert (Hcatch : forall e, transcript_catch e st
                             = console_log ("자막 로딩 오류: " +:+ Js.message e) st).
  { intros e. unfold transcript_catch. cbv zeta.
    change (video (console_log ?l st)) with (video st). now rewrite Ht. }
  unfold transcript_settled. rewrite Ht. cbn [trimmed_title].
  repeat case_match; now rewrite Hcatch.
Qed.

Lemma step_settled_transcript (st : page) (req : nat) (o : outcome) :
  waiting st !! req = Some KTranscript ->
  step (Settled req o) st
  = Some (transcript_settled o (set_waiting (delete req (waiting st)) st)).
Proof. intros Hw. unfold step. now rewrite Hw. Qed.

(** C7 (as amended).  [fetchAndDisplayTranscript] asks for the transcript of
    the video with the state of the timestamp box, and the answer is
    rendered as follows when the page's title parameter is present: always
    the title block and the URL block first, then
    - for an OK response whose body holds a [transcript] string, the
      transcript with its three replacements applied, which turn each [&],
      [<] and [>] into its entity, once; the result holds no [<] and no [>],
      and a browser displays it as the transcript's own text;
    - for a response that is not OK and whose body parses to a value other
      than [null], the inline error block with the [detail] of the body, or
      with the fixed fallback message when [detail] is missing or falsy;
    - for every other failure the inline error block with the message of
      the exception: the network error's, the parser's for a body that is
      no JSON, the engine's [TypeError] message for a [null] body or an OK
      body without a [transcript] string.
    When the title parameter is missing nothing is rendered: the input
    area keeps the loading notice, whatever the answer. *)
Theorem transcript_is_escaped_or_error (st : page) (videoId : string) (o : outcome) :
  let st1 := fetchAndDisplayTranscript videoId st in
  exists st',
    requests st1
    = (requests st ++ [GetTranscript videoId (timestamp_checked (form st))])%list
    /\ step (Settled (List.length (requests st)) o) st1 = Some st'
    /\ (forall title,
          videoTitle (video st) = Some title ->
          let rendered := input_html st' in
          let metadata := titleHTML (JsString.trim title)
                          +:+ urlHTML (shown_url (fullUrl (video st))) in
          (forall status body v transcript,
              o = Responded status body -> response_ok status = true ->
              JSON_parse body = inl v ->
              Js.getField (type_error_message "data.transcript") "transcript" v
              = Js.Normal (Some (Js.JStr transcript)) ->
              rendered = metadata +:+ escapeTranscript transcript
              /\ escapeTranscript transcript = html_escaped transcript
              /\ JsString.includes (escapeTranscript transcript) "<" = false
              /\ JsString.includes (escapeTranscript transcript) ">" = false
              /\ entity_decode (escapeTranscript transcript) = transcript)
          /\ (forall status body v detail,
              o = Responded status body -> response_ok status = false ->
              JSON_parse body = inl v ->
              Js.getField (type_error_message "errorData.detail") "detail" v
              = Js.Normal detail ->
              rendered
              = metadata +:+ errorHTML (Js.orElse detail "자막을 불러올 수 없습니다."))
          /\ (forall e,
              o = Failed e -> rendered = metadata +:+ errorHTML (Js.message e))
          /\ (forall status body msg,
              o = Responded status body -> JSON_parse body = inr msg ->
              rendered = metadata +:+ errorHTML msg)
          /\ (forall status body,
              o = Responded status body -> JSON_parse body = inl Js.JNull ->
              rendered
              = metadata
                +:+ errorHTML (type_error_message (if response_ok status
                                                   then "data.transcript"
                                                   else "errorData.detail")))
          /\ (forall status body v field,
              o = Responded status body -> response_ok status = true ->
              JSON_parse body = inl v ->
              Js.getField (type_error_message "data.transcript") "transcript" v
              = Js.Normal field ->
              (forall transcript, field <> Some (Js.JStr transcript)) ->
              rendered
              = metadata +:+ errorHTML (type_error_message "data.transcript.replace")))
    /\ (videoTitle (video st) = None -> input_html st' = loadingHTML).
Proof.
  intros st1.
  destruct (fetchAndDisplayTranscript_spec videoId st) as (Hw & Hr & Hv & Hi).
  fold st1 in Hw, Hr, Hv, Hi. clearbody st1.
  set (st2 := set_waiting (delete (List.length (requests st)) (waiting st1)) st1).
  assert (Hstep : step (Settled (List.length (requests st)) o) st1
                  = Some (transcript_settled o st2)).
  { apply step_settled_transcript. rewrite Hw. apply lookup_insert_eq. }
  assert (Hv2 : video st2 = video st) by exact Hv.
  assert (Hi2 : input_html st2 = loadingHTML) by exact Hi.
  clearbody st2.
  exists (transcript_settled o st2).
  split; [exact Hr|]. split; [exact Hstep|]. split.
  - intros title Htitle. cbv zeta. rewrite <- Hv2 in Htitle |- *.
    destruct (transcript_settled_cases o title st2 Htitle)
      as (Hok & Hdetail & Hfailed & Hsyntax & Hnull & Hfield).
    split; [|now repeat split].
    intros status body v transcript Ho Hstatus Hparse Hget.
    split; [now apply (Hok status body v)|].
    pose proof (escapeTranscript_escaped transcript) as Hesc.
    split; [exact Hesc|]. rewrite Hesc.
    destruct (html_escaped_no_angle transcript) as [H1 H2].
    split; [exact H1|]. split; [exact H2 | apply entity_decode_escaped].
  - intros Htitle. rewrite <- Hv2 in Htitle.
    now rewrite (transcript_settled_untitled o st2 Htitle).
Qed.



(** *** Streaming mode: the body of an error response *)

(** What [catch] shows for an error that is no [AbortError]. *)
Lemma stream_rejected_output (s : stream_attempt) (e : Js.error) (st : page) :
  String.eqb (Js.name e) "AbortError" = false ->
  let st' := stream_rejected s e st in
  output_text st' = "오류: " +:+ Js.message e
  /\ si_text (status st') = "오류: " +:+ Js.message e
  /\ console st' = (console st ++ ["스트리밍 번역 오류: " +:+ Js.message e])%list.
Proof.
  intros Hname. unfold stream_rejected, stream_catch. rewrite Hname.
  generalize ("스트리밍 번역 오류: " +:+ Js.message e), ("오류: " +:+ Js.message e).
  intros line text. exec st.
Qed.

(** What it shows for an [AbortError]. *)
Lemma stream_rejected_cancelled (s : stream_attempt) (e : Js.error) (st : page) :
  String.eqb (Js.name e) "AbortError" = true ->
  let st' := stream_rejected s e st in
  output_text st' = msg_cancelled /\ si_text (status st') = "번역 취소됨".
Proof.
  intros Hname. unfold stream_rejected, stream_catch. rewrite Hname.
  generalize ("스트리밍 번역 오류: " +:+ Js.message e).
  intros line. exec st.
Qed.

(** C10.  Streaming mode, from a valid click.  A response that is not OK
    has its body read as text and handed to [JSON.parse] inside the [try]
    block, and the attempt ends there.  If the text is no valid JSON, the
    output area and the status line show the message of the parser's
    [SyntaxError] after the error prefix: neither the text nor a detail.
    If it parses, the [detail] read off the value is shown when it is
    truthy, and then the value is an object with that [detail] field; the
    fixed fallback message is shown otherwise; and reading [detail] off
    [null] shows the engine's [TypeError] message.  The body of an OK
    response is never read that way. *)
Theorem stream_error_body_is_parsed (st : page) (status : Z)
  (errorText : string) :
  button_disabled st = false ->
  streaming_checked (form st) = true ->
  JsString.truthy (JsString.trim (innerText st)) = true ->
  (response_ok status = false ->
   exists st',
     run [ClickTranslate; Response status; Body errorText] st = Some st'
     /\ pending st' = None
     /\ button_disabled st' = false
     /\ (forall msg, JSON_parse errorText = inr msg ->
           output_text st' = "오류: " +:+ msg
           /\ si_text (UI.status st') = "오류: " +:+ msg)
     /\ (forall v detail,
           JSON_parse errorText = inl v ->
           Js.getField (type_error_message "JSON.parse(errorText).detail")
             "detail" v = Js.Normal detail ->
           output_text st'
           = "오류: " +:+ (if Js.truthy detail then Js.toStringU detail
                          else "스트리밍 연결에 실패했습니다.")
           /\ (Js.truthy detail = true ->
               exists fields,
                 v = Js.JObj fields /\ Js.assoc "detail" fields = detail))
     /\ (JSON_parse errorText = inl Js.JNull ->
           output_text st'
           = "오류: " +:+ type_error_message "JSON.parse(errorText).detail"))
  /\ (response_ok status = true ->
      run [ClickTranslate; Response status; Body errorText] st = None).
Proof.
  intros Hbutton Hmode Htext.
  destruct (stream_start_spec st) as (Hp1 & _).
  set (s1 := {| s_controller := newController st; s_phase := SFetch |}) in *.
  destruct (stream_on_response_spec s1 status (stream_start st)) as (Hp2 & _).
  set (st2 := stream_on_response s1 status (stream_start st)) in *.
  assert (Hhead : forall events,
             run (ClickTranslate :: Response status :: events) st = run events st2).
  { intros events.
    rewrite run_cons, (stream_dispatch st Hbutton Hmode Htext), bind_Some, run_cons.
    rewrite (step_response_stream _ _ status Hp1 eq_refl). apply bind_Some. }
  clearbody st2. split.
  - intros Hok. rewrite Hok in Hp2. cbn [s_controller s1] in Hp2.
    set (s2 := {| s_controller := newController st; s_phase := SErrorBody |}) in *.
    exists (stream_on_error_body s2 errorText st2).
    split.
    { rewrite Hhead, run_cons, (step_body_stream st2 s2 errorText Hp2 eq_refl).
      apply bind_Some. }
    unfold stream_on_error_body, stream_http_error.
    destruct (stream_rejected_spec s2
                match JSON_parse errorText with
                | inl v =>
                    match Js.getField
                            (type_error_message "JSON.parse(errorText).detail")
                            "detail" v with
                    | Js.Normal detail =>
                        Js.Error (Js.orElse detail "스트리밍 연결에 실패했습니다.")
                    | Js.Throw e => e
                    end
                | inr msg => Js.SyntaxError msg
                end st2) as (Hp3 & Hb3 & _).
    split; [exact Hp3|]. split; [exact Hb3|]. split; [|split].
    + intros msg ->.
      destruct (stream_rejected_output s2 (Js.SyntaxError msg) st2 eq_refl)
        as (Ho & Hs & _).
      auto.
    + intros v detail -> Hfield. rewrite Hfield. split.
      * now destruct (stream_rejected_output s2
                        (Js.Error (Js.orElse detail "스트리밍 연결에 실패했습니다."))
                        st2 eq_refl) as (Ho & _).
      * intros Htruthy. destruct v; cbn in Hfield; try discriminate;
          injection Hfield as <-; try discriminate. eauto.
    + intros ->. cbn [Js.getField].
      now destruct (stream_rejected_output s2
                      (Js.TypeError (type_error_message "JSON.parse(errorText).detail"))
                      st2 eq_refl) as (Ho & _).
  - intros Hok. rewrite Hok in Hp2.
    rewrite Hhead, run_cons. unfold step. now rewrite Hp2.
Qed.

(** *** What is written to [localStorage]

    Only [setItem] touches the storage: every other primitive leaves it
    as it is. *)

Lemma storage_set_input_html (v : string) (st : page) :
  localStorage (set_input_html v st) = localStorage st.
Proof. reflexivity. Qed.

Lemma storage_set_input_editable (v : bool) (st : page) :
  localStorage (set_input_editable v st) = localStorage st.
Proof. reflexivity. Qed.

Lemma storage_set_input_color (v : string) (st : page) :
  localStorage (set_input_color v st) = localStorage st.
Proof. reflexivity. Qed.

Lemma storage_set_output_text (v : string) (st : page) :
  localStorage (set_output_text v st) = localStorage st.
Proof. reflexivity. Qed.

Lemma storage_set_char_counter (v : string) (st : page) :
  localStorage (set_char_counter v st) = localStorage st.
Proof. reflexivity. Qed.

Lemma storage_set_button_disabled (v : bool) (st : page) :
  localStorage (set_button_disabled v st) = localStorage st.
Proof. reflexivity. Qed.

Lemma storage_set_status (v : status_indicator) (st : page) :
  localStorage (set_status v st) = localStorage st.
Proof. reflexivity. Qed.

Lemma storage_set_progress (v : progress_modal) (st : page) :
  localStorage (set_progress v st) = localStorage st.
Proof. reflexivity. Qed.

Lemma storage_set_form (v : form_controls) (st : page) :
  localStorage (set_form v st) = localStorage st.
Proof. reflexivity. Qed.

Lemma storage_set_timers (v : gmap nat timer) (st : page) :
  localStorage (set_timers v st) = localStorage st.
Proof. reflexivity. Qed.

Lemma storage_set_next_timer (v : nat) (st : page) :
  localStorage (set_next_timer v st) = localStorage st.
Proof. reflexivity. Qed.

Lemma storage_set_unload_handlers (v : gset nat) (st : page) :
  localStorage (set_unload_handlers v st) = localStorage st.
Proof. reflexivity. Qed.

Lemma storage_set_pending (v : option attempt) (st : page) :
  localStorage (set_pending v st) = localStorage st.
Proof. reflexivity. Qed.

Lemma storage_set_waiting (v : gmap nat continuation) (st : page) :
  localStorage (set_waiting v st) = localStorage st.
Proof. reflexivity. Qed.

Lemma storage_set_requests (v : list request) (st : page) :
  localStorage (set_requests v st) = localStorage st.
Proof. reflexivity. Qed.

Lemma storage_set_aborted (v : gset nat) (st : page) :
  localStorage (set_aborted v st) = localStorage st.
Proof. reflexivity. Qed.

Lemma storage_set_console (v : list string) (st : page) :
  localStorage (set_console v st) = localStorage st.
Proof. reflexivity. Qed.

Lemma storage_set_video (v : video_params) (st : page) :
  localStorage (set_video v st) = localStorage st.
Proof. reflexivity. Qed.

Lemma storage_clearTimer (id : nat) (st : page) :
  localStorage (clearTimer id st) = localStorage st.
Proof. reflexivity. Qed.

Lemma storage_setTimeout_ (cb : callback) (delay : Z) (st : page) :
  localStorage (setTimeout_ cb delay st) = localStorage st.
Proof. reflexivity. Qed.

Lemma storage_fetch (r : request) (st : page) :
  localStorage (fetch r st) = localStorage st.
Proof. reflexivity. Qed.

Lemma storage_fetch_await (k : continuation) (r : request) (st : page) :
  localStorage (fetch_await k r st) = localStorage st.
Proof. reflexivity. Qed.

Lemma storage_abort (controller : nat) (st : page) :
  localStorage (abort controller st) = localStorage st.
Proof. reflexivity. Qed.

Lemma storage_console_log (line : string) (st : page) :
  localStorage (console_log line st) = localStorage st.
Proof. reflexivity. Qed.

Lemma storage_showProgress (message : string) (st : page) :
  localStorage (showProgress message st) = localStorage st.
Proof. reflexivity. Qed.

Lemma storage_hideProgress (st : page) :
  localStorage (hideProgress st) = localStorage st.
Proof. reflexivity. Qed.

Lemma storage_updateProgressBar (percentage : Z) (st : page) :
  localStorage (updateProgressBar percentage st) = localStorage st.
Proof. reflexivity. Qed.

Lemma storage_set_model_select (options : list string) (value : string) (st : page) :
  localStorage (set_model_select options value st) = localStorage st.
Proof. reflexivity. Qed.

Lemma storage_set_provider (v : string) (st : page) :
  localStorage (set_provider v st) = localStorage st.
Proof. reflexivity. Qed.

Lemma storage_set_language (v : string) (st : page) :
  localStorage (set_language v st) = localStorage st.
Proof. reflexivity. Qed.

Lemma storage_set_checkboxes (a b c : bool) (st : page) :
  localStorage (set_checkboxes a b c st) = localStorage st.
Proof. reflexivity. Qed.

Lemma storage_set_hideTimeout (v : option nat) (st : page) :
  localStorage (set_hideTimeout v st) = localStorage st.
Proof. reflexivity. Qed.

Lemma storage_updateCharCounter (st : page) :
  localStorage (updateCharCounter st) = localStorage st.
Proof. reflexivity. Qed.

Lemma storage_status_fade (st : page) : localStorage (status_fade st) = localStorage st.
Proof. reflexivity. Qed.

Lemma storage_status_hide (st : page) : localStorage (status_hide st) = localStorage st.
Proof. reflexivity. Qed.

Create Rewrite HintDb storage.

#[local] Hint Rewrite updateStatus_localStorage storage_set_input_html
  storage_set_input_editable storage_set_input_color storage_set_output_text
  storage_set_char_counter storage_set_button_disabled storage_set_status
  storage_set_progress storage_set_form storage_set_timers storage_set_next_timer
  storage_set_unload_handlers storage_set_pending storage_set_waiting
  storage_set_requests storage_set_aborted storage_set_console storage_set_video
  storage_clearTimer storage_setTimeout_ storage_fetch storage_fetch_await
  storage_abort storage_console_log storage_showProgress storage_hideProgress
  storage_updateProgressBar storage_set_model_select storage_set_provider
  storage_set_language storage_set_checkboxes storage_set_hideTimeout
  storage_updateCharCounter storage_status_fade storage_status_hide : storage.

(** A handler built from those primitives leaves the storage alone. *)
Ltac storage_frame :=
  cbv zeta; repeat case_match; autorewrite with storage; try reflexivity.

Lemma storage_transcript_catch (e : Js.error) (st : page) :
  localStorage (transcript_catch e st) = localStorage st.
Proof. unfold transcript_catch. storage_frame. Qed.

Lemma storage_transcript_settled (o : outcome) (st : page) :
  localStorage (transcript_settled o st) = localStorage st.
Proof.
  unfold transcript_settled.
  repeat case_match; rewrite ?storage_transcript_catch; storage_frame.
Qed.

Lemma storage_fetchAndDisplayTranscript (id : string) (st : page) :
  localStorage (fetchAndDisplayTranscript id st) = localStorage st.
Proof. unfold fetchAndDisplayTranscript. storage_frame. Qed.

Lemma storage_loadModelsForProvider (provider : string) (selected : option string)
  (st : page) :
  localStorage (loadModelsForProvider provider selected st) = localStorage st.
Proof. unfold loadModelsForProvider. storage_frame. Qed.

Lemma storage_models_catch (e : Js.error) (st : page) :
  localStorage (models_catch e st) = localStorage st.
Proof. unfold models_catch. storage_frame. Qed.

Lemma storage_models_settled (selected : option string) (o : outcome) (st : page) :
  localStorage (models_settled selected o st) = localStorage st.
Proof.
  unfold models_settled.
  repeat case_match; rewrite ?storage_models_catch; storage_frame.
Qed.

Lemma storage_on_provider_change (value : string) (st : page) :
  localStorage (on_provider_change value st) = localStorage st.
Proof.
  unfold on_provider_change.
  now rewrite storage_loadModelsForProvider, storage_set_provider.
Qed.

Lemma storage_on_focus (st : page) : localStorage (on_focus st) = localStorage st.
Proof. unfold on_focus. storage_frame. Qed.

Lemma storage_on_blur (st : page) : localStorage (on_blur st) = localStorage st.
Proof. unfold on_blur. storage_frame. Qed.

Lemma storage_show_done (inputText : string) (st : page) :
  localStorage (show_done inputText st) = localStorage st.
Proof. unfold show_done. storage_frame. Qed.

Lemma storage_stream_on_done (s : stream_attempt) (st : page) :
  localStorage (stream_on_done s st) = localStorage st.
Proof. unfold stream_on_done, stream_finally. storage_frame. Qed.

Lemma storage_stream_on_chunk (s : stream_attempt) (buffered value : list byte)
  (st : page) :
  localStorage (stream_on_chunk s buffered value st) = localStorage st.
Proof.
  unfold stream_on_chunk. now destruct (decode_stream buffered value).
Qed.

Lemma storage_regular_rejected (r : regular_attempt) (e : Js.error) (st : page) :
  localStorage (regular_rejected r e st) = localStorage st.
Proof. now destruct (regular_rejected_spec r e st) as (_&_&_&_&_&_& Hs & _). Qed.

Lemma storage_stream_rejected (s : stream_attempt) (e : Js.error) (st : page) :
  localStorage (stream_rejected s e st) = localStorage st.
Proof. now destruct (stream_rejected_spec s e st) as (_&_&_&_&_&_&_& Hs). Qed.

Lemma storage_deliver_abort (st : page) :
  localStorage (deliver_abort st) = localStorage st.
Proof.
  unfold deliver_abort.
  repeat case_match;
    rewrite ?storage_regular_rejected, ?storage_stream_rejected; reflexivity.
Qed.

Lemma storage_run_callback (id : nat) (cb : callback) (st : page) :
  localStorage (run_callback id cb st) = localStorage st.
Proof.
  destruct cb as [c|p|inputText| |].
  - unfold run_callback. rewrite storage_deliver_abort.
    now destruct (watchdog_spec c st) as (_&_&_&_&_&_&_&_&_&_& Hs & _).
  - now destruct (tick_spec id p st) as (_&_&_&_&_&_&_&_&_& Hs & _).
  - apply storage_show_done.
  - apply storage_status_fade.
  - apply storage_status_hide.
Qed.

(** A body read in single-shot mode writes the two last-used keys when it
    is rendered as a translation, and nothing otherwise. *)
Lemma storage_regular_on_body (r : regular_attempt) (status : Z) (text : string)
  (st : page) :
  localStorage (regular_on_body r status text st) = localStorage st
  \/ localStorage (regular_on_body r status text st)
     = <["lastUsedModel" := r_model r]>
         (<["lastUsedProvider" := r_provider r]> (localStorage st)).
Proof.
  unfold regular_on_body, regular_on_data. cbv zeta.
  repeat case_match;
    rewrite ?storage_regular_rejected, ?regular_render_storage;
    autorewrite with storage; auto.
Qed.

Lemma storage_on_click (st : page) : localStorage (on_click st) = localStorage st.
Proof.
  unfold on_click, handleStreamTranslation, handleRegularTranslation. cbv zeta.
  repeat case_match; rewrite ?updateStatus_localStorage; try reflexivity.
  - now destruct (stream_start_spec st) as (_&_&_&_&_&_&_&_& Hs).
  - now destruct (regular_start_spec st) as (_&_&_&_&_&_&_&_&_& Hs & _).
Qed.

Lemma stored_flag_same (k : string) (st st' : page) :
  localStorage st' = localStorage st -> stored_flag k st' = stored_flag k st.
Proof. unfold stored_flag, getItem. now intros ->. Qed.

Lemma stored_or_same (k fallback : string) (st st' : page) :
  localStorage st' = localStorage st ->
  stored_or k fallback st' = stored_or k fallback st.
Proof. unfold stored_or, getItem. now intros ->. Qed.

Lemma getItem_same (k : string) (st st' : page) :
  localStorage st' = localStorage st -> getItem k st' = getItem k st.
Proof. unfold getItem. now intros ->. Qed.

(** Reading the storage of a page that differs from [st] in other fields
    is reading the storage of [st]. *)
Ltac read_storage_of st :=
  repeat match goal with
         | |- context [stored_flag ?k ?X] =>
             assert_fails (constr_eq X st);
             rewrite (stored_flag_same k st X)
               by (rewrite ?storage_fetchAndDisplayTranscript; reflexivity)
         | |- context [stored_or ?k ?d ?X] =>
             assert_fails (constr_eq X st);
             rewrite (stored_or_same k d st X)
               by (rewrite ?storage_fetchAndDisplayTranscript; reflexivity)
         | |- context [getItem ?k ?X] =>
             assert_fails (constr_eq X st);
             rewrite (getItem_same k st X)
               by (rewrite ?storage_fetchAndDisplayTranscript; reflexivity)
         end.

(** What the listener of [DOMContentLoaded] reads from the storage, and
    the requests it sends: the transcript's when the address names a
    video, then the model list's, whose continuation holds the stored
    model name. *)
Lemma DOMContentLoaded_reads (query : list (string * string)) (st0 : page) :
  let st := DOMContentLoaded query st0 in
  let v := {| videoId := urlParams_get "videoId" query;
              videoTitle := urlParams_get "videoTitle" query;
              fullUrl := urlParams_get "fullUrl" query |} in
  let models := GetModels (stored_or "lastUsedProvider" "gemini" st0) in
  let k := KModels (getItem "lastUsedModel" st0) in
  timestamp_checked (form st) = stored_flag "show_timestamp" st0
  /\ streaming_checked (form st) = stored_flag "use_streaming" st0
  /\ provider (form st) = stored_or "lastUsedProvider" "gemini" st0
  /\ localStorage st = localStorage st0
  /\ video st = v
  /\ requests st
     = match usable_videoId v with
       | Some id =>
           ((requests st0
             ++ [GetTranscript id (stored_flag "show_timestamp" st0)])
            ++ [models])%list
       | None => (requests st0 ++ [models])%list
       end
  /\ waiting st
     = match usable_videoId v with
       | Some id =>
           <[List.length (requests st0
                          ++ [GetTranscript id (stored_flag "show_timestamp" st0)])%list
             := k]> (<[List.length (requests st0) := KTranscript]> (waiting st0))
       | None => <[List.length (requests st0) := k]> (waiting st0)
       end.
Proof.
  unfold DOMContentLoaded. cbv zeta.
  set (v := {| videoId := urlParams_get "videoId" query;
               videoTitle := urlParams_get "videoTitle" query;
               fullUrl := urlParams_get "fullUrl" query |}).
  repeat match goal with
         | |- context [usable_videoId (video ?X)] =>
             change (usable_videoId (video X)) with (usable_videoId v)
         end.
  destruct (usable_videoId v) as [id|]; read_storage_of st0;
    generalize (stored_flag "show_timestamp" st0), (stored_flag "use_streaming" st0),
      (stored_or "lastUsedProvider" "gemini" st0), (getItem "lastUsedModel" st0);
    intros showTimestamp useStreaming lastUsedProvider lastUsedModel;
    clearbody v; exec st0.
Qed.

(** The two checkbox listeners store the new state of their box. *)
Lemma on_timestamp_change_spec (checked : bool) (st : page) :
  let st' := on_timestamp_change checked st in
  localStorage st' = <["show_timestamp" := bool_string checked]> (localStorage st)
  /\ timestamp_checked (form st') = checked.
Proof.
  unfold on_timestamp_change. cbv zeta.
  change (video (setItem ?k ?v (set_checkboxes ?a ?b ?c st))) with (video st).
  generalize "show_timestamp". intros k.
  destruct (usable_videoId (video st)); exec st.
Qed.

Lemma on_streaming_change_spec (checked : bool) (st : page) :
  let st' := on_streaming_change checked st in
  localStorage st' = <["use_streaming" := bool_string checked]> (localStorage st)
  /\ streaming_checked (form st') = checked.
Proof. split; reflexivity. Qed.

(** A flag stored by a listener is the flag read at the next load. *)
Lemma stored_flag_written (k : string) (checked : bool) (st st' : page) :
  localStorage st' = <[k := bool_string checked]> (localStorage st) ->
  stored_flag k st' = checked.
Proof.
  intros Hs. unfold stored_flag, getItem. rewrite Hs, lookup_insert_eq.
  now destruct checked.
Qed.

(** The events that write to the storage. *)
Lemma step_storage (e : event) (st st' : page) :
  step e st = Some st' ->
  match e with
  | ToggleTimestamp =>
      localStorage st'
      = <["show_timestamp" := bool_string (negb (timestamp_checked (form st)))]>
          (localStorage st)
  | ToggleStreaming =>
      localStorage st'
      = <["use_streaming" := bool_string (negb (streaming_checked (form st)))]>
          (localStorage st)
  | Body _ =>
      localStorage st' = localStorage st
      \/ exists r, pending st = Some (Regular r)
           /\ localStorage st'
              = <["lastUsedModel" := r_model r]>
                  (<["lastUsedProvider" := r_provider r]> (localStorage st))
  | _ => localStorage st' = localStorage st
  end.
Proof.
  intros Hstep.
  destruct e as [|id|status|text|value| |err| |req o|html| | | | | |value|value|value];
    cbn [step] in Hstep.
  - destruct (button_disabled st); [discriminate|]. injection Hstep as <-.
    apply storage_on_click.
  - destruct (timers st !! id) as [t|]; [|discriminate].
    cbn in Hstep. injection Hstep as <-. rewrite storage_run_callback.
    now destruct (t_repeat t).
  - destruct (pending st) as [[r|s]|]; [| |discriminate].
    + destruct (r_response r); [discriminate|]. injection Hstep as <-.
      now destruct (regular_on_response_spec r status st)
        as (_&_&_&_&_&_&_&_&_& Hs & _).
    + destruct (s_phase s); try discriminate. now injection Hstep as <-.
  - destruct (pending st) as [[r|s]|]; [| |discriminate].
    + destruct (r_response r) as [status|]; [|discriminate].
      cbn in Hstep. injection Hstep as <-.
      destruct (storage_regular_on_body r status text st) as [Hs|Hs]; eauto.
    + destruct (s_phase s); try discriminate. injection Hstep as <-.
      left. apply storage_stream_rejected.
  - destruct (pending st) as [[r|s]|]; try discriminate.
    destruct (s_phase s); try discriminate. injection Hstep as <-.
    apply storage_stream_on_chunk.
  - destruct (pending st) as [[r|s]|]; try discriminate.
    destruct (s_phase s); try discriminate. injection Hstep as <-.
    apply storage_stream_on_done.
  - destruct (pending st) as [[r|s]|]; [| |discriminate]; injection Hstep as <-.
    + apply storage_regular_rejected.
    + apply storage_stream_rejected.
  - injection Hstep as <-. unfold on_beforeunload. now rewrite storage_deliver_abort.
  - destruct (waiting st !! req) as [k|]; [|discriminate].
    cbn in Hstep. injection Hstep as <-.
    destruct k; [now rewrite storage_models_settled
                | now rewrite storage_transcript_settled].
  - destruct (input_editable st); [|discriminate]. now injection Hstep as <-.
  - destruct (usable_videoId (video st)); [discriminate|]. injection Hstep as <-.
    apply storage_on_focus.
  - destruct (usable_videoId (video st)); [discriminate|]. injection Hstep as <-.
    apply storage_on_blur.
  - injection Hstep as <-. apply on_timestamp_change_spec.
  - injection Hstep as <-. apply on_streaming_change_spec.
  - now injection Hstep as <-.
  - injection Hstep as <-. apply storage_on_provider_change.
  - destruct (bool_decide _); [|discriminate]. now injection Hstep as <-.
  - now injection Hstep as <-.
Qed.

(** No event removes a key from the storage. *)
Lemma step_keeps_keys (e : event) (st st' : page) :
  step e st = Some st' -> dom (localStorage st) ⊆ dom (localStorage st').
Proof.
  intros Hstep. pose proof (step_storage e st st' Hstep) as Hs.
  assert (Hgrow : forall k v (m : gmap string string), dom m ⊆ dom (<[k := v]> m)).
  { intros k v m. rewrite dom_insert. apply union_subseteq_r. }
  destruct e; try (rewrite Hs; reflexivity).
  - destruct Hs as [->|(r & _ & ->)]; [reflexivity|].
    etransitivity; [|apply Hgrow]. apply Hgrow.
  - rewrite Hs. apply Hgrow.
  - rewrite Hs. apply Hgrow.
Qed.

(** A response whose body holds a translation is rendered. *)
Lemma regular_on_body_rendered (r : regular_attempt) (status : Z) (text : string)
  (v : Js.json) (translated_text : option Js.json) (st : page) :
  response_ok status = true ->
  JSON_parse text = inl v ->
  Js.getField (type_error_message "data.translated_text") "translated_text" v
  = Js.Normal translated_text ->
  regular_on_body r status text st
  = regular_render r translated_text
      (st |> updateProgressBar 90 |> showProgress "결과 표시중...").
Proof.
  intros Hok Hparse Hfield. unfold regular_on_body, regular_on_data.
  now rewrite Hparse, Hok, Hfield.
Qed.

(** C8.  The four preference keys live in [localStorage].  At load, the
    listener sets the two checkboxes from [show_timestamp] and
    [use_streaming], the provider select from [lastUsedProvider] (or
    "gemini"), and hands [lastUsedModel] to the model loader; it writes
    nothing.  A change of the timestamp or streaming checkbox stores the
    new state of the box, which the next load reads back.  The keys
    [lastUsedProvider] and [lastUsedModel] are written when a single-shot
    translation succeeds, with the provider and model of that attempt.
    Every other event, a change of the provider, model or language select
    among them, leaves the storage as it is, and no event removes a
    key. *)
Theorem preferences_are_read_and_written :
  (forall query st0,
      let st := DOMContentLoaded query st0 in
      timestamp_checked (form st) = stored_flag "show_timestamp" st0
      /\ streaming_checked (form st) = stored_flag "use_streaming" st0
      /\ provider (form st) = stored_or "lastUsedProvider" "gemini" st0
      /\ (exists req,
             waiting st !! req = Some (KModels (getItem "lastUsedModel" st0)))
      /\ localStorage st = localStorage st0)
  /\ (forall st, exists st',
      step ToggleTimestamp st = Some st'
      /\ timestamp_checked (form st') = negb (timestamp_checked (form st))
      /\ getItem "show_timestamp" st'
         = Some (bool_string (timestamp_checked (form st')))
      /\ stored_flag "show_timestamp" st' = timestamp_checked (form st'))
  /\ (forall st, exists st',
      step ToggleStreaming st = Some st'
      /\ streaming_checked (form st') = negb (streaming_checked (form st))
      /\ getItem "use_streaming" st'
         = Some (bool_string (streaming_checked (form st')))
      /\ stored_flag "use_streaming" st' = streaming_checked (form st'))
  /\ (forall st r status text v translated_text,
      pending st = Some (Regular r) -> r_response r = Some status ->
      response_ok status = true ->
      JSON_parse text = inl v ->
      Js.getField (type_error_message "data.translated_text") "translated_text" v
      = Js.Normal translated_text ->
      exists st',
        step (Body text) st = Some st'
        /\ getItem "lastUsedProvider" st' = Some (r_provider r)
        /\ getItem "lastUsedModel" st' = Some (r_model r))
  /\ (forall e st st',
      step e st = Some st' ->
      match e with
      | ToggleTimestamp | ToggleStreaming | Body _ => True
      | _ => localStorage st' = localStorage st
      end)
  /\ (forall e st st',
      step e st = Some st' -> dom (localStorage st) ⊆ dom (localStorage st')).
Proof.
  split; [|split; [|split; [|split; [|split]]]].
  - intros query st0.
    destruct (DOMContentLoaded_reads query st0) as (H1 & H2 & H3 & H4 & _ & _ & Hw).
    cbv zeta. split; [exact H1|]. split; [exact H2|]. split; [exact H3|].
    split; [|exact H4].
    rewrite Hw. destruct (usable_videoId _); eexists; apply lookup_insert_eq.
  - intros st. eexists. split; [reflexivity|].
    destruct (on_timestamp_change_spec (negb (timestamp_checked (form st))) st)
      as [Hs Hf].
    split; [exact Hf|]. rewrite Hf. split.
    + unfold getItem. rewrite Hs. apply lookup_insert_eq.
    + exact (stored_flag_written _ _ _ _ Hs).
  - intros st. eexists. split; [reflexivity|].
    destruct (on_streaming_change_spec (negb (streaming_checked (form st))) st)
      as [Hs Hf].
    split; [exact Hf|]. rewrite Hf. split.
    + unfold getItem. rewrite Hs. apply lookup_insert_eq.
    + exact (stored_flag_written _ _ _ _ Hs).
  - intros st r status text v translated_text Hp Hr Hok Hparse Hfield.
    eexists. split; [exact (step_body_regular st r status text Hp Hr)|].
    rewrite (regular_on_body_rendered r status text v translated_text st
               Hok Hparse Hfield).
    unfold getItem. rewrite regular_render_storage. split.
    + rewrite lookup_insert_ne by discriminate. apply lookup_insert_eq.
    + apply lookup_insert_eq.
  - intros e st st' Hstep. pose proof (step_storage e st st' Hstep) as Hs.
    destruct e; auto.
  - exact step_keeps_keys.
Qed.

(** *** One attempt at a time *)

(** On every page reached from a well-formed one, an attempt in flight
    keeps the translate button disabled, so that no click can start a
    second one; with no attempt in flight the button and the input area
    are enabled. *)
Theorem one_attempt_at_a_time (events : list event) (st0 st : page) :
  page_ok st0 ->
  run events st0 = Some st ->
  (forall a, pending st = Some a ->
     button_disabled st = true /\ step ClickTranslate st = None)
  /\ (pending st = None ->
      button_disabled st = false /\ input_editable st = true).
Proof.
  intros Hok0 Hrun. pose proof (run_ok events st0 st Hok0 Hrun) as Hok. split.
  - intros a Ha. pose proof (ok_busy st Hok a Ha) as Hb.
    split; [exact Hb|]. unfold step. now rewrite Hb.
  - apply (ok_idle st Hok).
Qed.

(** *** Single-shot mode: the timeout covers the wait for the response only *)

(** Once the response has arrived, the 180 s timeout is cleared while the
    ticker keeps running: the timeout cannot fire any more, however long
    the body takes. *)
Theorem response_clears_timeout (st : page) (status : Z) :
  ready_regular st = true ->
  exists st2,
    run [ClickTranslate; Response status] st = Some st2
    /\ timers st2 !! next_timer st = None
    /\ step (TimerFires (next_timer st)) st2 = None
    /\ timers st2 !! S (next_timer st) = Some (ticker 0)
    /\ (exists r, pending st2 = Some (Regular r) /\ r_response r = Some status)
    /\ button_disabled st2 = true.
Proof.
  intros Hready.
  destruct (regular_start_spec st) as (Hp1 & Ht1 & _ & _ & Hb1 & _).
  destruct (regular_on_response_spec (regular_started st) status (regular_start st))
    as (Hp2 & Ht2 & _ & Hb2 & _).
  set (st2 := regular_on_response (regular_started st) status (regular_start st)) in *.
  assert (Hgone : timers st2 !! next_timer st = None).
  { rewrite Ht2. apply lookup_delete_eq. }
  exists st2. split.
  { rewrite run_cons, (regular_dispatch st Hready), bind_Some, run_cons.
    now rewrite (step_response_regular _ _ status Hp1 eq_refl). }
  split; [exact Hgone|]. split.
  { unfold step. now rewrite Hgone. }
  split.
  { rewrite Ht2, Ht1. cbn [r_timeoutId regular_started].
    rewrite lookup_delete_ne by lia. apply lookup_insert_eq. }
  split; [eexists; split; [exact Hp2 | reflexivity]|].
  now rewrite Hb2.
Qed.

(** *** The model guard *)

(** The labels the model select shows while it has no model to offer. *)
Lemma loadModelsForProvider_model (provider : string) (selected : option string)
  (st : page) :
  model (form (loadModelsForProvider provider selected st)) = "모델 로딩 중...".
Proof.
  unfold loadModelsForProvider.
  change (form (fetch_await ?k ?r ?s)) with (form s).
  now rewrite updateStatus_form.
Qed.

Lemma models_catch_model (e : Js.error) (st : page) :
  model (form (models_catch e st)) = "모델 로딩 실패".
Proof. unfold models_catch. now rewrite updateStatus_form. Qed.

(** While the model list is loading, after it failed to load, when it came
    back empty, or when no option is selected, a click in single-shot mode
    sends nothing: it shows the model message as an error and starts no
    attempt. *)
Theorem placeholder_model_blocks_translation :
  (forall provider selected st,
      model (form (loadModelsForProvider provider selected st)) = "모델 로딩 중...")
  /\ (forall e st, model (form (models_catch e st)) = "모델 로딩 실패")
  /\ (forall st,
      button_disabled st = false ->
      streaming_checked (form st) = false ->
      JsString.truthy (JsString.trim (innerText st)) = true ->
      model (form st)
      ∈ ["모델 로딩 중..."; "모델 로딩 실패"; "사용 가능한 모델 없음"; ""] ->
      exists st',
        step ClickTranslate st = Some st'
        /\ requests st' = requests st
        /\ pending st' = pending st
        /\ si_text (status st') = msg_no_model
        /\ button_disabled st' = false).
Proof.
  split; [exact loadModelsForProvider_model|]. split; [exact models_catch_model|].
  intros st Hb Hs Ht Hm.
  assert (Hguard : model_unusable (model (form st)) = true).
  { repeat (apply elem_of_cons in Hm as [->|Hm]; [reflexivity|]).
    now apply elem_of_nil in Hm. }
  exists (updateStatus msg_no_model "error" false st).
  destruct (updateStatus_error msg_no_model st)
    as (Htext & _ & _ & Hreq & Hp & Hb' & _).
  split.
  - unfold step, on_click, handleRegularTranslation. now rewrite Hb, Hs, Ht, Hguard.
  - rewrite Hb'. auto.
Qed.

Lemma last_snoc {A} (l : list A) (x : A) : last (l ++ [x]) = Some x.
Proof. induction l as [|y [|z l] IH]; auto. Qed.

(** Streaming mode has no such guard: whatever the model select holds,
    a placeholder label included, a click on a page with text sends the
    request with it. *)
Theorem streaming_has_no_model_guard (st : page) :
  button_disabled st = false ->
  streaming_checked (form st) = true ->
  JsString.truthy (JsString.trim (innerText st)) = true ->
  exists st',
    step ClickTranslate st = Some st'
    /\ last (requests st')
       = Some (PostTranslate true (innerText st) (model (form st))
                 (language (form st)) (notification_checked (form st)))
    /\ (exists s, pending st' = Some (Streaming s)).
Proof.
  intros Hb Hs Ht. exists (stream_start st).
  destruct (stream_start_spec st) as (Hp & _ & Hreq & _).
  split; [now apply stream_dispatch|]. split.
  - rewrite Hreq. apply last_snoc.
  - eexists. exact Hp.
Qed.

(** *** The model list *)

(** A model list that has loaded: its names become the options.  The
    stored model name is selected when it is among them; when it is not,
    no option is selected, the select reads as empty, and the model guard
    rejects translation until a model is chosen.  Without a stored name
    the first option is selected. *)
Theorem stored_model_is_selected_if_listed (selected : option string)
  (status : Z) (body : string) (items : list Js.json) (options : list string)
  (st : page) :
  response_ok status = true ->
  JSON_parse body = inl (Js.JArr items) ->
  option_values items = Some options ->
  options <> [] ->
  let st' := models_settled selected (Responded status body) st in
  model_options (form st') = options
  /\ (forall name, selected = Some name -> JsString.truthy name = true ->
        (name ∈ options -> model (form st') = name)
        /\ (name ∉ options ->
            model (form st') = "" /\ model_unusable (model (form st')) = true))
  /\ (selected = None -> model (form st') = hd "" options)
  /\ requests st' = requests st.
Proof.
  intros Hok Hparse Hvalues Hne. cbv zeta.
  unfold models_settled. rewrite Hok, Hparse. cbn [negb].
  assert (Hlen : length_is_zero (Js.JArr items) = false).
  { destruct items; [|reflexivity]. cbn in Hvalues. injection Hvalues as <-.
    now destruct Hne. }
  rewrite Hlen, Hvalues, updateStatus_form, updateStatus_requests.
  cbn [set_model_select form model_options model set_form requests].
  split; [reflexivity|]. split; [|split; [|reflexivity]].
  - intros name -> Hname. rewrite Hname. unfold select_value. split.
    + intros Hin. now rewrite (bool_decide_eq_true_2 _ Hin).
    + intros Hout. now rewrite (bool_decide_eq_false_2 _ Hout).
  - now intros ->.
Qed.

(** *** Streaming mode: failure and cancellation in mid-stream *)

(** Whatever has been streamed into the output area so far, a failure of
    the connection replaces it by the error message, and unloading the
    page by the cancellation message; both end the attempt and enable the
    controls. *)
Theorem stream_failure_replaces_output (st : page) (status : Z)
  (values : list (list byte)) (e : Js.error) :
  page_ok st ->
  button_disabled st = false ->
  streaming_checked (form st) = true ->
  JsString.truthy (JsString.trim (innerText st)) = true ->
  response_ok status = true ->
  String.eqb (Js.name e) "AbortError" = false ->
  let received := ClickTranslate :: Response status :: map Chunk values in
  let shown st' :=
    (output_text st', si_text (UI.status st'), button_disabled st', pending st') in
  shown <$> run (received ++ [NetworkError e])%list st
  = Some ("오류: " +:+ Js.message e, "오류: " +:+ Js.message e, false, None)
  /\ shown <$> run (received ++ [BeforeUnload])%list st
     = Some (msg_cancelled, "번역 취소됨", false, None).
Proof.
  intros Hok Hb Hs Ht Hstatus Hname received shown.
  destruct (stream_head st status Hb Hs Ht Hstatus) as (st2 & Hhead & Hp2 & _).
  destruct (run_chunks values st2 _ _ Hp2) as (st3 & buffered & Hrun3 & _ & Hp3).
  assert (Hreceived : run received st = Some st3).
  { subst received. now rewrite Hhead. }
  set (s := {| s_controller := newController st; s_phase := SReading buffered |}) in *.
  pose proof (run_ok received st st3 Hok Hreceived) as Hok3.
  split.
  - rewrite run_snoc, Hreceived, bind_Some, (step_error_stream st3 s e Hp3).
    destruct (stream_rejected_output s e st3 Hname) as (Ho & Hst & _).
    destruct (stream_rejected_spec s e st3) as (Hp & Hb' & _).
    subst shown. cbn [fmap option_fmap option_map].
    now rewrite Ho, Hst, Hb', Hp.
  - rewrite run_snoc, Hreceived, bind_Some. cbn [step]. unfold on_beforeunload.
    set (st4 := set_aborted (unload_handlers st3 ∪ aborted st3) st3).
    assert (Ha : s_controller s ∈ aborted st4).
    { apply elem_of_union_l. apply (ok_subscribed st3 (ok_resources st3 Hok3)).
      rewrite Hp3. cbn [subscriptions]. now apply elem_of_singleton. }
    rewrite (deliver_abort_stream s st4 Hp3 Ha).
    destruct (stream_rejected_cancelled s (Js.AbortError abort_message) st4 eq_refl)
      as (Ho & Hst).
    destruct (stream_rejected_spec s (Js.AbortError abort_message) st4)
      as (Hp & Hb' & _).
    subst shown. cbn [fmap option_fmap option_map].
    now rewrite Ho, Hst, Hb', Hp.
Qed.

(** *** The status indicator and its timers *)

(** What [updateStatus] leaves in [hideTimeout]. *)
Lemma updateStatus_hideTimeout (message type : string) (showSpinner : bool)
  (st : page) :
  si_hideTimeout (status (updateStatus message type showSpinner st))
  = if arms_fade type showSpinner then Some (next_timer st)
    else match si_hideTimeout (status st) with
         | Some (S _) => None
         | other => other
         end.
Proof.
  unfold updateStatus, arms_fade.
  destruct showSpinner; [|destruct (String.eqb type "success")]; exec st.
Qed.

Lemma updateStatus_display (message type : string) (st : page) :
  si_display (status (updateStatus message type false st))
  = if String.eqb type "info" then "none" else "block".
Proof.
  unfold updateStatus.
  destruct (String.eqb type "success"), (String.eqb type "info"); exec st.
Qed.

(** A success status arms one fade-out and records it; the next status,
    of whatever type, cancels it before it shows itself, so that a
    fade-out armed for an earlier status never fires on a later one. *)
Theorem status_fade_is_cancelled (message1 message2 type2 : string)
  (showSpinner2 : bool) (st : page) :
  next_timer st <> 0 ->
  let st1 := updateStatus message1 "success" false st in
  let st2 := updateStatus message2 type2 showSpinner2 st1 in
  timers st1 !! next_timer st = Some fade_timer
  /\ si_hideTimeout (status st1) = Some (next_timer st)
  /\ timers st2 !! next_timer st = None
  /\ step (TimerFires (next_timer st)) st2 = None
  /\ si_text (status st2) = message2.
Proof.
  intros Hn st1 st2.
  assert (Ht1 : timers st1 = <[next_timer st := fade_timer]> (hide_cancelled st))
    by apply updateStatus_timers.
  assert (Hh1 : si_hideTimeout (status st1) = Some (next_timer st))
    by apply updateStatus_hideTimeout.
  assert (Hn1 : next_timer st1 = S (next_timer st))
    by apply updateStatus_next_timer.
  assert (Hgone : timers st2 !! next_timer st = None).
  { subst st2. rewrite updateStatus_timers. unfold hide_cancelled. rewrite Hh1.
    destruct (next_timer st) as [|n] eqn:Hnext; [now destruct Hn|].
    destruct (arms_fade type2 showSpinner2).
    - rewrite Hn1, lookup_insert_ne by lia. apply lookup_delete_eq.
    - apply lookup_delete_eq. }
  split; [rewrite Ht1; apply lookup_insert_eq|]. split; [exact Hh1|].
  split; [exact Hgone|]. split.
  - unfold step. now rewrite Hgone.
  - apply updateStatus_text.
Qed.

(** The second timer of the fade-out, which hides the indicator 300 ms
    after it has faded, is recorded nowhere and is not cancelled: a status
    shown while it is pending is hidden when it fires, whatever its
    type. *)
Theorem pending_hide_timer_hides_newer_status (message type : string)
  (id : nat) (hide : timer) (st : page) :
  timers st !! id = Some hide ->
  t_callback hide = CbStatusHide ->
  si_hideTimeout (status st) <> Some id ->
  id < next_timer st ->
  String.eqb type "info" = false ->
  let st1 := updateStatus message type false st in
  si_display (status st1) = "block"
  /\ exists st2,
       step (TimerFires id) st1 = Some st2
       /\ si_text (status st2) = message
       /\ si_className (status st2) = "status-indicator " +:+ type
       /\ si_display (status st2) = "none".
Proof.
  intros Hid Hcb Hh Hlt Hinfo st1.
  assert (Hid1 : timers st1 !! id = Some hide).
  { subst st1. rewrite updateStatus_timers.
    assert (Hkept : hide_cancelled st !! id = Some hide).
    { unfold hide_cancelled.
      destruct (si_hideTimeout (status st)) as [[|k]|]; try exact Hid.
      rewrite lookup_delete_ne; [exact Hid | congruence]. }
    destruct (arms_fade type false); [|exact Hkept].
    rewrite lookup_insert_ne by lia. exact Hkept. }
  split.
  - subst st1. rewrite updateStatus_display. now rewrite Hinfo.
  - eexists. split; [exact (step_timer st1 id hide Hid1)|].
    rewrite Hcb. cbn [run_callback].
    assert (Hs : status (if t_repeat hide then st1 else clearTimer id st1) = status st1)
      by now destruct (t_repeat hide).
    unfold status_hide. cbn [status set_status si_text si_className si_display].
    rewrite Hs. subst st1.
    rewrite updateStatus_text, updateStatus_className. auto.
Qed.

(** *** Page load and the transcript *)

(** What the load leaves in the input area. *)
Lemma DOMContentLoaded_input (query : list (string * string)) (st0 : page) :
  input_html (DOMContentLoaded query st0)
  = match usable_videoId {| videoId := urlParams_get "videoId" query;
                            videoTitle := urlParams_get "videoTitle" query;
                            fullUrl := urlParams_get "fullUrl" query |} with
    | Some _ => loadingHTML
    | None => placeholderHTML
    end.
Proof.
  unfold DOMContentLoaded. cbv zeta.
  set (v := {| videoId := urlParams_get "videoId" query;
               videoTitle := urlParams_get "videoTitle" query;
               fullUrl := urlParams_get "fullUrl" query |}).
  repeat match goal with
         | |- context [usable_videoId (video ?X)] =>
             change (usable_videoId (video X)) with (usable_videoId v)
         end.
  destruct (usable_videoId v) as [id|]; read_storage_of st0;
    generalize (stored_flag "show_timestamp" st0), (stored_flag "use_streaming" st0),
      (stored_or "lastUsedProvider" "gemini" st0), (getItem "lastUsedModel" st0);
    intros showTimestamp useStreaming lastUsedProvider lastUsedModel;
    clearbody v; exec st0.
Qed.

(** At load the page asks for the transcript exactly when its address
    names a video by a non-empty [videoId], with the timestamp flag read
    from the storage, and shows the loading notice meanwhile; otherwise it
    shows the placeholder.  Either way the model list of the stored
    provider is requested last. *)
Theorem load_requests_transcript_iff_video (query : list (string * string))
  (st0 : page) :
  let st := DOMContentLoaded query st0 in
  let provider := stored_or "lastUsedProvider" "gemini" st0 in
  match urlParams_get "videoId" query with
  | Some (String a id) =>
      requests st
      = (requests st0
         ++ [GetTranscript (String a id) (stored_flag "show_timestamp" st0);
             GetModels provider])%list
      /\ input_html st = loadingHTML
  | _ =>
      requests st = (requests st0 ++ [GetModels provider])%list
      /\ input_html st = placeholderHTML
  end.
Proof.
  cbv zeta.
  destruct (DOMContentLoaded_reads query st0) as (_ & _ & _ & _ & _ & Hreq & _).
  rewrite Hreq, DOMContentLoaded_input. unfold usable_videoId. cbn [videoId].
  destruct (urlParams_get "videoId" query) as [[|a id]|]; cbn [JsString.truthy];
    rewrite <- ?app_assoc; auto.
Qed.

(** A change of the timestamp checkbox, on a page that shows a video,
    asks for the transcript again with the new state of the box; on a
    page without a video it sends nothing. *)
Theorem timestamp_toggle_refetches (st : page) :
  exists st',
    step ToggleTimestamp st = Some st'
    /\ match usable_videoId (video st) with
       | Some id =>
           requests st'
           = (requests st
              ++ [GetTranscript id (negb (timestamp_checked (form st)))])%list
           /\ waiting st' !! List.length (requests st) = Some KTranscript
           /\ input_html st' = loadingHTML
       | None => requests st' = requests st /\ input_html st' = input_html st
       end.
Proof.
  eexists. split; [reflexivity|].
  unfold on_timestamp_change. cbv zeta.
  change (video (setItem ?k ?v (set_checkboxes ?a ?b ?c st))) with (video st).
  generalize "show_timestamp". intros k.
  destruct (usable_videoId (video st)) as [id|].
  - split; [|split].
    + exec st.
    + unfold fetchAndDisplayTranscript, fetch_await. cbv zeta.
      change (waiting (fetch ?r ?s)) with (waiting s).
      change (waiting (set_waiting ?w ?s)) with w.
      rewrite updateStatus_requests. apply lookup_insert_eq.
    + exec st.
  - split; reflexivity.
Qed.

(** When the address names a video but carries no [videoTitle], no
    outcome of the transcript request is ever rendered: building the title
    block throws, in the [try] block and again in the [catch] block, and
    the page keeps what it showed but for a line on the console. *)
Theorem missing_title_blocks_transcript (o : outcome) (st : page) :
  videoTitle (video st) = None ->
  (exists e, transcript_settled o st
             = console_log ("자막 로딩 오류: " +:+ Js.message e) st)
  /\ input_html (transcript_settled o st) = input_html st
  /\ status (transcript_settled o st) = status st
  /\ char_counter (transcript_settled o st) = char_counter st.
Proof.
  intros Ht.
  assert (Hcatch : forall e, transcript_catch e st
                             = console_log ("자막 로딩 오류: " +:+ Js.message e) st).
  { intros e. unfold transcript_catch. cbv zeta.
    change (video (console_log ?l st)) with (video st). now rewrite Ht. }
  assert (Hsome : exists e, transcript_settled o st
                            = console_log ("자막 로딩 오류: " +:+ Js.message e) st).
  { unfold transcript_settled. rewrite Ht. cbn [trimmed_title].
    repeat case_match; eexists; apply Hcatch. }
  split; [exact Hsome|]. destruct Hsome as [e ->]. auto.
Qed.

(** *** Single-shot mode: the progress display *)

(** What a tick shows. *)
Lemma tick_progress (id p : nat) (st : page) :
  progress (run_callback id (CbProgress p) st)
  = {| pg_display := "flex"; pg_text := nth (next_phase p) progressSteps "";
       pg_width := 10 + Z.of_nat (next_phase p) * 20 |}.
Proof. unfold next_phase. exec st. Qed.

Lemma next_phase_capped (p : nat) : next_phase p = Nat.min (p + 1) 4.
Proof. reflexivity. Qed.

Lemma progressSteps_nth (i : nat) :
  i <= 4 -> nth i progressSteps "" ∈ progressSteps.
Proof.
  intros Hi. destruct i as [|[|[|[|[|i]]]]]; [| | | | |lia];
    cbn [nth progressSteps]; repeat first [apply list_elem_of_here | apply list_elem_of_further].
Qed.

(** The ticker walks through the five progress messages and stays on the
    last: after [n] ticks from phase [p] it is at phase [min (p + n) 4],
    the message shown is one of the five and the bar is at
    [10 + 20 * phase] percent, never beyond 90. *)
Theorem ticker_is_capped (n : nat) :
  forall (st : page) (id p : nat),
    timers st !! id = Some (ticker p) ->
    exists st',
      run (replicate (S n) (TimerFires id)) st = Some st'
      /\ timers st' !! id = Some (ticker (Nat.min (p + S n) 4))
      /\ pg_text (progress st') = nth (Nat.min (p + S n) 4) progressSteps ""
      /\ pg_text (progress st') ∈ progressSteps
      /\ pg_width (progress st') = (10 + 20 * Z.of_nat (Nat.min (p + S n) 4))%Z
      /\ (pg_width (progress st') <= 90)%Z.
Proof.
  induction n as [|n IH]; intros st id p Hticker.
  - destruct (tick_spec id p st) as (Ht & _).
    pose proof (tick_progress id p st) as Hpg.
    set (st' := run_callback id (CbProgress p) st) in *.
    exists st'. split.
    { cbn [replicate]. rewrite run_cons, (step_timer st id _ Hticker), bind_Some.
      reflexivity. }
    rewrite Hpg. cbn [pg_text pg_width]. rewrite next_phase_capped.
    split; [rewrite Ht, lookup_alter_eq, Hticker; reflexivity|].
    split; [reflexivity|]. split; [|split; [lia | lia]].
    apply progressSteps_nth. lia.
  - destruct (tick_spec id p st) as (Ht & _).
    set (st1 := run_callback id (CbProgress p) st) in *.
    assert (Hticker1 : timers st1 !! id = Some (ticker (next_phase p))).
    { rewrite Ht, lookup_alter_eq, Hticker. reflexivity. }
    destruct (IH st1 id (next_phase p) Hticker1)
      as (st' & Hrun & Ht' & Htext & Hin & Hw & Hle).
    assert (Hphase : Nat.min (next_phase p + S n) 4 = Nat.min (p + S (S n)) 4)
      by (rewrite next_phase_capped; lia).
    rewrite Hphase in *.
    exists st'. split; [|auto].
    change (replicate (S (S n)) (TimerFires id))
      with (TimerFires id :: replicate (S n) (TimerFires id)).
    rewrite run_cons, (step_timer st id _ Hticker), bind_Some. exact Hrun.
Qed.

(** *** Single-shot mode: success *)

Lemma regular_render_status (r : regular_attempt) (translated_text : option Js.json)
  (st : page) :
  si_text (status (regular_render r translated_text st)) = "준비 완료".
Proof.
  unfold regular_render.
  generalize "lastUsedProvider", "lastUsedModel", (Js.asTextContent translated_text).
  intros k1 k2 text. exec st.
Qed.

(** The completion display. *)
Lemma show_done_spec (inputText : string) (st : page) :
  let st' := show_done inputText st in
  si_text (status st') = pretty (JsString.length inputText) +:+ "자 번역 완료"
  /\ pg_display (progress st') = "none"
  /\ output_text st' = output_text st
  /\ button_disabled st' = button_disabled st.
Proof.
  unfold show_done.
  generalize (pretty (JsString.length inputText) +:+ "자 번역 완료"). intros line.
  exec st.
Qed.

(** The start of an attempt leaves no fade-out recorded. *)
Lemma regular_start_hideTimeout (st : page) :
  si_hideTimeout (status (regular_start st)) = None
  \/ si_hideTimeout (status (regular_start st)) = Some 0.
Proof.
  destruct st as [? ? ? ? ? ? si ? ? ? ? ? ? ? ? ? ? ? ?].
  destruct si as [? ? ? ? ? [[|?]|]]; vm_compute; auto.
Qed.

(** The two display updates before rendering touch neither the status
    nor the timers. *)
Lemma on_data_frame (st : page) :
  let st' := st |> updateProgressBar 90 |> showProgress "결과 표시중..." in
  status st' = status st /\ next_timer st' = next_timer st.
Proof. split; reflexivity. Qed.

(** A timer other than the recorded fade-out survives its cancellation. *)
Lemma hide_cancelled_kept (st : page) (id : nat) (t : timer) :
  (forall k, si_hideTimeout (status st) = Some k -> k <> id) ->
  timers st !! id = Some t -> hide_cancelled st !! id = Some t.
Proof.
  intros Hh Hid. unfold hide_cancelled.
  destruct (si_hideTimeout (status st)) as [[|k]|]; try exact Hid.
  rewrite lookup_delete_ne; [exact Hid | now apply Hh].
Qed.

(** What the completion timer runs when it fires. *)
Lemma done_timer_fires (id : nat) (inputText : string) (st : page) :
  Some (run_callback id (t_callback (done_timer inputText))
          (if t_repeat (done_timer inputText) then st else clearTimer id st))
  = Some (show_done inputText (clearTimer id st)).
Proof. reflexivity. Qed.

(** The events of a success lead to the rendering of the translation, by
    the attempt the click started, on a page that records no fade-out and
    whose timer counter is two past the click's. *)
Lemma success_path (st : page) (status : Z) (text : string)
  (v : Js.json) (translated_text : option Js.json) :
  ready_regular st = true ->
  response_ok status = true ->
  JSON_parse text = inl v ->
  Js.getField (type_error_message "data.translated_text") "translated_text" v
  = Js.Normal translated_text ->
  exists r st3,
    run [ClickTranslate; Response status; Body text] st
    = Some (regular_render r translated_text st3)
    /\ (r_timeoutId r = next_timer st /\ r_intervalId r = S (next_timer st)
        /\ r_inputText r = innerText st)
    /\ (si_hideTimeout (UI.status st3) = None
        \/ si_hideTimeout (UI.status st3) = Some 0)
    /\ next_timer st3 = S (S (next_timer st)).
Proof.
  intros Hready Hok Hparse Hfield.
  destruct (regular_start_spec st) as (Hp1 & _ & Hn1 & _).
  destruct (regular_on_response_spec (regular_started st) status (regular_start st))
    as (Hp2 & _ & Hn2 & _ & _ & _ & _ & _ & _ & _ & _ & Hs2).
  pose proof (regular_start_hideTimeout st) as Hh1.
  set (st2 := regular_on_response (regular_started st) status (regular_start st)) in *.
  destruct (on_data_frame st2) as [Hs3 Hn3].
  set (r2 := {| r_controller := r_controller (regular_started st);
                r_inputText := r_inputText (regular_started st);
                r_provider := r_provider (regular_started st);
                r_model := r_model (regular_started st);
                r_timeoutId := r_timeoutId (regular_started st);
                r_intervalId := r_intervalId (regular_started st);
                r_response := Some status |}) in *.
  exists r2, (st2 |> updateProgressBar 90 |> showProgress "결과 표시중...").
  split.
  { rewrite run_cons, (regular_dispatch st Hready), bind_Some, run_cons.
    rewrite (step_response_regular _ _ status Hp1 eq_refl), bind_Some, run_cons.
    fold st2. rewrite (step_body_regular st2 r2 status text Hp2 eq_refl), bind_Some.
    now rewrite (regular_on_body_rendered r2 status text v translated_text st2
                   Hok Hparse Hfield). }
  split; [repeat split|]. split.
  - rewrite Hs3, Hs2. exact Hh1.
  - now rewrite Hn3, Hn2, Hn1.
Qed.

(** The completion timer fires: the modal goes, the status line reports
    the length of the translated text, the output stays. *)
Lemma done_timer_shows (id : nat) (inputText : string) (st : page) :
  timers st !! id = Some (done_timer inputText) ->
  exists st',
    step (TimerFires id) st = Some st'
    /\ si_text (UI.status st')
       = pretty (JsString.length inputText) +:+ "자 번역 완료"
    /\ pg_display (progress st') = "none"
    /\ output_text st' = output_text st.
Proof.
  intros Hdone.
  destruct (show_done_spec inputText (clearTimer id st))
    as (Htext & Hpg & Hout & _).
  exists (show_done inputText (clearTimer id st)).
  split; [rewrite (step_timer st _ _ Hdone); apply done_timer_fires|].
  split; [exact Htext|]. split; [exact Hpg|]. now rewrite Hout.
Qed.

(** An OK response whose body parses: the output area is given the
    [translated_text] of the body (nothing when the field is missing or
    [null]), the attempt is over and the controls are enabled.  Half a
    second later the completion display hides the progress modal and
    reports the length of the text that was translated, as counted when
    the button was pressed. *)
Theorem translation_is_rendered (st : page) (status : Z) (text : string)
  (v : Js.json) (translated_text : option Js.json) :
  ready_regular st = true ->
  response_ok status = true ->
  JSON_parse text = inl v ->
  Js.getField (type_error_message "data.translated_text") "translated_text" v
  = Js.Normal translated_text ->
  exists st' st'',
    run [ClickTranslate; Response status; Body text] st = Some st'
    /\ output_text st' = Js.asTextContent translated_text
    /\ pending st' = None
    /\ button_disabled st' = false
    /\ input_editable st' = true
    /\ si_text (UI.status st') = "준비 완료"
    /\ timers st' !! S (S (next_timer st)) = Some (done_timer (innerText st))
    /\ step (TimerFires (S (S (next_timer st)))) st' = Some st''
    /\ si_text (UI.status st'')
       = pretty (JsString.length (innerText st)) +:+ "자 번역 완료"
    /\ pg_display (progress st'') = "none"
    /\ output_text st'' = Js.asTextContent translated_text.
Proof.
  intros Hready Hok Hparse Hfield.
  destruct (success_path st status text v translated_text Hready Hok Hparse Hfield)
    as (r2 & st3 & Hrun & Hr2 & Hs3 & Hn3).
  destruct (regular_render_spec r2 translated_text st3)
    as (Hout & Hp & Hb & He & _).
  pose proof (regular_render_status r2 translated_text st3) as Hstatus.
  pose proof (regular_render_timers r2 translated_text st3) as Htimers.
  set (st' := regular_render r2 translated_text st3) in *.
  clearbody st'.
  destruct Hr2 as (Hrt & Hri & Hrx).
  assert (Hdone : timers st' !! S (S (next_timer st))
                  = Some (done_timer (innerText st))).
  { rewrite Htimers, Hn3, Hrt, Hri, Hrx. rewrite lookup_insert_ne by lia.
    apply hide_cancelled_kept.
    - intros k Hk. change (UI.status (set_timers ?m st3)) with (UI.status st3) in Hk.
      destruct Hs3 as [Hs3|Hs3]; rewrite Hs3 in Hk; [discriminate|].
      injection Hk as <-. lia.
    - change (timers (set_timers ?m st3)) with m.
      rewrite !lookup_delete_ne by lia. apply lookup_insert_eq. }
  destruct (done_timer_shows _ _ _ Hdone) as (st'' & Hstep & Htext & Hpg & Hout'').
  exists st', st''.
  split; [exact Hrun|].
  split; [exact Hout|]. split; [exact Hp|]. split; [exact Hb|]. split; [exact He|].
  split; [exact Hstatus|]. split; [exact Hdone|].
  split; [exact Hstep|]. split; [exact Htext|]. split; [exact Hpg|].
  now rewrite Hout''.
Qed.

(** *** Single-shot mode: a request that gets no response *)

(** When [fetch] rejects before any response, the attempt ends with its
    timers cleared and the controls enabled, and the output area shows a
    message chosen from the error: the unreachable-server message for a
    [TypeError] whose text mentions "fetch", the generic message for any
    other error that is no [AbortError] and carries neither error tag. *)
Theorem network_failure_is_reported (st : page) (e : Js.error) :
  ready_regular st = true ->
  exists st',
    run [ClickTranslate; NetworkError e] st = Some st'
    /\ output_text st' = userFriendlyMessage e
    /\ console st' = (console st ++ ["번역 오류: " +:+ Js.message e])%list
    /\ pending st' = None
    /\ button_disabled st' = false /\ input_editable st' = true
    /\ timers st' !! next_timer st = None
    /\ timers st' !! S (next_timer st) = None
    /\ (Js.name e = "TypeError" ->
        JsString.includes (Js.message e) "fetch" = true ->
        output_text st' = msg_unreachable)
    /\ (String.eqb (Js.name e) "AbortError" = false ->
        String.eqb (Js.name e) "TypeError" = false ->
        JsString.includes (Js.message e) tag_input_error = false ->
        JsString.includes (Js.message e) tag_server_error = false ->
        output_text st' = msg_unknown).
Proof.
  intros Hready.
  destruct (regular_start_spec st)
    as (Hp1 & _ & Hn1 & _ & _ & _ & _ & _ & _ & _ & Hc1).
  destruct (regular_rejected_spec (regular_started st) e (regular_start st))
    as (Hout & Hp & Hb & He & _ & Hc & _ & _ & _ & _ & _ & Ht).
  assert (Hrun : run [ClickTranslate; NetworkError e] st
                 = Some (regular_rejected (regular_started st) e (regular_start st))).
  { rewrite run_cons, (regular_dispatch st Hready), bind_Some, run_cons.
    rewrite (step_error_regular _ _ e Hp1). reflexivity. }
  set (st' := regular_rejected (regular_started st) e (regular_start st)) in *.
  clearbody st'. rewrite Hn1 in Ht.
  exists st'. split; [exact Hrun|].
  split; [exact Hout|]. split; [now rewrite Hc, Hc1|].
  split; [exact Hp|]. split; [exact Hb|]. split; [exact He|].
  cbn [r_timeoutId r_intervalId regular_started] in Ht.
  split; [|split; [|split]].
  - destruct (timers st' !! next_timer st) as [t|] eqn:Hid; [|reflexivity].
    rewrite Ht, !lookup_insert_Some, !lookup_delete_Some in Hid.
    destruct Hid as [[Hn _]|(_ & Hn & _)]; [lia | now destruct Hn].
  - destruct (timers st' !! S (next_timer st)) as [t|] eqn:Hid; [|reflexivity].
    rewrite Ht, !lookup_insert_Some, !lookup_delete_Some in Hid.
    destruct Hid as [[Hn _]|(_ & _ & Hn & _)]; [lia | now destruct Hn].
  - intros Hname Hfetch. rewrite Hout. unfold userFriendlyMessage.
    now rewrite Hname, Hfetch.
  - intros Ha Hty Hi Hs. rewrite Hout. unfold userFriendlyMessage.
    now rewrite Ha, Hty, Hi, Hs.
Qed.

(** *** Single-shot mode: the order of the error branches *)

Lemma includes_after (a b needle : string) :
  JsString.includes b needle = true -> JsString.includes (a +:+ b) needle = true.
Proof.
  intros Hb. induction a as [|x a IH]; [exact Hb|].
  rewrite JsStringFacts.append_cons. now apply JsStringFacts.includes_cons.
Qed.

(** The [catch] handler looks for the input-error tag before the
    server-error tag, anywhere in the message: a 500 response whose detail
    happens to hold the input-error tag is rendered like an input error,
    with the whole thrown message, detail included, instead of the fixed
    backend-error message. *)
Theorem tagged_detail_bypasses_server_message (st : page) (text : string)
  (v : Js.json) (detail : string) :
  ready_regular st = true ->
  JSON_parse text = inl v ->
  Js.getField (type_error_message "err.detail") "detail" v
  = Js.Normal (Some (Js.JStr detail)) ->
  JsString.includes detail tag_input_error = true ->
  exists st',
    run [ClickTranslate; Response 500; Body text] st = Some st'
    /\ output_text st' = tag_server_error +:+ ": " +:+ detail
    /\ output_text st' <> msg_server
    /\ pending st' = None.
Proof.
  intros Hready Hparse Hfield Htag.
  assert (Htruthy : JsString.truthy detail = true).
  { destruct detail; [discriminate | reflexivity]. }
  destruct (regular_start_spec st) as (Hp1 & _).
  destruct (regular_on_response_spec (regular_started st) 500 (regular_start st))
    as (Hp2 & _).
  set (st2 := regular_on_response (regular_started st) 500 (regular_start st)) in *.
  set (r2 := {| r_controller := r_controller (regular_started st);
                r_inputText := r_inputText (regular_started st);
                r_provider := r_provider (regular_started st);
                r_model := r_model (regular_started st);
                r_timeoutId := r_timeoutId (regular_started st);
                r_intervalId := r_intervalId (regular_started st);
                r_response := Some 500%Z |}) in *.
  set (thrown := Js.Error (tag_server_error +:+ ": " +:+ detail)).
  assert (Hrun : run [ClickTranslate; Response 500; Body text] st
                 = Some (regular_rejected r2 thrown st2)).
  { rewrite run_cons, (regular_dispatch st Hready), bind_Some, run_cons.
    rewrite (step_response_regular _ _ 500 Hp1 eq_refl), bind_Some, run_cons.
    fold st2. rewrite (step_body_regular st2 r2 500 text Hp2 eq_refl), bind_Some.
    rewrite (regular_on_body_http_error r2 500 text v _ st2 eq_refl Hparse Hfield).
    unfold Js.orElse. cbn [Js.truthy Js.toStringU Js.toString]. now rewrite Htruthy. }
  destruct (regular_rejected_spec r2 thrown st2) as (Hout & Hp & _).
  set (st' := regular_rejected r2 thrown st2) in *. clearbody st'.
  assert (Hi : JsString.includes (tag_server_error +:+ ": " +:+ detail)
                 tag_input_error = true).
  { now apply includes_after, includes_after. }
  assert (Hshown : userFriendlyMessage thrown = tag_server_error +:+ ": " +:+ detail).
  { unfold userFriendlyMessage, thrown.
    change (Js.message (Js.Error ?m)) with m.
    change (Js.name (Js.Error ?m)) with "Error".
    change (String.eqb "Error" "AbortError") with false.
    change (String.eqb "Error" "TypeError") with false. cbn [andb].
    now rewrite Hi. }
  exists st'. split; [exact Hrun|]. rewrite Hout, Hshown.
  split; [reflexivity|]. split; [|exact Hp].
  unfold tag_server_error, msg_server. discriminate.
Qed.

End WithPlatform.

End UIFacts.

(** ** Runs of the model on the sample document *)

(** * The tab lifecycle manager *)

Module BackgroundFacts.
Import Background.

Section WithExtension.
Variable ui_page : string.

(** A new tab at [newUrl], focused and recorded in the session storage. *)
Lemma createTranslatorTab_spec (newId : Z) (newUrl : string) (b : browser) :
  newId <> 0%Z ->
  createTranslatorTab newId newUrl b
  = (inl tt, {| tabs := <[newId := {| url := newUrl |}]> (tabs b);
                focused := Some newId;
                session := <[TAB_KEY := newId]> (session b);
                console := console b |}).
Proof.
  intros Hid. unfold createTranslatorTab, bind, tabs_create, truthy.
  apply Z.eqb_neq in Hid. now rewrite Hid.
Qed.

(** A message that passes the two guards of the listener is handed to
    [reuseOrCreateTab] with the address of the UI. *)
Lemma onMessage_show (newId : Z) (request : message) (v : video_reference) :
  action request = "showVideoId" ->
  data request = Some v ->
  JsString.truthy (videoId v) = true ->
  onMessage ui_page newId request = reuseOrCreateTab newId (ui_url ui_page v).
Proof. intros Ha Hd Hv. unfold onMessage. now rewrite Ha, Hd, Hv. Qed.

(** The function branches on what the session storage holds. *)
Lemma reuseOrCreateTab_stored (newId : Z) (newUrl : string) (b : browser) :
  reuseOrCreateTab newId newUrl b
  = match session b !! TAB_KEY with
    | Some id =>
        if truthy id then
          try_catch
            (bind (tabs_get id) (fun tab_id => tabs_update tab_id newUrl))
            (fun error =>
               bind (console_log ("Translator tab with ID " +:+ pretty id
                                  +:+ " not found. Creating a new one."))
                 (fun _ => createTranslatorTab newId newUrl)) b
        else createTranslatorTab newId newUrl b
    | None => createTranslatorTab newId newUrl b
    end.
Proof.
  unfold reuseOrCreateTab, bind at 1, storage_get.
  destruct (session b !! TAB_KEY) as [id|]; [|reflexivity].
  now destruct (truthy id).
Qed.

(** C6.  A "showVideoId" message with a Video Reference whose id is not
    empty, while the browser hands out a non-zero id for a new tab.  If
    the session storage names a tab that is open, that tab is sent to the
    address of the UI for the reference and focused, and no tab is opened:
    the open tabs are the same, the stored reference too.  If the storage
    names no tab, or names a tab that is not open any more, a tab is
    opened at that address under the new id, focused, and the new id is
    stored; the closed tab's case differs from the other only by a line on
    the console.  In no case does the listener end in an error. *)
Theorem show_video_reuses_or_creates (newId : Z) (request : message)
  (v : video_reference) (b : browser) :
  action request = "showVideoId" ->
  data request = Some v ->
  JsString.truthy (videoId v) = true ->
  newId <> 0%Z ->
  let target := {| url := ui_url ui_page v |} in
  let created log :=
    {| tabs := <[newId := target]> (tabs b); focused := Some newId;
       session := <[TAB_KEY := newId]> (session b);
       console := (console b ++ log)%list |} in
  (forall id, session b !! TAB_KEY = Some id -> id <> 0%Z ->
     is_Some (tabs b !! id) ->
     onMessage ui_page newId request b
     = (inl tt, {| tabs := <[id := target]> (tabs b); focused := Some id;
                   session := session b; console := console b |})
     /\ dom (<[id := target]> (tabs b)) = dom (tabs b))
  /\ (session b !! TAB_KEY = None ->
      onMessage ui_page newId request b = (inl tt, created []))
  /\ (forall id, session b !! TAB_KEY = Some id -> id <> 0%Z ->
      tabs b !! id = None ->
      onMessage ui_page newId request b
      = (inl tt, created ["Translator tab with ID " +:+ pretty id
                          +:+ " not found. Creating a new one."])).
Proof.
  intros Ha Hd Hv Hnew target created.
  rewrite (onMessage_show newId request v Ha Hd Hv).
  rewrite reuseOrCreateTab_stored. split; [|split].
  - intros id Hs Hid [t Ht]. rewrite Hs. unfold truthy.
    apply Z.eqb_neq in Hid. rewrite Hid. cbn [negb].
    unfold try_catch, bind, tabs_get, tabs_update. rewrite Ht, Ht.
    split; [reflexivity|].
    apply dom_insert_lookup_L. eauto.
  - intros Hs. rewrite Hs, (createTranslatorTab_spec newId _ b Hnew).
    subst created. cbn beta. now rewrite app_nil_r.
  - intros id Hs Hid Ht. rewrite Hs. unfold truthy.
    apply Z.eqb_neq in Hid. rewrite Hid. cbn [negb].
    unfold try_catch, bind, tabs_get. rewrite Ht.
    unfold console_log. rewrite createTranslatorTab_spec by exact Hnew.
    reflexivity.
Qed.

(** A message that fails one of the listener's guards (another action, no
    data, an empty video id) changes nothing: no tab is opened or moved,
    the stored reference and the console stay as they are. *)
Theorem other_messages_are_ignored (newId : Z) (request : message) (b : browser) :
  action request <> "showVideoId"
  \/ data request = None
  \/ (exists v, data request = Some v /\ videoId v = "") ->
  onMessage ui_page newId request b = (inl tt, b).
Proof.
  intros Hguard. unfold onMessage.
  destruct (String.eqb (action request) "showVideoId") eqn:Ha; [|reflexivity].
  apply String.eqb_eq in Ha.
  destruct Hguard as [Hne|[Hd|(v & Hd & Hv)]].
  - now destruct Hne.
  - now rewrite Hd.
  - now rewrite Hd, Hv.
Qed.

(** As long as the stored reference names an open tab, the listener keeps
    it so and never fails: it moves the tracked tab, or opens one and
    tracks it, whatever the message and whatever id the browser gives the
    new tab. *)
Theorem tracked_reference_stays_live (newId : Z) (request : message) (b : browser) :
  tracked_ok b ->
  fst (onMessage ui_page newId request b) = inl tt
  /\ tracked_ok (snd (onMessage ui_page newId request b)).
Proof.
  intros Hok. unfold onMessage.
  destruct (String.eqb (action request) "showVideoId"); [|now split].
  destruct (data request) as [v|]; [|now split].
  destruct (JsString.truthy (videoId v)); [|now split].
  rewrite reuseOrCreateTab_stored.
  destruct (session b !! TAB_KEY) as [id|] eqn:Hs.
  - destruct (Hok id Hs) as [Hid [t Ht]]. unfold truthy.
    apply Z.eqb_neq in Hid. rewrite Hid. cbn [negb].
    unfold try_catch, bind, tabs_get, tabs_update. rewrite Ht, Ht.
    split; [reflexivity|]. intros id' Hs'. cbn in Hs'. cbn [snd tabs].
    rewrite Hs in Hs'. injection Hs' as <-. split.
    + now apply Z.eqb_neq.
    + rewrite lookup_insert_eq. eauto.
  - unfold createTranslatorTab, bind, tabs_create.
    destruct (truthy newId) eqn:Hnew.
    + split; [reflexivity|]. intros id' Hs'. cbn in Hs'.
      rewrite lookup_insert_eq in Hs'. injection Hs' as <-. split.
      * unfold truthy in Hnew. apply negb_true_iff in Hnew. now apply Z.eqb_neq.
      * cbn. rewrite lookup_insert_eq. eauto.
    + split; [reflexivity|]. intros id' Hs'. cbn in Hs'. congruence.
Qed.

(** When the browser closes a tab, the listener forgets the stored
    reference exactly when it named that tab, and logs it; the closing of
    any other tab leaves storage and console alone.  Either way the
    reference left, if any, names an open tab. *)
Theorem closing_tab_clears_reference (tabId : Z) (b : browser) :
  tracked_ok b ->
  let b' := snd (onRemoved tabId (close_tab tabId b)) in
  tracked_ok b'
  /\ tabs b' = delete tabId (tabs b)
  /\ (session b !! TAB_KEY = Some tabId ->
      session b' !! TAB_KEY = None
      /\ console b'
         = (console b ++ ["Translator tab with ID " +:+ pretty tabId
                          +:+ " closed. Removing from session storage."])%list)
  /\ (session b !! TAB_KEY <> Some tabId ->
      session b' = session b /\ console b' = console b).
Proof.
  intros Hok. cbv zeta. unfold onRemoved, bind, storage_get.
  cbn [close_tab session].
  destruct (bool_decide (session b !! TAB_KEY = Some tabId)) eqn:Hd.
  - apply bool_decide_eq_true_1 in Hd. cbn.
    split; [|split; [reflexivity|split]].
    + intros id Hs. cbn in Hs. now rewrite lookup_delete_eq in Hs.
    + intros _. split; [apply lookup_delete_eq | reflexivity].
    + intros Hne. now destruct Hne.
  - apply bool_decide_eq_false_1 in Hd. cbn.
    split; [|split; [reflexivity|split]].
    + intros id Hs. cbn in Hs. destruct (Hok id Hs) as [Hid [t Ht]].
      split; [exact Hid|]. cbn. rewrite lookup_delete_ne; [eauto | congruence].
    + intros Hs. now destruct Hd.
    + intros _. split; reflexivity.
Qed.

End WithExtension.

(** The navigation listener looks for "youtube.com/watch" anywhere in the
    address: every address that holds it, in its host, its path or its
    query, gets [content.js] injected into its tab, and an address that is
    missing or empty never does. *)
Theorem watch_address_gets_content_script (tabId : Z) :
  (forall before after,
      onHistoryStateUpdated (Some (before +:+ "youtube.com/watch" +:+ after)) tabId
      = Some (tabId, ["content.js"]))
  /\ onHistoryStateUpdated None tabId = None
  /\ onHistoryStateUpdated (Some "") tabId = None
  /\ (forall u injected,
      onHistoryStateUpdated (Some u) tabId = Some injected ->
      injected = (tabId, ["content.js"])
      /\ JsString.includes u "youtube.com/watch" = true).
Proof.
  split; [|split; [reflexivity|split; [reflexivity|]]].
  - intros before after. unfold onHistoryStateUpdated.
    rewrite JsStringFacts.includes_middle, andb_true_r.
    destruct before; reflexivity.
  - intros u injected. unfold onHistoryStateUpdated.
    destruct (JsString.truthy u), (JsString.includes u "youtube.com/watch");
      cbn; intros Hi; try discriminate.
    injection Hi as <-. auto.
Qed.

End BackgroundFacts.

(** * From the background script to the page: the Video Reference *)

Module HandoverFacts.
Import JsString JsStringFacts.

(** ** The serializer, byte by byte *)

Lemma form_urlencode_cons (a : ascii) (r : string) :
  Background.form_urlencode (String a r)
  = Background.form_urlencode (String a "") +:+ Background.form_urlencode r.
Proof.
  cbn [Background.form_urlencode].
  repeat match goal with |- context [if ?c then _ else _] => destruct c end;
    reflexivity.
Qed.

(** A serialized byte holds neither [&] nor [=]. *)
Lemma form_urlencode_byte_plain (a : ascii) :
  includes (Background.form_urlencode (String a "")) "&" = false
  /\ includes (Background.form_urlencode (String a "")) "=" = false.
Proof. destruct a as [[] [] [] [] [] [] [] []]; split; reflexivity. Qed.

(** The parser's decoding undoes it, whatever follows. *)
Lemma plus_to_space_app (a b : string) :
  UI.plus_to_space (a +:+ b) = UI.plus_to_space a +:+ UI.plus_to_space b.
Proof.
  induction a as [|x a IH]; [reflexivity|].
  rewrite append_cons. cbn [UI.plus_to_space]. now rewrite IH, append_cons.
Qed.

Lemma percent_decode_byte (a : ascii) (r : string) :
  UI.percent_decode
    (UI.plus_to_space (Background.form_urlencode (String a "")) +:+ r)
  = String a (UI.percent_decode r).
Proof. destruct a as [[] [] [] [] [] [] [] []]; reflexivity. Qed.

(** What [URLSearchParams] serializes, it parses back. *)
Lemma form_urldecode_encode (s : string) :
  UI.form_urldecode (Background.form_urlencode s) = s.
Proof.
  unfold UI.form_urldecode. induction s as [|a r IH]; [reflexivity|].
  now rewrite form_urlencode_cons, plus_to_space_app, percent_decode_byte, IH.
Qed.

Lemma includes_char_app (c : ascii) (a b : string) :
  includes (a +:+ b) (String c "")
  = includes a (String c "") || includes b (String c "").
Proof.
  induction a as [|x a IH].
  - rewrite append_nil. now destruct b.
  - now rewrite append_cons, !includes_char, IH, orb_assoc.
Qed.

Lemma form_urlencode_plain (s : string) :
  includes (Background.form_urlencode s) "&" = false
  /\ includes (Background.form_urlencode s) "=" = false.
Proof.
  induction s as [|a r [IH1 IH2]]; [split; reflexivity|].
  destruct (form_urlencode_byte_plain a) as [H1 H2].
  now rewrite form_urlencode_cons, !includes_char_app, H1, H2, IH1, IH2.
Qed.

(** ** Cutting a string that holds the separator once *)

Lemma split_on_plain (c : ascii) (a : string) :
  includes a (String c "") = false -> UI.split_on c a = [a].
Proof.
  induction a as [|x a IH]; [reflexivity|].
  rewrite includes_char. intros Hx. apply orb_false_elim in Hx as [Hx Ha].
  cbn [UI.split_on]. now rewrite Hx, (IH Ha).
Qed.

Lemma split_on_app (c : ascii) (a b : string) :
  includes a (String c "") = false ->
  UI.split_on c (a +:+ String c b) = a :: UI.split_on c b.
Proof.
  induction a as [|x a IH]; intros Ha.
  - rewrite append_nil. cbn [UI.split_on]. now rewrite Ascii.eqb_refl.
  - rewrite includes_char in Ha. apply orb_false_elim in Ha as [Hx Ha].
    rewrite append_cons. cbn [UI.split_on]. now rewrite Hx, (IH Ha).
Qed.

Lemma split_first_app (c : ascii) (a b : string) :
  includes a (String c "") = false ->
  UI.split_first c (a +:+ String c b) = (a, b).
Proof.
  induction a as [|x a IH]; intros Ha.
  - rewrite append_nil. cbn [UI.split_first]. now rewrite Ascii.eqb_refl.
  - rewrite includes_char in Ha. apply orb_false_elim in Ha as [Hx Ha].
    rewrite append_cons. cbn [UI.split_first]. now rewrite Hx, (IH Ha).
Qed.

(** One [name=value] piece, the value serialized. *)
Lemma piece_parsed (name value : string) :
  includes name "=" = false ->
  (let '(n, v) := UI.split_first "=" (name +:+ "=" +:+ Background.form_urlencode value) in
   (UI.form_urldecode n, UI.form_urldecode v))
  = (UI.form_urldecode name, value).
Proof.
  intros Hname.
  change (name +:+ "=" +:+ Background.form_urlencode value)
    with (name +:+ String "=" (Background.form_urlencode value)).
  rewrite (split_first_app "=" name _ Hname). now rewrite form_urldecode_encode.
Qed.

Lemma piece_plain (name value : string) :
  includes name "&" = false ->
  includes (name +:+ "=" +:+ Background.form_urlencode value) "&" = false.
Proof.
  intros Hname. destruct (form_urlencode_plain value) as [Hv _].
  change (name +:+ "=" +:+ Background.form_urlencode value)
    with (name +:+ ("=" +:+ Background.form_urlencode value)).
  now rewrite !includes_char_app, Hname, Hv.
Qed.

Section WithPlatform.
Context `{Platform}.
Import UI.

(** The query string [ui_url] builds for a Video Reference. *)
Lemma ui_url_search (ui_page : string) (v : Background.video_reference) :
  Background.ui_url ui_page v
  = ui_page +:+ "?" +:+ ("videoId" +:+ "=" +:+ Background.form_urlencode (Background.videoId v))
    +:+ "&" +:+ ("videoTitle" +:+ "=" +:+ Background.form_urlencode (Background.videoTitle v))
    +:+ "&" +:+ ("fullUrl" +:+ "=" +:+ Background.form_urlencode (Background.fullUrl v)).
Proof.
  unfold Background.ui_url. now rewrite !app_assoc.
Qed.

(** The page that the background script opens for a Video Reference
    reads back, from its address, exactly the reference's three fields,
    whatever characters they hold. *)
Theorem video_reference_survives_the_url (ui_page : string)
  (v : Background.video_reference) (st0 : page) :
  exists search,
    Background.ui_url ui_page v = ui_page +:+ search
    /\ parse_query search
       = [("videoId", Background.videoId v);
          ("videoTitle", Background.videoTitle v);
          ("fullUrl", Background.fullUrl v)]
    /\ video (DOMContentLoaded (parse_query search) st0)
       = {| videoId := Some (Background.videoId v);
            videoTitle := Some (Background.videoTitle v);
            fullUrl := Some (Background.fullUrl v) |}.
Proof.
  set (p1 := "videoId" +:+ "=" +:+ Background.form_urlencode (Background.videoId v)).
  set (p2 := "videoTitle" +:+ "=" +:+ Background.form_urlencode (Background.videoTitle v)).
  set (p3 := "fullUrl" +:+ "=" +:+ Background.form_urlencode (Background.fullUrl v)).
  exists ("?" +:+ p1 +:+ "&" +:+ p2 +:+ "&" +:+ p3).
  assert (Hparse : parse_query ("?" +:+ p1 +:+ "&" +:+ p2 +:+ "&" +:+ p3)
                   = [("videoId", Background.videoId v);
                      ("videoTitle", Background.videoTitle v);
                      ("fullUrl", Background.fullUrl v)]).
  { unfold parse_query.
    change ("?" +:+ p1 +:+ "&" +:+ p2 +:+ "&" +:+ p3)
      with (String "?" (p1 +:+ String "&" (p2 +:+ String "&" p3))).
    cbn [Ascii.eqb Bool.eqb].
    rewrite (split_on_app "&" p1) by now apply piece_plain.
    rewrite (split_on_app "&" p2) by now apply piece_plain.
    rewrite (split_on_plain "&" p3) by now apply piece_plain.
    rewrite !filter_cons, filter_nil.
    rewrite !decide_True by (subst p1 p2 p3; discriminate).
    cbn [map]. subst p1 p2 p3.
    now rewrite !piece_parsed. }
  split; [apply ui_url_search|]. split; [exact Hparse|].
  destruct (UIFacts.DOMContentLoaded_reads
              (parse_query ("?" +:+ p1 +:+ "&" +:+ p2 +:+ "&" +:+ p3)) st0)
    as (_ & _ & _ & _ & Hv & _).
  rewrite Hv, Hparse. reflexivity.
Qed.

End WithPlatform.

End HandoverFacts.

Module Scenarios.
Import UI UIFacts Sample.

(** Two spaces in the input area, in single-shot mode. *)
Lemma blank_input_is_rejected_witness :
  JsString.only_whitespace (innerText (document "  " ∅))
  /\ step ClickTranslate (document "  " ∅)
     = Some (updateStatus msg_empty_input "error" false (document "  " ∅))
  /\ requests (updateStatus msg_empty_input "error" false (document "  " ∅)) = [].
Proof.
  assert (Hblank : JsString.only_whitespace (innerText (document "  " ∅))).
  { exists [" "; " "]. split; [|reflexivity].
    repeat constructor; vm_compute; repeat constructor. }
  split; [exact Hblank|].
  destruct (blank_input_is_rejected (H := browser) (document "  " ∅) Hblank eq_refl eq_refl)
    as (Hreg & _ & st' & Hstep & Hreq & _).
  split; [|reflexivity].
  unfold step, on_click. simpl. now rewrite Hreg.
Defined.

(** The fragments "안", "녕", "하세요" of the specification's example. *)
Lemma stream_output_is_concatenation_witness :
  button_disabled (streaming_document "hello") = false
  /\ streaming_checked (form (streaming_document "hello")) = true
  /\ JsString.truthy (JsString.trim (innerText (streaming_document "hello"))) = true
  /\ response_ok 200 = true
  /\ output_text
       <$> run (ClickTranslate :: Response 200
                :: map Chunk (take 2 greeting_values)) (streaming_document "hello")
     = Some "안녕"
  /\ output_text
       <$> run (ClickTranslate :: Response 200
                :: (map Chunk greeting_values ++ [EndOfStream]))%list
             (streaming_document "hello")
     = Some "안녕하세요".
Proof.
  destruct (stream_output_is_concatenation (H := browser) (streaming_document "hello") 200
              greeting_values eq_refl eq_refl eq_refl eq_refl)
    as (Hprefix & _ & _ & Hall).
  do 4 (split; [reflexivity|]). split; [exact (Hprefix 2) | exact Hall].
Defined.

(** The specification's example: a 400 response with detail "empty text". *)
Lemma http_error_is_classified_witness :
  ready_regular (document "hello" ∅) = true
  /\ response_ok 400 = false
  /\ JSON_parse (detail_body "empty text")
     = inl (Js.JObj [("detail", Js.JStr "empty text")])
  /\ Js.getField (type_error_message "err.detail") "detail"
       (Js.JObj [("detail", Js.JStr "empty text")])
     = Js.Normal (Some (Js.JStr "empty text"))
  /\ output_text
       <$> run [ClickTranslate; Response 400; Body (detail_body "empty text")]
             (document "hello" ∅)
     = Some "입력 오류: empty text".
Proof.
  do 4 (split; [reflexivity|]).
  destruct (http_error_is_classified (H := browser) (document "hello" ∅) 400
              (detail_body "empty text")
              (Js.JObj [("detail", Js.JStr "empty text")])
              (Some (Js.JStr "empty text")) eq_refl eq_refl eq_refl eq_refl)
    as (st' & Hrun & _ & _ & _ & H400 & _).
  rewrite Hrun. destruct (H400 eq_refl) as [_ Hout].
  unfold fmap, option_fmap, option_map. now rewrite Hout.
Defined.

(** A 500 response with detail "quota" renders the fixed backend-error
    message, and a 404 response the generic one: neither shows the detail,
    and the status line ends on "준비 완료". *)
Lemma server_error_hides_detail :
  output_text
    <$> run [ClickTranslate; Response 500; Body (detail_body "quota")]
          (document "hello" ∅)
  = Some msg_server
  /\ JsString.includes msg_server "quota" = false
  /\ (fun st => si_text (status st))
       <$> run [ClickTranslate; Response 500; Body (detail_body "quota")]
             (document "hello" ∅)
     = Some "준비 완료"
  /\ output_text
       <$> run [ClickTranslate; Response 404; Body (detail_body "quota")]
             (document "hello" ∅)
     = Some msg_unknown
  /\ JsString.includes msg_unknown "quota" = false.
Proof. vm_compute. repeat split; reflexivity. Qed.

(** Ticks at ids 2, 2, 2, then the timeout at id 1. *)
Lemma timeout_aborts_and_reenables_witness :
  ready_regular (document "hello" ∅) = true
  /\ (fun st => (output_text st, button_disabled st, input_editable st, pending st))
       <$> run (ClickTranslate :: replicate 3 (TimerFires 2) ++ [TimerFires 1])%list
             (document "hello" ∅)
     = Some (msg_timeout, false, true, None).
Proof.
  split; [reflexivity|].
  destruct (timeout_aborts_and_reenables (H := browser) (document "hello" ∅) 3 eq_refl)
    as (st1 & st2 & st3 & Hclick & _ & _ & Hticks & _ & _ & Hfire & _ & Hout & _ & _
        & Hb & He & Hp & _).
  change (S (next_timer (document "hello" ∅))) with 2 in Hticks.
  change (next_timer (document "hello" ∅)) with 1 in Hfire.
  rewrite run_cons, Hclick, bind_Some, run_snoc, Hticks, bind_Some, Hfire.
  unfold fmap, option_fmap, option_map. now rewrite Hout, Hb, He, Hp.
Defined.

(** The document is well formed before its first event. *)
Lemma document_ok (text : string) (storage : gmap string string) :
  page_ok (document text storage).
Proof.
  split; [split|..]; cbn.
  - intros id t Hid. now rewrite lookup_empty in Hid.
  - intros id t Hid. now rewrite lookup_empty in Hid.
  - intros id [].
  - intros id t c Hid. now rewrite lookup_empty in Hid.
  - reflexivity.
  - reflexivity.
  - auto.
  - discriminate.
Qed.

(** A click on "hello", a 200 response, then its body: the success path of
    single-shot mode. *)
Lemma attempt_releases_its_resources_witness :
  let st := after [ClickTranslate; Response 200] (document "hello" ∅) in
  let st' := after [ClickTranslate; Response 200; Body translated_body]
               (document "hello" ∅) in
  page_ok (document "hello" ∅)
  /\ run [ClickTranslate; Response 200] (document "hello" ∅) = Some st
  /\ pending st = Some (Regular (hello_attempt 200))
  /\ step (Body translated_body) st = Some st'
  /\ pending st' = None
  /\ timers st' !! 1 = None /\ timers st' !! 2 = None
  /\ button_disabled st' = false /\ input_editable st' = true.
Proof.
  intros st st'.
  assert (Hrun : run [ClickTranslate; Response 200] (document "hello" ∅) = Some st)
    by (vm_compute; reflexivity).
  assert (Hp : pending st = Some (Regular (hello_attempt 200)))
    by (vm_compute; reflexivity).
  assert (Hstep : step (Body translated_body) st = Some st')
    by (vm_compute; reflexivity).
  destruct (attempt_releases_its_resources (H := browser) _ _ _ _ _ _
              (document_ok "hello" ∅) Hrun Hp Hstep) as (Hends & Hover & _).
  pose proof (Hends eq_refl) as Hp'.
  destruct (Hover Hp') as ((Ht & Hi) & Hb & He & _).
  split; [apply document_ok|]. split; [exact Hrun|]. split; [exact Hp|].
  split; [exact Hstep|]. split; [exact Hp'|]. split; [exact Ht|].
  split; [exact Hi|]. split; [exact Hb | exact He].
Defined.

(** After the same success the attempt is over, yet the deferred completion
    display and the fade-out of the final status are still pending. *)
Lemma display_timers_outlive_attempt :
  (fun st => (pending st, t_callback <$> timers st !! 3,
              t_callback <$> timers st !! 4))
    <$> run [ClickTranslate; Response 200; Body translated_body]
          (document "hello" ∅)
  = Some (None, Some (CbShowDone "hello"), Some CbStatusFade).
Proof. vm_compute. reflexivity. Qed.

(** The transcript "a <b> & c" for a page opened on video "abc". *)
Lemma transcript_is_escaped_or_error_witness :
  let st := set_video {| videoId := Some "abc"; videoTitle := Some " A talk ";
                         fullUrl := Some "https://youtu.be/abc" |}
              (document "" ∅) in
  JSON_parse transcript_body = inl (Js.JObj [("transcript", Js.JStr "a <b> & c")])
  /\ videoTitle (video st) = Some " A talk "
  /\ requests (fetchAndDisplayTranscript "abc" st) = [GetTranscript "abc" false]
  /\ input_html
       <$> step (Settled 0 (Responded 200 transcript_body))
             (fetchAndDisplayTranscript "abc" st)
     = Some (titleHTML "A talk" +:+ urlHTML "https://youtu.be/abc"
             +:+ "a &lt;b&gt; &amp; c").
Proof.
  intros st. do 2 (split; [reflexivity|]).
  destruct (transcript_is_escaped_or_error (H := browser) st "abc"
              (Responded 200 transcript_body))
    as (st' & Hrequests & Hstep & Htitled & _).
  split; [exact Hrequests|].
  destruct (Htitled " A talk " eq_refl) as [Hok _].
  destruct (Hok 200%Z transcript_body
              (Js.JObj [("transcript", Js.JStr "a <b> & c")]) "a <b> & c"
              eq_refl eq_refl eq_refl eq_refl) as [Hrendered _].
  change (List.length (requests st)) with 0 in Hstep.
  rewrite Hstep. unfold fmap, option_fmap, option_map. rewrite Hrendered.
  vm_compute. reflexivity.
Defined.

(** Failures that show neither a detail nor the fallback message: a 502
    response whose body is no JSON shows the parser's message, a network
    failure the message of its exception; and on a page whose address
    carries no title, a 500 response with detail "quota" leaves the loading
    notice in place. *)
Lemma transcript_failure_shows_exception :
  let st := set_video {| videoId := Some "abc"; videoTitle := Some "A talk";
                         fullUrl := Some "https://youtu.be/abc" |}
              (document "" ∅) in
  let shown o st := input_html <$> step (Settled 0 o) (fetchAndDisplayTranscript "abc" st) in
  shown (Responded 502 "Bad Gateway") st
  = Some (titleHTML "A talk" +:+ urlHTML "https://youtu.be/abc"
          +:+ errorHTML "Unexpected token in JSON: Bad Gateway")
  /\ JsString.includes (errorHTML "Unexpected token in JSON: Bad Gateway")
       "자막을 불러올 수 없습니다." = false
  /\ shown (Failed (Js.TypeError "Failed to fetch")) st
     = Some (titleHTML "A talk" +:+ urlHTML "https://youtu.be/abc"
             +:+ errorHTML "Failed to fetch")
  /\ JsString.includes (errorHTML "Failed to fetch") "자막을 불러올 수 없습니다." = false
  /\ shown (Responded 500 (detail_body "quota")) untitled_document = Some loadingHTML
  /\ JsString.includes loadingHTML "quota" = false.
Proof. vm_compute. repeat split; reflexivity. Qed.

(** A 502 response whose body is the text "Bad Gateway", in streaming mode. *)
Lemma stream_error_body_is_parsed_witness :
  button_disabled (streaming_document "hello") = false
  /\ streaming_checked (form (streaming_document "hello")) = true
  /\ JsString.truthy (JsString.trim (innerText (streaming_document "hello"))) = true
  /\ response_ok 502 = false
  /\ JSON_parse "Bad Gateway" = inr "Unexpected token in JSON: Bad Gateway"
  /\ output_text
       <$> run [ClickTranslate; Response 502; Body "Bad Gateway"]
             (streaming_document "hello")
     = Some "오류: Unexpected token in JSON: Bad Gateway".
Proof.
  do 5 (split; [reflexivity|]).
  destruct (stream_error_body_is_parsed (H := browser) (streaming_document "hello")
              502 "Bad Gateway" eq_refl eq_refl eq_refl) as [Hbad _].
  destruct (Hbad eq_refl) as (st' & Hrun & _ & _ & Hsyntax & _).
  rewrite Hrun. destruct (Hsyntax _ eq_refl) as [Hout _].
  unfold fmap, option_fmap, option_map. now rewrite Hout.
Defined.


(** A message for video "abc" while tab 7 is tracked and open. *)
Lemma show_video_reuses_or_creates_witness :
  let v := {| Background.videoId := "abc"; Background.videoTitle := "A talk";
              Background.fullUrl := "https://youtu.be/abc" |} in
  let request := {| Background.action := "showVideoId"; Background.data := Some v |} in
  let b := {| Background.tabs := {[ 7%Z := {| Background.url := "about:blank" |} ]};
              Background.focused := None;
              Background.session := {[ Background.TAB_KEY := 7%Z ]};
              Background.console := [] |} in
  Background.action request = "showVideoId"
  /\ JsString.truthy (Background.videoId v) = true
  /\ Background.session b !! Background.TAB_KEY = Some 7%Z
  /\ Background.onMessage "ui.html" 8 request b
     = (inl tt,
        {| Background.tabs :=
             {[ 7%Z := {| Background.url :=
                  "ui.html?videoId=abc&videoTitle=A+talk&fullUrl=https%3A%2F%2Fyoutu.be%2Fabc" |} ]};
           Background.focused := Some 7%Z;
           Background.session := {[ Background.TAB_KEY := 7%Z ]};
           Background.console := [] |}).
Proof.
  intros v request b.
  destruct (BackgroundFacts.show_video_reuses_or_creates "ui.html" 8 request v b
              eq_refl eq_refl eq_refl) as [Hreuse _]; [discriminate|].
  destruct (Hreuse 7%Z) as [Hrun _];
    [reflexivity | discriminate | eexists; reflexivity |].
  do 3 (split; [reflexivity|]). rewrite Hrun. vm_compute. reflexivity.
Defined.

(** The provider select goes from "gemini" to "openai": the select shows
    the new provider, the storage holds no [lastUsedProvider]. *)
Lemma provider_change_is_not_stored :
  (fun st => (provider (form st), getItem "lastUsedProvider" st))
    <$> step (ChangeProvider "openai") (document "hello" ∅)
  = Some ("openai", None).
Proof. vm_compute. reflexivity. Qed.

(** The streaming document is well formed too. *)
Lemma streaming_document_ok (text : string) : page_ok (streaming_document text).
Proof.
  apply (page_ok_quiet (document text ∅)); [apply document_ok|].
  apply quiet_set_checkboxes.
Qed.

(** One click on "hello": the attempt is in flight, a second click is
    impossible. *)
Lemma one_attempt_at_a_time_witness :
  page_ok (document "hello" ∅)
  /\ run [ClickTranslate] (document "hello" ∅)
     = Some (after [ClickTranslate] (document "hello" ∅))
  /\ button_disabled (after [ClickTranslate] (document "hello" ∅)) = true
  /\ step ClickTranslate (after [ClickTranslate] (document "hello" ∅)) = None.
Proof.
  assert (Hrun : run [ClickTranslate] (document "hello" ∅)
                 = Some (after [ClickTranslate] (document "hello" ∅)))
    by (vm_compute; reflexivity).
  destruct (one_attempt_at_a_time (H := browser) _ _ _ (document_ok "hello" ∅) Hrun)
    as [Hbusy _].
  edestruct Hbusy as [Hb Hs]; [vm_compute; reflexivity|].
  split; [apply document_ok|]. split; [exact Hrun|]. split; [exact Hb | exact Hs].
Defined.

(** After the response to a click on "hello": timer 1, the timeout, is
    gone, timer 2, the ticker, is pending. *)
Lemma response_clears_timeout_witness :
  ready_regular (document "hello" ∅) = true
  /\ (fun st2 => (timers st2 !! 1, timers st2 !! 2, step (TimerFires 1) st2))
       <$> run [ClickTranslate; Response 200] (document "hello" ∅)
     = Some (None, Some (ticker 0), None).
Proof.
  split; [reflexivity|].
  destruct (response_clears_timeout (H := browser) (document "hello" ∅) 200 eq_refl)
    as (st2 & Hrun & Hgone & Hstep & Hticker & _).
  rewrite Hrun. cbn [fmap option_fmap option_map].
  change (next_timer (document "hello" ∅)) with 1 in *.
  now rewrite Hgone, Hstep, Hticker.
Defined.

(** A click in streaming mode while the model select still shows the
    loading label: that label is sent as the model. *)
Lemma streaming_has_no_model_guard_witness :
  button_disabled (loading_document "hello") = false
  /\ streaming_checked (form (loading_document "hello")) = true
  /\ model_unusable (model (form (loading_document "hello"))) = true
  /\ exists st',
       step ClickTranslate (loading_document "hello") = Some st'
       /\ last (requests st')
          = Some (PostTranslate true "hello" "모델 로딩 중..." "ko" false).
Proof.
  do 3 (split; [reflexivity|]).
  destruct (streaming_has_no_model_guard (H := browser) (loading_document "hello")
              eq_refl eq_refl eq_refl) as (st' & Hstep & Hlast & _).
  exists st'. split; [exact Hstep | exact Hlast].
Defined.

(** The list ["gemini-pro", "gemini-flash"] arrives: a stored
    "gemini-flash" is selected, a stored "gemini-ultra" leaves the select
    empty. *)
Lemma stored_model_is_selected_if_listed_witness :
  JSON_parse (Platform := registry_browser) models_body
  = inl (Js.JArr [Js.JStr "gemini-pro"; Js.JStr "gemini-flash"])
  /\ model (form (models_settled (H := registry_browser) (Some "gemini-flash")
                    (Responded 200 models_body) (document "" ∅)))
     = "gemini-flash"
  /\ model (form (models_settled (H := registry_browser) (Some "gemini-ultra")
                    (Responded 200 models_body) (document "" ∅)))
     = "".
Proof.
  split; [reflexivity|]. split.
  - destruct (stored_model_is_selected_if_listed (H := registry_browser)
                (Some "gemini-flash") 200 models_body
                [Js.JStr "gemini-pro"; Js.JStr "gemini-flash"]
                ["gemini-pro"; "gemini-flash"] (document "" ∅)
                eq_refl eq_refl eq_refl) as (_ & Hsel & _); [discriminate|].
    destruct (Hsel "gemini-flash" eq_refl eq_refl) as [Hin _].
    apply Hin. apply list_elem_of_further, list_elem_of_here.
  - destruct (stored_model_is_selected_if_listed (H := registry_browser)
                (Some "gemini-ultra") 200 models_body
                [Js.JStr "gemini-pro"; Js.JStr "gemini-flash"]
                ["gemini-pro"; "gemini-flash"] (document "" ∅)
                eq_refl eq_refl eq_refl) as (_ & Hsel & _); [discriminate|].
    destruct (Hsel "gemini-ultra" eq_refl eq_refl) as [_ Hout].
    apply Hout. intros Hin.
    repeat (apply elem_of_cons in Hin as [Hin|Hin]; [discriminate|]).
    now apply elem_of_nil in Hin.
Defined.

(** The greeting is streamed in full, then the connection fails. *)
Lemma stream_failure_replaces_output_witness :
  page_ok (streaming_document "hello")
  /\ output_text
       <$> run (ClickTranslate :: Response 200 :: map Chunk greeting_values
                ++ [NetworkError (Js.TypeError "network error")])%list
             (streaming_document "hello")
     = Some "오류: network error".
Proof.
  split; [apply streaming_document_ok|].
  destruct (stream_failure_replaces_output (H := browser) (streaming_document "hello")
              200 greeting_values (Js.TypeError "network error")
              (streaming_document_ok "hello") eq_refl eq_refl eq_refl eq_refl eq_refl)
    as [Hfail _].
  apply (f_equal (fmap (fun shown => shown.1.1.1))) in Hfail.
  rewrite <- option_fmap_compose in Hfail. exact Hfail.
Defined.

(** "saved" as a success, then "failed" as an error, on the fresh
    document: the fade-out armed for "saved" under id 1 is gone. *)
Lemma status_fade_is_cancelled_witness :
  next_timer (document "" ∅) <> 0
  /\ timers (updateStatus "failed" "error" false
               (updateStatus "saved" "success" false (document "" ∅))) !! 1
     = None.
Proof.
  split; [discriminate|].
  destruct (status_fade_is_cancelled (H := browser) "saved" "failed" "error" false
              (document "" ∅)) as (_ & _ & Hgone & _); [discriminate|].
  exact Hgone.
Defined.

(** "failed" is shown while the hide timer of an earlier success is
    pending under id 2: when it fires, the error is hidden. *)
Lemma pending_hide_timer_hides_newer_status_witness :
  timers fading_document !! 2
  = Some {| t_delay := 300; t_repeat := false; t_callback := CbStatusHide |}
  /\ si_hideTimeout (status fading_document) = Some 1
  /\ (fun st2 => (si_text (status st2), si_display (status st2)))
       <$> step (TimerFires 2) (updateStatus "failed" "error" false fading_document)
     = Some ("failed", "none").
Proof.
  assert (Hid : timers fading_document !! 2
                = Some {| t_delay := 300; t_repeat := false;
                          t_callback := CbStatusHide |})
    by (vm_compute; reflexivity).
  assert (Hh : si_hideTimeout (status fading_document) = Some 1)
    by (vm_compute; reflexivity).
  split; [exact Hid|]. split; [exact Hh|].
  destruct (pending_hide_timer_hides_newer_status (H := browser) "failed" "error" 2 _
              fading_document Hid eq_refl) as (_ & st2 & Hstep & Htext & _ & Hdisplay).
  - rewrite Hh. discriminate.
  - vm_compute. lia.
  - reflexivity.
  - rewrite Hstep. cbn [fmap option_fmap option_map]. now rewrite Htext, Hdisplay.
Defined.

(** The transcript arrives for the page without a title: the input area
    keeps what it showed. *)
Lemma missing_title_blocks_transcript_witness :
  videoTitle (video untitled_document) = None
  /\ input_html (transcript_settled (Responded 200 transcript_body) untitled_document)
     = input_html untitled_document.
Proof.
  split; [reflexivity|].
  destruct (missing_title_blocks_transcript (H := browser)
              (Responded 200 transcript_body) untitled_document eq_refl)
    as (_ & Hhtml & _).
  exact Hhtml.
Defined.

(** Seven ticks after a click on "hello": the bar stands at 90 percent,
    on the last message. *)
Lemma ticker_is_capped_witness :
  timers (after [ClickTranslate] (document "hello" ∅)) !! 2 = Some (ticker 0)
  /\ exists st',
       run (replicate 7 (TimerFires 2)) (after [ClickTranslate] (document "hello" ∅))
       = Some st'
       /\ pg_width (progress st') = 90%Z
       /\ pg_text (progress st') = "완료 처리중...".
Proof.
  assert (Hticker : timers (after [ClickTranslate] (document "hello" ∅)) !! 2
                    = Some (ticker 0)) by (vm_compute; reflexivity).
  split; [exact Hticker|].
  destruct (ticker_is_capped (H := browser) 6 _ 2 0 Hticker)
    as (st' & Hrun & _ & Htext & _ & Hwidth & _).
  exists st'. split; [exact Hrun|]. split; [exact Hwidth | exact Htext].
Defined.

(** The translation of "hello" arrives. *)
Lemma translation_is_rendered_witness :
  ready_regular (document "hello" ∅) = true
  /\ JSON_parse translated_body
     = inl (Js.JObj [("translated_text", Js.JStr "안녕하세요")])
  /\ output_text
       <$> run [ClickTranslate; Response 200; Body translated_body]
             (document "hello" ∅)
     = Some "안녕하세요"
  /\ (fun st => si_text (status st))
       <$> run [ClickTranslate; Response 200; Body translated_body; TimerFires 3]
             (document "hello" ∅)
     = Some "5자 번역 완료".
Proof.
  do 2 (split; [reflexivity|]).
  destruct (translation_is_rendered (H := browser) (document "hello" ∅) 200
              translated_body (Js.JObj [("translated_text", Js.JStr "안녕하세요")])
              (Some (Js.JStr "안녕하세요")) eq_refl eq_refl eq_refl eq_refl)
    as (st' & st'' & Hrun & Hout & _ & _ & _ & _ & _ & Hstep & Htext & _).
  split.
  - rewrite Hrun. cbn [fmap option_fmap option_map]. now rewrite Hout.
  - change [ClickTranslate; Response 200; Body translated_body; TimerFires 3]
      with ([ClickTranslate; Response 200; Body translated_body] ++ [TimerFires 3])%list.
    rewrite run_snoc, Hrun, bind_Some.
    change (next_timer (document "hello" ∅)) with 1 in Hstep.
    rewrite Hstep. cbn [fmap option_fmap option_map]. now rewrite Htext.
Defined.

(** A message of another kind, and a "showVideoId" message without data. *)
Lemma other_messages_are_ignored_witness :
  let b := {| Background.tabs := ∅; Background.focused := None;
              Background.session := ∅; Background.console := [] |} in
  Background.onMessage "ui.html" 8
    {| Background.action := "ping"; Background.data := None |} b = (inl tt, b)
  /\ Background.onMessage "ui.html" 8
       {| Background.action := "showVideoId"; Background.data := None |} b
     = (inl tt, b).
Proof.
  intros b. split.
  - apply BackgroundFacts.other_messages_are_ignored. left. discriminate.
  - apply BackgroundFacts.other_messages_are_ignored. right. left. reflexivity.
Defined.

(** A browser that tracks its one open tab, 7. *)
Lemma tracked_browser_ok :
  Background.tracked_ok
    {| Background.tabs := {[ 7%Z := {| Background.url := "about:blank" |} ]};
       Background.focused := None;
       Background.session := {[ Background.TAB_KEY := 7%Z ]};
       Background.console := [] |}.
Proof.
  intros id Hs. cbn in Hs. apply lookup_singleton_Some in Hs as [_ <-].
  split; [discriminate|]. cbn. rewrite lookup_singleton_eq. eauto.
Qed.

Lemma tracked_reference_stays_live_witness :
  let b := {| Background.tabs := {[ 7%Z := {| Background.url := "about:blank" |} ]};
              Background.focused := None;
              Background.session := {[ Background.TAB_KEY := 7%Z ]};
              Background.console := [] |} in
  let request := {| Background.action := "showVideoId";
                    Background.data :=
                      Some {| Background.videoId := "abc";
                              Background.videoTitle := "A talk";
                              Background.fullUrl := "https://youtu.be/abc" |} |} in
  Background.tracked_ok b
  /\ Background.tracked_ok (snd (Background.onMessage "ui.html" 8 request b)).
Proof.
  intros b request. split; [apply tracked_browser_ok|].
  now destruct (BackgroundFacts.tracked_reference_stays_live "ui.html" 8 request b
                  tracked_browser_ok).
Defined.

Lemma closing_tab_clears_reference_witness :
  let b := {| Background.tabs := {[ 7%Z := {| Background.url := "about:blank" |} ]};
              Background.focused := None;
              Background.session := {[ Background.TAB_KEY := 7%Z ]};
              Background.console := [] |} in
  Background.tracked_ok b
  /\ Background.session
       (snd (Background.onRemoved 7 (Background.close_tab 7 b)))
     !! Background.TAB_KEY = None.
Proof.
  intros b. split; [apply tracked_browser_ok|].
  destruct (BackgroundFacts.closing_tab_clears_reference 7 b tracked_browser_ok)
    as (_ & _ & Hclosed & _).
  destruct Hclosed as [Hs _]; [reflexivity | exact Hs].
Defined.

(** The request for "hello" fails as Chrome reports it. *)
Lemma network_failure_is_reported_witness :
  ready_regular (document "hello" ∅) = true
  /\ output_text
       <$> run [ClickTranslate; NetworkError (Js.TypeError "Failed to fetch")]
             (document "hello" ∅)
     = Some msg_unreachable.
Proof.
  split; [reflexivity|].
  destruct (network_failure_is_reported (H := browser) (document "hello" ∅)
              (Js.TypeError "Failed to fetch") eq_refl)
    as (st' & Hrun & _ & _ & _ & _ & _ & _ & _ & Hfetch & _).
  rewrite Hrun. cbn [fmap option_fmap option_map].
  now rewrite (Hfetch eq_refl eq_refl).
Defined.

(** A 500 response whose detail quotes the input-error tag. *)
Lemma tagged_detail_bypasses_server_message_witness :
  ready_regular (document "hello" ∅) = true
  /\ JsString.includes quoting_detail tag_input_error = true
  /\ output_text
       <$> run (H := quoting_browser)
             [ClickTranslate; Response 500; Body (detail_body quoting_detail)]
             (document "hello" ∅)
     = Some "서버 내부 오류: 입력 오류 아님".
Proof.
  do 2 (split; [reflexivity|]).
  destruct (tagged_detail_bypasses_server_message (H := quoting_browser)
              (document "hello" ∅) (detail_body quoting_detail)
              (Js.JObj [("detail", Js.JStr quoting_detail)])
              quoting_detail eq_refl eq_refl eq_refl eq_refl)
    as (st' & Hrun & Hout & _).
  rewrite Hrun. unfold fmap, option_fmap, option_map. now rewrite Hout.
Defined.

End Scenarios.
